(** * Task-board server: board routes

    A shallow embedding of [src/routes/board.js] and of the Mongoose
    schemas it works on ([models/Board], [models/Card], [models/User]),
    with the properties of the access check, of the ordering operations
    and of the recommendation engine.

    Conventions of the embedding:
    - an [ObjectId] is the string that [toString()] gives for it;
    - a collection is a finite map from [ObjectId] to the stored fields,
      a fetched document is the pair of its [_id] and its fields;
    - a calendar instant is its number of milliseconds since the epoch;
    - a route handler is a function from the database and the request to
      the new database and the response; an exception thrown inside the
      handler's [try] block is the [Throw] outcome, which the [catch]
      clause turns into the 500 response. *)

From Stdlib Require Import ZArith String Ascii Bool Lia Sorted.
From stdpp Require Import base option list gmap fin_maps strings pretty.

Local Open Scope string_scope.
Local Open Scope Z_scope.
Local Open Scope list_scope.

(** ** Identifiers and documents *)

Definition ObjectId := string.

Record Doc (A : Type) := mkDoc { _id : ObjectId; fields : A }.
Arguments mkDoc {A} _ _.
Arguments _id {A} _.
Arguments fields {A} _.

(** [Model.findById] *)
Definition findById {A} (coll : gmap string A) (id : ObjectId) : option (Doc A) :=
  mkDoc id <$> coll !! id.

(** ** Schemas *)

Inductive Priority := Critical | High | Medium | Low.
Inductive Status := Backlog | Todo | InProgress | Review | Done | Blocked.

#[export] Instance Priority_eq_dec : EqDecision Priority.
Proof. solve_decision. Defined.
#[export] Instance Status_eq_dec : EqDecision Status.
Proof. solve_decision. Defined.

Module User.
Record t := mk { name : string; email : string; password : string }.
End User.

Module Board.
Record t := mk {
  name : string;
  description : string;
  owner : ObjectId;
  members : list ObjectId;
  lists : list ObjectId;
  isPublic : bool }.
End Board.

Module List.
(** Modelled from the spec: the schema file [models/List] is not among
    the sources; the fields are those of the spec's data model, which
    are also the ones the routes read and write. *)
Record t := mk {
  name : string;
  board : ObjectId;
  position : Z;
  cards : list ObjectId }.
End List.

Module Card.
Record t := mk {
  title : string;
  description : string;
  list : ObjectId;
  position : Z;
  dueDate : option Z;
  priority : Priority;
  status : Status;
  createdBy : ObjectId;
  assignedTo : Datatypes.list ObjectId }.
End Card.

(** The stored documents. Boards and lists are written by validating
    [save]s alone and the routes change nothing of a stored board or list
    but its arrays of identifiers, so that a [save] of a stored board or
    list is taken to pass its validation; a card can be stored with an
    empty [title], by [PATCH /cards/:id], and the [save] of a stored card
    is validated here. *)
Record Db := mkDb {
  Users : gmap string User.t;
  Boards : gmap string Board.t;
  Lists : gmap string List.t;
  Cards : gmap string Card.t }.

(** ** Outcomes of a [try] block *)

Inductive Outcome (A : Type) :=
| Return (a : A)
| Throw (e : string).
Arguments Return {A} _.
Arguments Throw {A} _.

#[export] Instance Outcome_bind : MBind Outcome := fun A B k o =>
  match o with
  | Return a => k a
  | Throw e => Throw e
  end.

(** ** Strings: [toLowerCase] and [includes]

    A string is a sequence of code units below 256, read as the
    characters U+0000 to U+00FF; a name with another character is outside
    the model. On these characters [toLowerCase] maps [A]..[Z] and the
    capital letters U+00C0 to U+00DE, the multiplication sign U+00D7
    apart, to the character 32 places further, and leaves every other
    character as it is; no character of the range is mapped out of it and
    none that is not an ASCII letter is mapped to one. *)

Definition lower (c : ascii) : ascii :=
  let n := nat_of_ascii c in
  if ((65 <=? n) && (n <=? 90)
      || (192 <=? n) && (n <=? 222) && negb (n =? 215))%nat
  then ascii_of_nat (n + 32) else c.

Fixpoint toLowerCase (s : string) : string :=
  match s with
  | EmptyString => EmptyString
  | String c s' => String (lower c) (toLowerCase s')
  end.

(** [hay.includes(needle)] *)
Fixpoint includes (hay needle : string) : bool :=
  String.prefix needle hay ||
  match hay with
  | EmptyString => false
  | String _ hay' => includes hay' needle
  end.

(** ** Arrays: [find], [findIndex], indexing, [some], [push] *)

Fixpoint findIndexFrom {A} (p : A -> bool) (l : list A) (i : Z) : Z :=
  match l with
  | [] => -1
  | x :: l' => if p x then i else findIndexFrom p l' (i + 1)
  end.

Definition findIndex {A} (p : A -> bool) (l : list A) : Z := findIndexFrom p l 0.

(** [arr[i]]: [undefined] outside of the array, so for [-1] too *)
Definition at_index {A} (l : list A) (i : Z) : option A :=
  if i <? 0 then None else l !! Z.to_nat i.

Definition some {A} (p : A -> bool) (l : list A) : bool := existsb p l.

Definition push {A} (l : list A) (x : A) : list A := l ++ [x].

(** ** Populated documents

    [populate] replaces the identifiers of an array path by the documents
    they name; an identifier that names no document is left out. *)

Module PList.
(** a List whose [cards] path is populated *)
Record t := mk {
  _id : ObjectId;
  name : string;
  board : ObjectId;
  position : Z;
  cards : list (Doc Card.t) }.
End PList.

Module PBoard.
(** a Board whose [lists] path is populated, with the cards of each list;
    [owner] and [members] stay identifiers *)
Record t := mk {
  _id : ObjectId;
  owner : ObjectId;
  members : list ObjectId;
  lists : list PList.t }.
End PBoard.

Definition populateCards (db : Db) (ids : list ObjectId) : list (Doc Card.t) :=
  omap (findById (Cards db)) ids.

Definition populateList (db : Db) (l : Doc List.t) : PList.t :=
  PList.mk (_id l) (List.name (fields l)) (List.board (fields l))
           (List.position (fields l))
           (populateCards db (List.cards (fields l))).

Definition populateLists (db : Db) (ids : list ObjectId) : list PList.t :=
  populateList db <$> omap (findById (Lists db)) ids.

Definition populateBoard (db : Db) (b : Doc Board.t) : PBoard.t :=
  PBoard.mk (_id b) (Board.owner (fields b)) (Board.members (fields b))
            (populateLists db (Board.lists (fields b))).

(** ** Advisories *)

Inductive Severity := high | medium | low.

Inductive AdvisoryType :=
| critical_priority
| high_priority_waiting
| overdue
| due_soon
| upcoming_deadline
| no_due_date_high_priority
| in_progress_overdue
| in_progress_due_soon
| blocked_task
| critical_in_todo
| move_to_done.

#[export] Instance Severity_eq_dec : EqDecision Severity.
Proof. solve_decision. Defined.
#[export] Instance AdvisoryType_eq_dec : EqDecision AdvisoryType.
Proof. solve_decision. Defined.

Record Advisory := mkAdvisory {
  cardId : ObjectId;
  cardTitle : string;
  type : AdvisoryType;
  reason : string;
  severity : Severity;
  action : string }.

Module Recs.
(** the object [recommendations] of the route, four arrays *)
Record t := mk {
  alerts : list Advisory;
  priority : list Advisory;
  dueDate : list Advisory;
  status : list Advisory }.
Definition empty : t := mk [] [] [] [].
End Recs.

(** ** The recommendation rules

    [daysUntilDue] is [Math.ceil((dueDate - now) / (1000 * 60 * 60 * 24))].
    The subtraction of two instants is exact in double precision, and for
    instants less than [2^26] days apart the rounded quotient lies on the
    same side of every integer as the exact one, so that the ceiling is
    the integer one below. *)

Definition msPerDay : Z := 1000 * 60 * 60 * 24.

Definition ceilDiv (a b : Z) : Z := - ((- a) / b).

Definition daysUntilDue (dueDate now : Z) : Z := ceilDiv (dueDate - now) msPerDay.

Definition dq : string := String "034"%char EmptyString.

Definition showPriority (p : Priority) : string :=
  match p with
  | Critical => "Critical"
  | High => "High"
  | Medium => "Medium"
  | Low => "Low"
  end.

(** [l.name.toLowerCase().includes(s)] *)
Definition nameIncludes (l : PList.t) (s : string) : bool :=
  includes (toLowerCase (PList.name l)) s.

(** [l.cards.some((c) => c._id.toString() === card._id.toString())] *)
Definition hasCard (card : Doc Card.t) (l : PList.t) : bool :=
  some (fun c => String.eqb (_id c) (_id card)) (PList.cards l).

Section Rules.
Variable board : PBoard.t.
Variable now : Z.
Variable card : Doc Card.t.

Let priority := Card.priority (fields card).
Let status := Card.status (fields card).
Let advisory := mkAdvisory (_id card) (Card.title (fields card)).

Definition priorityRules : list Advisory :=
  (if decide (priority = Critical) then
     match find (fun l => nameIncludes l "in progress") (PBoard.lists board) with
     | Some criticalList =>
         if negb (hasCard card criticalList) then
           [advisory critical_priority
              "Critical priority task should be in progress immediately"
              high
              ("Move to " +:+ dq +:+ "In Progress" +:+ dq +:+ " list")]
         else []
     | None => []
     end
   else [])
  ++
  (if decide (priority = High) then
     match find (fun l => nameIncludes l "todo" || nameIncludes l "backlog")
                (PBoard.lists board) with
     | Some todoList =>
         if hasCard card todoList then
           [advisory high_priority_waiting
              "High priority task is waiting in backlog"
              medium
              ("Consider moving to " +:+ dq +:+ "In Progress" +:+ dq
                 +:+ " if resources allow")]
         else []
     | None => []
     end
   else []).

Definition dueDateRules : list Advisory :=
  match Card.dueDate (fields card) with
  | Some dueDate =>
      let daysUntilDue := daysUntilDue dueDate now in
      if daysUntilDue <? 0 then
        if negb (bool_decide (status = Done)) then
          [advisory overdue
             ("Task was due " +:+ pretty (Z.abs daysUntilDue)
                +:+ " day(s) ago but is not completed")
             (if decide (priority = Critical) then high else medium)
             (if decide (status = Blocked)
              then "Resolve blocking issues and complete task"
              else "Complete task immediately")]
        else []
      else if daysUntilDue <=? 2 then
        if negb (bool_decide (status = Done))
           && negb (bool_decide (status = InProgress)) then
          [advisory due_soon
             ("Task is due in " +:+ pretty daysUntilDue
                +:+ " day(s) but not yet in progress")
             (if decide (priority = Critical) then high else medium)
             ("Move to " +:+ dq +:+ "In Progress" +:+ dq
                +:+ " and prioritize completion")]
        else []
      else if (daysUntilDue <=? 7) && bool_decide (status = Backlog) then
        [advisory upcoming_deadline
           ("Task due in " +:+ pretty daysUntilDue +:+ " days is still in backlog")
           low
           "Consider starting work or adjusting timeline"]
      else []
  | None =>
      if bool_decide (priority = Critical) || bool_decide (priority = High) then
        [advisory no_due_date_high_priority
           (showPriority priority +:+ " priority task has no due date")
           (if decide (priority = Critical) then medium else low)
           "Set a realistic due date for proper planning"]
      else []
  end.

Definition statusRules : list Advisory :=
  (if decide (status = InProgress) then
     match Card.dueDate (fields card) with
     | Some dueDate =>
         let daysUntilDue := daysUntilDue dueDate now in
         if daysUntilDue <? 0 then
           [advisory in_progress_overdue
              "Task is in progress but past due date"
              high
              "Complete immediately or escalate"]
         else if daysUntilDue <=? 1 then
           [advisory in_progress_due_soon
              ("In progress task due in " +:+ pretty daysUntilDue +:+ " day(s)")
              medium
              "Focus on completing this task"]
         else []
     | None => []
     end
   else [])
  ++
  (if decide (status = Blocked) then
     [advisory blocked_task
        "Task is blocked and needs attention"
        medium
        "Identify and resolve blocking issues"]
   else [])
  ++
  (if bool_decide (status = Todo) && bool_decide (priority = Critical) then
     [advisory critical_in_todo
        "Critical priority task should not remain in Todo"
        high
        ("Move to " +:+ dq +:+ "In Progress" +:+ dq +:+ " immediately")]
   else []).

(** [currentList] is [board.lists[currentListIndex]], [undefined] when no
    list has the card; reading [currentList.name] then throws. *)
Definition currentList : option PList.t :=
  at_index (PBoard.lists board) (findIndex (hasCard card) (PBoard.lists board)).

Definition alertRules : Outcome (list Advisory) :=
  if decide (status = Done) then
    match currentList with
    | None => Throw "TypeError: Cannot read properties of undefined (reading 'name')"
    | Some currentList =>
        if negb (nameIncludes currentList "done") then
          match find (fun l => nameIncludes l "done" || nameIncludes l "complete")
                     (PBoard.lists board) with
          | Some doneList =>
              Return [advisory move_to_done
                        "Completed task should be moved to Done list"
                        low
                        "Move to completed tasks list"]
          | None => Return []
          end
        else Return []
    end
  else Return [].

(** the body of [allCards.forEach((card) => ...)] *)
Definition evalCard (recommendations : Recs.t) : Outcome Recs.t :=
  let priority' := Recs.priority recommendations ++ priorityRules in
  let dueDate' := Recs.dueDate recommendations ++ dueDateRules in
  let status' := Recs.status recommendations ++ statusRules in
  alerts ← alertRules;
  Return (Recs.mk (Recs.alerts recommendations ++ alerts) priority' dueDate' status').
End Rules.

(** [arr.forEach(body)] over a state, stopping at the first exception *)
Fixpoint forEach {A S} (body : A -> S -> Outcome S) (l : list A) (s : S) : Outcome S :=
  match l with
  | [] => Return s
  | x :: l' => s' ← body x s; forEach body l' s'
  end.

(** [board.lists.forEach((list) => allCards.push(...list.cards))] *)
Definition allCards (board : PBoard.t) : list (Doc Card.t) :=
  concat (PList.cards <$> PBoard.lists board).

(** ** Sorting the advisories

    [Array.prototype.sort] is stable; with a comparator that is a total
    preorder its result is the one of any stable sort, here insertion
    from the right. *)

Definition severityOrder (s : Severity) : Z :=
  match s with
  | high => 3
  | medium => 2
  | low => 1
  end.

Definition compareSeverity (a b : Advisory) : Z :=
  severityOrder (severity b) - severityOrder (severity a).

Section Sort.
Context {A : Type} (compareFn : A -> A -> Z).

Fixpoint insertSorted (x : A) (l : list A) : list A :=
  match l with
  | [] => [x]
  | y :: l' => if compareFn x y <=? 0 then x :: l else y :: insertSorted x l'
  end.

Fixpoint sort (l : list A) : list A :=
  match l with
  | [] => []
  | x :: l' => insertSorted x (sort l')
  end.
End Sort.

Definition recommend (board : PBoard.t) (now : Z) : Outcome (list Advisory) :=
  recommendations ← forEach (evalCard board now) (allCards board) Recs.empty;
  Return (sort compareSeverity
            (Recs.alerts recommendations ++ Recs.priority recommendations
               ++ Recs.dueDate recommendations ++ Recs.status recommendations)).

(** ** Requests and responses *)

Module FullBoard.
(** the Board as [GET /:id] populates it: [owner] is the owner's
    document, or [null] when no user has that identifier; [members] are
    the documents of the members that exist *)
Record t := mk {
  _id : ObjectId;
  owner : option (Doc User.t);
  members : list (Doc User.t);
  lists : list PList.t }.
End FullBoard.

Inductive Json :=
| Message (message : string)
| BoardJson (board : FullBoard.t)
| ListJson (list : Doc List.t)
| CardJson (card : Doc Card.t)
| PopulatedCardJson (card : Doc Card.t) (createdBy : option (Doc User.t))
| RecommendationsJson (recommendations : list Advisory).

Record Response := mkResponse { code : Z; json : Json }.

(** [try { ... } catch (error) { res.status(500).json(...) }]: when the
    body throws, the handler is left with [onThrow], which is the store as
    the writes before the throw have made it, together with the answer of
    the [catch] block. Where a handler can throw after a write, the body is
    split at that write and the rest is caught with the written store. *)
Definition catch {A} (onThrow : A) (o : Outcome A) : A :=
  match o with
  | Return r => r
  | Throw _ => onThrow
  end.

Definition serverError : Response := mkResponse 500 (Message "Server error").

(** ** The access check

    [board.owner.toString() !== req.user.id &&
     !board.members.some((m) => m._id.toString() === req.user.id)],
    on a board whose [owner] and [members] are identifiers. *)

Definition accessDenied (owner : ObjectId) (members : list ObjectId) (userId : string) : bool :=
  negb (String.eqb owner userId)
  && negb (some (fun m => String.eqb m userId) members).

Definition canAccess (board : Board.t) (userId : string) : bool :=
  negb (accessDenied (Board.owner board) (Board.members board) userId).

(** ** [GET /:id]

    The route populates [owner] before the check. [toString()] of a
    populated path is the one of a document, which prints the document
    (its [_id], [name] and [email] here) and not its identifier; whatever
    the layout of that print, it opens with a brace. On [null] the call
    throws. *)

Definition inspectUser (u : Doc User.t) : string :=
  "{ _id: " +:+ _id u +:+ ", name: '" +:+ User.name (fields u)
    +:+ "', email: '" +:+ User.email (fields u) +:+ "' }".

Definition populateUsers (db : Db) (ids : list ObjectId) : list (Doc User.t) :=
  omap (findById (Users db)) ids.

Definition getBoard (db : Db) (userId : string) (id : ObjectId) : Response :=
  catch serverError
    match findById (Boards db) id with
    | None => Return (mkResponse 404 (Message "Board not found"))
    | Some b =>
        let board :=
          FullBoard.mk (_id b)
            (findById (Users db) (Board.owner (fields b)))
            (populateUsers db (Board.members (fields b)))
            (populateLists db (Board.lists (fields b))) in
        owner ← match FullBoard.owner board with
                | Some o => Return (inspectUser o)
                | None => Throw "TypeError: Cannot read properties of null (reading 'toString')"
                end;
        if negb (String.eqb owner userId)
           && negb (some (fun m => String.eqb (_id m) userId) (FullBoard.members board))
        then Return (mkResponse 403 (Message "Access denied"))
        else Return (mkResponse 200 (BoardJson board))
    end.

(** ** [POST /:id/invite]

    [User.findOne({ email })] is the first user with that address; the
    schema declares the address unique. The [boards] path is commented
    out in the User schema, so that what the route pushes on
    [userToInvite.boards] is not part of the stored document and
    [userToInvite.save()] writes nothing. *)

Definition findOne {A} (p : A -> bool) (coll : gmap string A) : option (Doc A) :=
  (fun kv => mkDoc kv.1 kv.2) <$> find (fun kv => p kv.2) (map_to_list coll).

Definition invite (db : Db) (userId : string) (id : ObjectId) (email : string)
  : Db * Response :=
  match findById (Boards db) id with
  | None => (db, mkResponse 404 (Message "Board not found"))
  | Some board =>
      if negb (String.eqb (Board.owner (fields board)) userId) then
        (db, mkResponse 403 (Message "Only board owner can invite users"))
      else
        match findOne (fun u => String.eqb (User.email u) email) (Users db) with
        | None => (db, mkResponse 404 (Message "User not found"))
        | Some userToInvite =>
            if some (String.eqb (_id userToInvite)) (Board.members (fields board)) then
              (db, mkResponse 400 (Message "User already in board"))
            else
              let b := fields board in
              let board' :=
                Board.mk (Board.name b) (Board.description b) (Board.owner b)
                  (push (Board.members b) (_id userToInvite))
                  (Board.lists b) (Board.isPublic b) in
              (mkDb (Users db) (<[id := board']> (Boards db)) (Lists db) (Cards db),
               mkResponse 200 (Message "User invited successfully"))
        end
  end.

(** ** Creating lists and cards

    [Model.countDocuments(filter)] is the number of stored documents that
    satisfy the filter. [new Model(...)] draws the identifier of the new
    document, [newId] below; [save()] rejects a document that fails the
    schema's validation, or whose identifier is taken. *)

Definition countDocuments {A} (p : A -> bool) (coll : gmap string A) : Z :=
  Z.of_nat (length (filter (fun kv => p kv.2 = true) (map_to_list coll))).

(** [required: true] on a String path: [undefined] and the empty string
    fail. The Card schema declares it for [title]; for the [name] of a
    List it is taken from the spec's validation errors, the List schema
    not being among the sources. *)
Definition required (s : option string) : Outcome string :=
  match s with
  | Some (String c s') => Return (String c s')
  | _ => Throw "ValidationError"
  end.

(** inserting a new document *)
Definition saveNew {A} (coll : gmap string A) (id : ObjectId) (doc : A)
  : Outcome (gmap string A) :=
  match coll !! id with
  | None => Return (<[id := doc]> coll)
  | Some _ => Throw "MongoServerError: E11000 duplicate key error"
  end.

Definition createList (db : Db) (userId : string) (boardId : ObjectId)
    (name : option string) (newId : ObjectId) : Db * Response :=
  catch (db, serverError)
    match findById (Boards db) boardId with
    | None => Return (db, mkResponse 403 (Message "Access denied"))
    | Some board =>
        let b := fields board in
        if accessDenied (Board.owner b) (Board.members b) userId then
          Return (db, mkResponse 403 (Message "Access denied"))
        else
          let listCount :=
            countDocuments (fun l => String.eqb (List.board l) boardId) (Lists db) in
          name' ← required name;
          let list := List.mk name' boardId listCount [] in
          lists' ← saveNew (Lists db) newId list;
          let board' :=
            Board.mk (Board.name b) (Board.description b) (Board.owner b)
              (Board.members b) (push (Board.lists b) newId) (Board.isPublic b) in
          Return (mkDb (Users db) (<[boardId := board']> (Boards db)) lists' (Cards db),
                  mkResponse 201 (ListJson (mkDoc newId list)))
    end.

(** the [dueDate] of a request body: absent (or falsy), a string that
    [new Date] parses to an instant, or one that it does not *)
Inductive DateInput :=
| NoDate
| ValidDate (instant : Z)
| InvalidDate.

Definition createCard (db : Db) (userId : string) (boardId listId : ObjectId)
    (title description : option string) (dueDate : DateInput) (newId : ObjectId)
  : Db * Response :=
  catch (db, serverError)
    match findById (Boards db) boardId, findById (Lists db) listId with
    | Some board, Some list =>
        if negb (String.eqb (List.board (fields list)) boardId) then
          Return (db, mkResponse 404 (Message "Board or list not found"))
        else if accessDenied (Board.owner (fields board)) (Board.members (fields board))
                  userId then
          Return (db, mkResponse 403 (Message "Access denied"))
        else
          let cardCount :=
            countDocuments (fun c => String.eqb (Card.list c) listId) (Cards db) in
          title' ← required title;
          dueDate' ← match dueDate with
                     | NoDate => Return None
                     | ValidDate t => Return (Some t)
                     | InvalidDate => Throw "ValidationError: Cast to date failed"
                     end;
          let card :=
            Card.mk title' (default EmptyString description) listId cardCount
                    dueDate' Low Todo userId [] in
          cards' ← saveNew (Cards db) newId card;
          let l := fields list in
          let list' :=
            List.mk (List.name l) (List.board l) (List.position l)
                    (push (List.cards l) newId) in
          Return (mkDb (Users db) (Boards db) (<[listId := list']> (Lists db)) cards',
                  mkResponse 201
                    (PopulatedCardJson (mkDoc newId card) (findById (Users db) userId)))
    | _, _ => Return (db, mkResponse 404 (Message "Board or list not found"))
    end.

(** ** [PATCH /cards/:id/move]

    [position] is [None] when the body has none. [$pull] takes every
    occurrence of the identifier out of the array, [$push] appends it;
    both updates name their list by identifier and do nothing when no
    list has it.

    The two list updates are written before [card.save()], and [save]
    validates the document: a card whose [title] is empty (which
    [PATCH /cards/:id] can store, its update running no validator) fails
    it, and the handler answers 500 with both lists rewritten and the card
    as it was. *)

Definition pull (id : ObjectId) (l : List.t) : List.t :=
  List.mk (List.name l) (List.board l) (List.position l)
          (filter (fun c => c <> id) (List.cards l)).

Definition pushCard (id : ObjectId) (l : List.t) : List.t :=
  List.mk (List.name l) (List.board l) (List.position l) (push (List.cards l) id).

(** [position || 0] *)
Definition orZero (position : option Z) : Z :=
  match position with
  | Some p => if p =? 0 then 0 else p
  | None => 0
  end.

(** the validation that [save] runs on a card: of the paths of the Card
    schema that have a validator, [list] and [createdBy] always hold an
    identifier and [priority] and [status] a value of their [enum]; what
    is left is [required] on [title] *)
Definition validateCard (c : Card.t) : Outcome Card.t :=
  _ ← required (Some (Card.title c)); Return c.

Definition moveCard (db : Db) (userId : string) (id newListId : ObjectId)
    (position : option Z) : Db * Response :=
  catch (db, serverError)
    match findById (Cards db) id with
    | None => Return (db, mkResponse 404 (Message "Card not found"))
    | Some card =>
        let oldList := findById (Lists db) (Card.list (fields card)) in
        let newList := findById (Lists db) newListId in
        board ← match newList with
                | Some l => Return (findById (Boards db) (List.board (fields l)))
                | None => Throw "TypeError: Cannot read properties of null (reading 'board')"
                end;
        match oldList, newList, board with
        | Some oldList, Some _, Some board =>
            if accessDenied (Board.owner (fields board)) (Board.members (fields board))
                 userId then
              Return (db, mkResponse 403 (Message "Access denied"))
            else
              let lists1 := alter (pull (_id card)) (_id oldList) (Lists db) in
              let lists2 := alter (pushCard (_id card)) newListId lists1 in
              let c := fields card in
              let card' :=
                Card.mk (Card.title c) (Card.description c) newListId (orZero position)
                        (Card.dueDate c) (Card.priority c) (Card.status c)
                        (Card.createdBy c) (Card.assignedTo c) in
              Return
                (catch (mkDb (Users db) (Boards db) lists2 (Cards db), serverError)
                   (saved ← validateCard card';
                    Return (mkDb (Users db) (Boards db) lists2
                                 (<[id := saved]> (Cards db)),
                            mkResponse 200 (CardJson (mkDoc id saved)))))
        | _, _, _ => Return (db, mkResponse 404 (Message "List or board not found"))
        end
    end.

(** ** [GET /:id/recommendations]

    [now] is the instant that [new Date()] reads. *)

Definition getRecommendations (db : Db) (userId : string) (id : ObjectId) (now : Z)
  : Response :=
  catch serverError
    match findById (Boards db) id with
    | None => Return (mkResponse 403 (Message "Access denied"))
    | Some b =>
        let board := populateBoard db b in
        if accessDenied (PBoard.owner board) (PBoard.members board) userId then
          Return (mkResponse 403 (Message "Access denied"))
        else
          allRecommendations ← recommend board now;
          Return (mkResponse 200 (RecommendationsJson allRecommendations))
    end.

(** ** Vocabulary of the statements *)

(** the advisories of one severity, in the order of the list *)
Definition bySeverity (s : Severity) (l : list Advisory) : list Advisory :=
  filter (fun a => severity a = s) l.

(** [a] is at least as severe as [b] *)
Definition atLeast (a b : Advisory) : Prop :=
  severityOrder (severity b) <= severityOrder (severity a).

(** what the alert rule pushes for a card when it does not throw *)
Definition alertsFor (board : PBoard.t) (card : Doc Card.t) : list Advisory :=
  match alertRules board card with
  | Return l => l
  | Throw _ => []
  end.

(** the rule group that emits a type of advisory *)
Inductive Group := AlertsGroup | PriorityGroup | DueDateGroup | StatusGroup.

#[export] Instance Group_eq_dec : EqDecision Group.
Proof. solve_decision. Defined.

Definition groupOf (t : AdvisoryType) : Group :=
  match t with
  | critical_priority | high_priority_waiting => PriorityGroup
  | overdue | due_soon | upcoming_deadline | no_due_date_high_priority => DueDateGroup
  | in_progress_overdue | in_progress_due_soon | blocked_task | critical_in_todo =>
      StatusGroup
  | move_to_done => AlertsGroup
  end.

(** the advisories of group [g] about the card [cid] *)
Definition aboutCard (g : Group) (cid : ObjectId) (l : list Advisory) : list Advisory :=
  filter (fun a => groupOf (type a) = g /\ cardId a = cid) l.

(** every advisory of [l] is about [card] and of group [g] *)
Definition emits (g : Group) (card : Doc Card.t) (l : list Advisory) : Prop :=
  Forall (fun a => cardId a = _id card /\ groupOf (type a) = g) l.

(** the four groups in the order of the spread, each in the order in which
    the cards are visited *)
Definition concatenated (board : PBoard.t) (now : Z) : list Advisory :=
  flat_map (alertsFor board) (allCards board)
    ++ flat_map (priorityRules board) (allCards board)
    ++ flat_map (dueDateRules now) (allCards board)
    ++ flat_map (statusRules now) (allCards board).

(** ** A sample database

    One board of three lists and five cards, owned by [u1], with [u2] as
    second member; [u3] is a user who is not on the board. *)

Definition day (n : Z) : Z := n * msPerDay.

Definition sampleNow : Z := day 20000.

Definition sampleBoard : Board.t :=
  Board.mk "Release" "Release plan" "u1" ["u1"; "u2"] ["l1"; "l2"; "l3"] false.

Definition sampleDb : Db :=
  mkDb
    {[ "u1" := User.mk "Ann" "ann@example.org" "h1";
       "u2" := User.mk "Bob" "bob@example.org" "h2";
       "u3" := User.mk "Cy" "cy@example.org" "h3" ]}
    {[ "b1" := sampleBoard ]}
    {[ "l1" := List.mk "Backlog" "b1" 0 ["c1"; "c2"];
       "l2" := List.mk "In Progress" "b1" 1 ["c3"; "c4"];
       "l3" := List.mk "Done" "b1" 2 ["c5"] ]}
    {[ "c1" := Card.mk "Fix login" EmptyString "l1" 0 None Critical Todo "u1" [];
       "c2" := Card.mk "Write docs" EmptyString "l1" 1 (Some (day 20005)) High Backlog "u1" [];
       "c3" := Card.mk "Ship build" EmptyString "l2" 0 (Some (day 19999)) Medium Todo "u2" [];
       "c4" := Card.mk "Tag release" EmptyString "l2" 1 None Low Done "u2" [];
       "c5" := Card.mk "Audit keys" EmptyString "l3" 0 (Some (day 20001)) Low Blocked "u1" [] ]}.

(** the sample board as the recommendation route populates it *)
Definition samplePBoard : PBoard.t := populateBoard sampleDb (mkDoc "b1" sampleBoard).

(** a finished card that no list refers to *)
Definition strayCard : Doc Card.t :=
  mkDoc "c9" (Card.mk "Old task" EmptyString "l0" 0 None Low Done "u1" []).

(** the sample database with that card stored: its [list] names no stored
    list, and no list of the board has it among its cards *)
Definition strayDb : Db :=
  mkDb (Users sampleDb) (Boards sampleDb) (Lists sampleDb)
       (<[_id strayCard := fields strayCard]> (Cards sampleDb)).

(** a board whose only list is a backlog, with one critical card *)
Definition backlogBoard : Board.t :=
  Board.mk "Ideas" EmptyString "u1" ["u1"] ["l1"] false.

Definition backlogDb : Db :=
  mkDb
    {[ "u1" := User.mk "Ann" "ann@example.org" "h1" ]}
    {[ "b1" := backlogBoard ]}
    {[ "l1" := List.mk "Backlog" "b1" 0 ["c1"] ]}
    {[ "c1" := Card.mk "Fix login" EmptyString "l1" 0 None Critical Todo "u1" [] ]}.

Definition backlogCard : Doc Card.t :=
  mkDoc "c1" (Card.mk "Fix login" EmptyString "l1" 0 None Critical Todo "u1" []).

(** a board whose owner [u1] is not repeated among the members *)
Definition ownedBoard : Board.t :=
  Board.mk "Private" EmptyString "u1" ["u2"] [] false.

Definition ownedDb : Db :=
  mkDb
    {[ "u1" := User.mk "Ann" "ann@example.org" "h1";
       "u2" := User.mk "Bob" "bob@example.org" "h2" ]}
    {[ "b1" := ownedBoard ]}
    ∅
    ∅.

(** ** The router

    The requests of the routes of this file, each with what its handler
    draws from outside the request (the identifier of a new document, the
    clock), and the dispatch to the handlers. *)

Inductive Request :=
| GetBoard (id : ObjectId)
| Invite (id : ObjectId) (email : string)
| CreateList (boardId : ObjectId) (name : option string) (newId : ObjectId)
| CreateCard (boardId listId : ObjectId) (title description : option string)
    (dueDate : DateInput) (newId : ObjectId)
| MoveCard (id newListId : ObjectId) (position : option Z)
| GetRecommendations (id : ObjectId) (now : Z).

Definition route (db : Db) (userId : string) (req : Request) : Db * Response :=
  match req with
  | GetBoard id => (db, getBoard db userId id)
  | Invite id email => invite db userId id email
  | CreateList boardId name newId => createList db userId boardId name newId
  | CreateCard boardId listId title description dueDate newId =>
      createCard db userId boardId listId title description dueDate newId
  | MoveCard id newListId position => moveCard db userId id newListId position
  | GetRecommendations id now => (db, getRecommendations db userId id now)
  end.

(** the requests that name a document that is not stored, as far as the
    handlers test for it: a board, the user of an invitation, the list of a
    new card (also one of another board), the card of a move, and for a
    move to a stored list the card's own list and the destination's board *)
Inductive Dangling (db : Db) (userId : string) : Request -> Prop :=
| dangling_getBoard id :
    Boards db !! id = None -> Dangling db userId (GetBoard id)
| dangling_invite_board id email :
    Boards db !! id = None -> Dangling db userId (Invite id email)
| dangling_invite_user id email board :
    Boards db !! id = Some board ->
    Board.owner board = userId ->
    findOne (fun u => String.eqb (User.email u) email) (Users db) = None ->
    Dangling db userId (Invite id email)
| dangling_createList boardId name newId :
    Boards db !! boardId = None -> Dangling db userId (CreateList boardId name newId)
| dangling_createCard_board boardId listId title description dueDate newId :
    Boards db !! boardId = None ->
    Dangling db userId (CreateCard boardId listId title description dueDate newId)
| dangling_createCard_list boardId listId title description dueDate newId :
    Lists db !! listId = None ->
    Dangling db userId (CreateCard boardId listId title description dueDate newId)
| dangling_createCard_other_board boardId listId title description dueDate newId list :
    Lists db !! listId = Some list ->
    List.board list <> boardId ->
    Dangling db userId (CreateCard boardId listId title description dueDate newId)
| dangling_moveCard_card id newListId position :
    Cards db !! id = None -> Dangling db userId (MoveCard id newListId position)
| dangling_moveCard_oldList id newListId position card newList :
    Cards db !! id = Some card ->
    Lists db !! newListId = Some newList ->
    Lists db !! Card.list card = None ->
    Dangling db userId (MoveCard id newListId position)
| dangling_moveCard_board id newListId position card newList :
    Cards db !! id = Some card ->
    Lists db !! newListId = Some newList ->
    Boards db !! List.board newList = None ->
    Dangling db userId (MoveCard id newListId position)
| dangling_getRecommendations id now :
    Boards db !! id = None -> Dangling db userId (GetRecommendations id now).

(** the status of the answer to a dangling request: the list and the
    recommendation routes test the board together with the access *)
Definition danglingCode (req : Request) : Z :=
  match req with
  | CreateList _ _ _ | GetRecommendations _ _ => 403
  | _ => 404
  end.

(** ** [GET /]: the boards of a user

    [Board.find({ $or: [{ owner: id }, { members: id }] })] selects the
    boards that the user owns or whose [members] array holds the user. The
    answer lists them by [createdAt], a timestamp that the records of this
    development do not carry: [boardsFor] is the selection, before the
    sort. *)

Definition boardsFor (db : Db) (userId : string) : gmap string Board.t :=
  filter (fun kv => Board.owner kv.2 = userId \/ userId ∈ Board.members kv.2)
         (Boards db).

(** ** [POST /]: a new board

    The user becomes the owner and the only member. The update that
    follows pushes on the [boards] path of the user, which the User schema
    does not declare: it writes nothing. The answer is the new board with
    status 201, or a message. *)

Inductive BoardAnswer :=
| Created (board : Doc Board.t)
| Failed (res : Response).

Definition createBoard (db : Db) (userId : string) (name description : option string)
    (newId : ObjectId) : Db * BoardAnswer :=
  catch (db, Failed serverError)
    (name' ← required name;
     let board :=
       Board.mk name' (default EmptyString description) userId [userId] [] false in
     boards' ← saveNew (Boards db) newId board;
     Return (mkDb (Users db) boards' (Lists db) (Cards db),
             Created (mkDoc newId board))).

(** ** [PATCH /cards/:id]: editing a card

    The body is taken with the paths of the Card schema, each absent or
    holding a value of the path's type; the update runs no validator. A
    truthy [dueDate] goes through [new Date], and a date that does not parse
    fails the cast of the update; [null] and the empty string clear the
    date. The list of the card and the board of that list are read without
    a test. *)

Inductive DateUpdate :=
| KeepDate
| ClearDate
| SetDate (instant : Z)
| BadDate.

Module CardUpdates.
Record t := mk {
  title : option string;
  description : option string;
  list : option ObjectId;
  position : option Z;
  dueDate : DateUpdate;
  priority : option Priority;
  status : option Status;
  createdBy : option ObjectId;
  assignedTo : option (Datatypes.list ObjectId) }.
Definition none : t := mk None None None None KeepDate None None None None.
End CardUpdates.

(** [findByIdAndUpdate(id, updates)] on the stored fields *)
Definition applyUpdates (updates : CardUpdates.t) (dueDate : option Z) (c : Card.t)
  : Card.t :=
  Card.mk (default (Card.title c) (CardUpdates.title updates))
          (default (Card.description c) (CardUpdates.description updates))
          (default (Card.list c) (CardUpdates.list updates))
          (default (Card.position c) (CardUpdates.position updates))
          dueDate
          (default (Card.priority c) (CardUpdates.priority updates))
          (default (Card.status c) (CardUpdates.status updates))
          (default (Card.createdBy c) (CardUpdates.createdBy updates))
          (default (Card.assignedTo c) (CardUpdates.assignedTo updates)).

Definition patchCard (db : Db) (userId : string) (id : ObjectId)
    (updates : CardUpdates.t) : Db * Response :=
  catch (db, serverError)
    match findById (Cards db) id with
    | None => Return (db, mkResponse 404 (Message "Card not found"))
    | Some card =>
        board ← match findById (Lists db) (Card.list (fields card)) with
                | Some list => Return (findById (Boards db) (List.board (fields list)))
                | None => Throw "TypeError: Cannot read properties of null (reading 'board')"
                end;
        owner ← match board with
                | Some b => Return (fields b)
                | None => Throw "TypeError: Cannot read properties of null (reading 'owner')"
                end;
        if accessDenied (Board.owner owner) (Board.members owner) userId then
          Return (db, mkResponse 403 (Message "Access denied"))
        else
          dueDate ← match CardUpdates.dueDate updates with
                    | KeepDate => Return (Card.dueDate (fields card))
                    | ClearDate => Return None
                    | SetDate t => Return (Some t)
                    | BadDate => Throw "CastError: Cast to date failed"
                    end;
          let card' := applyUpdates updates dueDate (fields card) in
          Return (mkDb (Users db) (Boards db) (Lists db) (<[id := card']> (Cards db)),
                  mkResponse 200
                    (PopulatedCardJson (mkDoc id card')
                       (findById (Users db) (Card.createdBy card'))))
    end.

(** ** Calls

    Every handler of the file that writes or that answers from the
    database, with the status of its answer. *)

Inductive Call :=
| Routed (req : Request)
| CreateBoard (name description : option string) (newId : ObjectId)
| PatchCard (id : ObjectId) (updates : CardUpdates.t).

Definition serve (db : Db) (userId : string) (call : Call) : Db * Z :=
  match call with
  | Routed req => let r := route db userId req in (r.1, code r.2)
  | CreateBoard name description newId =>
      let r := createBoard db userId name description newId in
      (r.1, match r.2 with Created _ => 201 | Failed res => code res end)
  | PatchCard id updates =>
      let r := patchCard db userId id updates in (r.1, code r.2)
  end.

(** a patch that leaves the [list] of the card alone; the move route is the
    one that changes it together with the lists *)
Definition keepsList (call : Call) : Prop :=
  match call with
  | PatchCard _ updates => CardUpdates.list updates = None
  | _ => True
  end.

(** a patch that gives the card no empty title; the update runs no
    validator and would store it *)
Definition keepsTitle (call : Call) : Prop :=
  match call with
  | PatchCard _ updates => CardUpdates.title updates <> Some EmptyString
  | _ => True
  end.

(** ** Invariants of the database *)

(** every stored card has a title, which is what [save] validates *)
Definition CardsTitled (db : Db) : Prop :=
  forall id c, Cards db !! id = Some c -> Card.title c <> EmptyString.

(** every board has its owner among its members *)
Definition OwnersAreMembers (db : Db) : Prop :=
  forall id b, Boards db !! id = Some b -> Board.owner b ∈ Board.members b.

(** lists and boards refer to each other, cards and lists refer to each
    other, and no array of identifiers repeats one *)
Record Consistent (db : Db) : Prop := mkConsistent {
  list_on_board : forall lid l,
    Lists db !! lid = Some l ->
    exists b, Boards db !! List.board l = Some b /\ lid ∈ Board.lists b;
  board_lists_stored : forall bid b lid,
    Boards db !! bid = Some b -> lid ∈ Board.lists b ->
    exists l, Lists db !! lid = Some l /\ List.board l = bid;
  board_lists_once : forall bid b,
    Boards db !! bid = Some b -> NoDup (Board.lists b);
  card_in_list : forall cid c,
    Cards db !! cid = Some c ->
    exists l, Lists db !! Card.list c = Some l /\ cid ∈ List.cards l;
  list_cards_stored : forall lid l cid,
    Lists db !! lid = Some l -> cid ∈ List.cards l ->
    exists c, Cards db !! cid = Some c /\ Card.list c = lid;
  list_cards_once : forall lid l,
    Lists db !! lid = Some l -> NoDup (List.cards l) }.

(** the databases that calls build from [db0], no patch touching the
    [list] of a card *)
Definition emptyDb : Db := mkDb ∅ ∅ ∅ ∅.

Inductive ReachableFrom (db0 : Db) : Db -> Prop :=
| reachable_start : ReachableFrom db0 db0
| reachable_serve db userId call :
    ReachableFrom db0 db -> keepsList call -> keepsTitle call ->
    ReachableFrom db0 (serve db userId call).1.

(** a board, a list and a card made by three calls on the empty database;
    [movedDb] has a second list, to which the card is moved after a patch
    of its title and priority *)
Definition builtDb : Db :=
  (serve (serve (serve emptyDb "u1" (CreateBoard (Some "Release") None "b1")).1
            "u1" (Routed (CreateList "b1" (Some "Backlog") "l1"))).1
     "u1" (Routed (CreateCard "b1" "l1" (Some "Fix login") None NoDate "c1"))).1.


(** the built database with a second list and a second card, which is
    overdue at [sampleNow] and made critical by a patch *)
Definition urgentDb : Db :=
  (serve (serve (serve builtDb
                   "u1" (Routed (CreateList "b1" (Some "In Progress") "l2"))).1
            "u1" (Routed (CreateCard "b1" "l1" (Some "Renew certificate") None
                            (ValidDate (day 19990)) "c2"))).1
     "u1" (PatchCard "c2" (CardUpdates.mk None None None None KeepDate (Some Critical)
                             None None None))).1.

(** the empty database with one board and no list *)
Definition boardDb : Db :=
  (serve emptyDb "u1" (CreateBoard (Some "Release") None "b1")).1.

(** ** What an advisory says of its card

    the state of the card, at the evaluation time, that each type of
    advisory reports *)

Definition justified (now : Z) (c : Card.t) (t : AdvisoryType) : Prop :=
  match t with
  | critical_priority => Card.priority c = Critical
  | high_priority_waiting => Card.priority c = High
  | overdue =>
      exists due, Card.dueDate c = Some due /\ msPerDay <= now - due
                  /\ Card.status c <> Done
  | due_soon =>
      exists due, Card.dueDate c = Some due /\ now - due < msPerDay
                  /\ due - now <= 2 * msPerDay
                  /\ Card.status c <> Done /\ Card.status c <> InProgress
  | upcoming_deadline =>
      exists due, Card.dueDate c = Some due /\ 2 * msPerDay < due - now
                  /\ due - now <= 7 * msPerDay /\ Card.status c = Backlog
  | no_due_date_high_priority =>
      Card.dueDate c = None /\ (Card.priority c = Critical \/ Card.priority c = High)
  | in_progress_overdue =>
      exists due, Card.dueDate c = Some due /\ msPerDay <= now - due
                  /\ Card.status c = InProgress
  | in_progress_due_soon =>
      exists due, Card.dueDate c = Some due /\ now - due < msPerDay
                  /\ due - now <= msPerDay /\ Card.status c = InProgress
  | blocked_task => Card.status c = Blocked
  | critical_in_todo => Card.status c = Todo /\ Card.priority c = Critical
  | move_to_done => Card.status c = Done
  end.

(** every advisory of [l] carries the identifier and the title of [card]
    and a type that the state of the card justifies *)
Definition reports (now : Z) (card : Doc Card.t) (l : list Advisory) : Prop :=
  Forall (fun a => cardId a = _id card /\ cardTitle a = Card.title (fields card)
                   /\ justified now (fields card) (type a)) l.

(** the two states that the rules rate high: a critical card, and a card in
    progress that is a day or more past its due date *)
Definition urgent (now : Z) (c : Card.t) : Prop :=
  Card.priority c = Critical
  \/ (Card.status c = InProgress
      /\ exists due, Card.dueDate c = Some due /\ msPerDay <= now - due).

(** the board that the access check of a call is run against, when the
    documents that lead to it are stored *)
Definition guardedBoard (db : Db) (call : Call) : option ObjectId :=
  match call with
  | Routed (CreateList boardId _ _) => Some boardId
  | Routed (CreateCard boardId listId _ _ _ _) =>
      l ← Lists db !! listId;
      if String.eqb (List.board l) boardId then Some boardId else None
  | Routed (MoveCard id newListId _) =>
      c ← Cards db !! id;
      _ ← Lists db !! Card.list c;
      l ← Lists db !! newListId;
      Some (List.board l)
  | Routed (GetRecommendations id _) => Some id
  | PatchCard id _ =>
      c ← Cards db !! id;
      l ← Lists db !! Card.list c;
      Some (List.board l)
  | _ => None
  end.

(** a list after the two updates of a move of [id] from the list [A] to the
    list [B] *)
Definition movedList (id A B lid : ObjectId) (l : List.t) : List.t :=
  let l1 := if decide (lid = A) then pull id l else l in
  if decide (lid = B) then pushCard id l1 else l1.

(** two populated lists look the same to the rules that run for [card]:
    they have the same name, and [card] is in both or in neither *)
Definition sameFor (card : Doc Card.t) (l l' : PList.t) : Prop :=
  PList.name l = PList.name l' /\ hasCard card l = hasCard card l'.

(** the documents of a populated array other than the one named [newId] *)
Definition without (newId : ObjectId) (cards : list (Doc Card.t)) : list (Doc Card.t) :=
  filter (fun x => _id x <> newId) cards.

(** a card on which no rule fires: low priority, status Todo, no due date *)
Definition quiet (c : Card.t) : Prop :=
  Card.priority c = Low /\ Card.status c = Todo /\ Card.dueDate c = None.

(** the database after [createCard] has stored the card [c0] under [newId]
    in the list [l] stored under [listId] *)
Definition withCard (db : Db) (listId : ObjectId) (l : List.t) (newId : ObjectId)
    (c0 : Card.t) : Db :=
  mkDb (Users db) (Boards db)
       (<[listId := List.mk (List.name l) (List.board l) (List.position l)
                      (List.cards l ++ [newId])]> (Lists db))
       (<[newId := c0]> (Cards db)).

(** the sample database after a patch has emptied the title of [c1] *)
Definition untitledDb : Db :=
  (patchCard sampleDb "u2" "c1"
     (CardUpdates.mk (Some EmptyString) None None None KeepDate None None None None)).1.

(** * Properties *)

(** ** Sample evaluations *)

Example toLowerCase_name : toLowerCase "In Progress (QA)" = "in progress (qa)".
Proof. reflexivity. Qed.

Example includes_inside : includes "work in progress" "in progress" = true.
Proof. reflexivity. Qed.

Example includes_not : includes "progress" "in progress" = false.
Proof. reflexivity. Qed.

Example findIndex_missing : findIndex (Z.eqb 7) [1; 2; 3] = -1.
Proof. reflexivity. Qed.

Example at_index_missing : at_index [1; 2; 3] (findIndex (Z.eqb 7) [1; 2; 3]) = None.
Proof. reflexivity. Qed.

Example daysUntilDue_in_an_hour : daysUntilDue (sampleNow + 3600000) sampleNow = 1.
Proof. reflexivity. Qed.

Example daysUntilDue_an_hour_ago : daysUntilDue (sampleNow - 3600000) sampleNow = 0.
Proof. reflexivity. Qed.

Example daysUntilDue_a_day_ago : daysUntilDue (sampleNow - msPerDay) sampleNow = -1.
Proof. reflexivity. Qed.

Example orZero_absent : orZero None = 0 /\ orZero (Some 0) = 0 /\ orZero (Some 4) = 4.
Proof. repeat split. Qed.

Example sample_types :
  exists out,
    getRecommendations sampleDb "u1" "b1" sampleNow
    = mkResponse 200 (RecommendationsJson out)
    /\ (fun a => (cardId a, type a, severity a)) <$> out
       = [("c1", critical_priority, high);
          ("c1", critical_in_todo, high);
          ("c2", high_priority_waiting, medium);
          ("c1", no_due_date_high_priority, medium);
          ("c3", overdue, medium);
          ("c5", due_soon, medium);
          ("c5", blocked_task, medium);
          ("c4", move_to_done, low);
          ("c2", upcoming_deadline, low)].
Proof. eexists. split; vm_compute; reflexivity. Qed.

(** ** The ceiling of a quotient *)

Lemma ceilDiv_spec (a b : Z) :
  0 < b -> b * (ceilDiv a b - 1) < a <= b * ceilDiv a b.
Proof.
  intros Hb. unfold ceilDiv.
  pose proof (Z.mul_div_le (- a) b Hb).
  pose proof (Z.mul_succ_div_gt (- a) b Hb). lia.
Qed.

Lemma ceilDiv_unique (a b q : Z) :
  0 < b -> b * (q - 1) < a <= b * q -> ceilDiv a b = q.
Proof.
  intros Hb Hq. pose proof (ceilDiv_spec a b Hb). nia.
Qed.

(** ** Arrays *)

Lemma findIndexFrom_found {A} (p : A -> bool) (l : list A) (i : Z) (x : A) :
  x ∈ l -> p x = true ->
  exists (n : nat) (y : A),
    findIndexFrom p l i = i + Z.of_nat n /\ l !! n = Some y /\ p y = true.
Proof.
  intros Hin Hp. revert i.
  induction l as [|z l IH]; intros i; [by apply elem_of_nil in Hin|].
  simpl. destruct (p z) eqn:Hz.
  - exists 0%nat, z. split; [lia|done].
  - apply elem_of_cons in Hin as [->|Hin]; [congruence|].
    destruct (IH Hin (i + 1)) as (n & y & Hn & Hy & Hpy).
    exists (S n), y. split; [lia|done].
Qed.

Lemma findIndexFrom_none {A} (p : A -> bool) (l : list A) (i : Z) :
  (forall x, x ∈ l -> p x = false) -> findIndexFrom p l i = -1.
Proof.
  revert i. induction l as [|z l IH]; intros i Hall; [done|].
  simpl. rewrite (Hall z) by left. apply IH. intros x Hx. apply Hall. by right.
Qed.

Lemma at_index_found {A} (p : A -> bool) (l : list A) (x : A) :
  x ∈ l -> p x = true ->
  exists y, at_index l (findIndex p l) = Some y /\ y ∈ l /\ p y = true.
Proof.
  intros Hin Hp.
  destruct (findIndexFrom_found p l 0 x Hin Hp) as (n & y & Hn & Hy & Hpy).
  exists y. unfold findIndex, at_index. rewrite Hn.
  destruct (0 + Z.of_nat n <? 0) eqn:Hlt; [lia|].
  replace (Z.to_nat (0 + Z.of_nat n)) with n by lia.
  split; [done|]. split; [|done]. by eapply list_elem_of_lookup_2.
Qed.

Lemma at_index_none {A} (p : A -> bool) (l : list A) :
  (forall x, x ∈ l -> p x = false) -> at_index l (findIndex p l) = None.
Proof.
  intros Hall. unfold findIndex. by rewrite findIndexFrom_none.
Qed.

Lemma find_some_elem {A} (p : A -> bool) (l : list A) (x : A) :
  find p l = Some x -> x ∈ l /\ p x = true.
Proof.
  intros H. apply find_some in H as [Hin Hp]. by rewrite list_elem_of_In.
Qed.

Lemma find_is_Some {A} (p : A -> bool) (l : list A) (x : A) :
  x ∈ l -> p x = true -> exists y, find p l = Some y /\ p y = true.
Proof.
  intros Hin Hp. destruct (find p l) as [y|] eqn:Hf.
  - exists y. split; [done|]. by apply find_some in Hf as [_ ?].
  - apply list_elem_of_In in Hin.
    pose proof (find_none p l Hf x Hin). congruence.
Qed.

Lemma some_true {A} (p : A -> bool) (l : list A) :
  some p l = true <-> exists x, x ∈ l /\ p x = true.
Proof.
  unfold some. rewrite existsb_exists.
  split; intros (x & Hx & Hp); exists x; by rewrite ?list_elem_of_In in *.
Qed.

Lemma some_false {A} (p : A -> bool) (l : list A) :
  some p l = false <-> forall x, x ∈ l -> p x = false.
Proof.
  split.
  - intros Hs x Hx. destruct (p x) eqn:Hp; [|done].
    assert (some p l = true) by (apply some_true; eauto). congruence.
  - intros Hall. destruct (some p l) eqn:Hs; [|done].
    apply some_true in Hs as (x & Hx & Hp). rewrite (Hall x Hx) in Hp. done.
Qed.

(** ** The stable sort by severity *)

Lemma insertSorted_bySeverity (s : Severity) (x : Advisory) (l : list Advisory) :
  bySeverity s (insertSorted compareSeverity x l) = bySeverity s (x :: l).
Proof.
  unfold bySeverity. induction l as [|y l IH]; [done|].
  simpl. destruct (compareSeverity x y <=? 0) eqn:Hc; [done|].
  apply Z.leb_gt in Hc. unfold compareSeverity in Hc.
  rewrite filter_cons, IH, !filter_cons.
  repeat case_decide; try done.
  exfalso. assert (severity x = severity y) as Heq by congruence.
  rewrite Heq in Hc. lia.
Qed.

Lemma sort_bySeverity (s : Severity) (l : list Advisory) :
  bySeverity s (sort compareSeverity l) = bySeverity s l.
Proof.
  induction l as [|x l IH]; [done|].
  simpl. rewrite insertSorted_bySeverity. unfold bySeverity in *.
  by rewrite !filter_cons, IH.
Qed.

Lemma insertSorted_elem (x y : Advisory) (l : list Advisory) :
  y ∈ insertSorted compareSeverity x l <-> y = x \/ y ∈ l.
Proof.
  induction l as [|z l IH]; simpl.
  - rewrite list_elem_of_singleton, elem_of_nil. tauto.
  - destruct (compareSeverity x z <=? 0).
    + by rewrite !elem_of_cons.
    + rewrite !elem_of_cons, IH. tauto.
Qed.

Lemma insertSorted_sorted (x : Advisory) (l : list Advisory) :
  StronglySorted atLeast l -> StronglySorted atLeast (insertSorted compareSeverity x l).
Proof.
  induction 1 as [|y l Hs IH Hall]; simpl.
  - repeat constructor.
  - destruct (compareSeverity x y <=? 0) eqn:Hc.
    + apply Z.leb_le in Hc. unfold compareSeverity in Hc.
      constructor; [by constructor|].
      constructor; [unfold atLeast; lia|].
      eapply Forall_impl; [exact Hall|]. unfold atLeast. intros; simpl in *; lia.
    + apply Z.leb_gt in Hc. unfold compareSeverity in Hc.
      constructor; [done|].
      apply Forall_forall. intros z Hz. apply insertSorted_elem in Hz as [->|Hz].
      * unfold atLeast. lia.
      * rewrite Forall_forall in Hall. by apply Hall.
Qed.

Lemma sort_sorted (l : list Advisory) : StronglySorted atLeast (sort compareSeverity l).
Proof.
  induction l as [|x l IH]; simpl; [constructor|by apply insertSorted_sorted].
Qed.

Lemma sorted_lookup (l : list Advisory) (i j : nat) (x y : Advisory) :
  StronglySorted atLeast l -> l !! i = Some x -> l !! j = Some y -> (i < j)%nat ->
  atLeast x y.
Proof.
  intros Hs. revert i j. induction Hs as [|z l Hs IH Hall]; intros i j Hi Hj Hlt.
  - done.
  - destruct j as [|j]; [lia|]. simpl in Hj. destruct i as [|i]; simpl in Hi.
    + injection Hi as ->. rewrite Forall_forall in Hall.
      apply Hall. by eapply list_elem_of_lookup_2.
    + eapply IH; eauto. lia.
Qed.

Lemma bySeverity_nil (s : Severity) (l : list Advisory) :
  Forall (fun a => severity a <> s) l -> bySeverity s l = [].
Proof.
  unfold bySeverity. induction 1 as [|x l Hx _ IH]; [done|].
  by rewrite filter_cons_False.
Qed.

Lemma sorted_three_blocks (l : list Advisory) :
  StronglySorted atLeast l ->
  l = bySeverity high l ++ bySeverity medium l ++ bySeverity low l.
Proof.
  induction 1 as [|x l Hs IH Hall]; [done|].
  assert (Hbelow : forall s, severityOrder (severity x) < severityOrder s ->
            bySeverity s l = []).
  { intros s Hlt. apply bySeverity_nil. eapply Forall_impl; [exact Hall|].
    unfold atLeast. intros a Ha Heq. rewrite Heq in Ha. lia. }
  unfold bySeverity in *. rewrite !filter_cons.
  destruct (severity x) eqn:Hx; repeat case_decide; try done; simpl.
  - by rewrite <- IH.
  - rewrite (Hbelow high) in * by (simpl; lia). simpl in *. by rewrite <- IH.
  - rewrite (Hbelow high), (Hbelow medium) in * by (simpl; lia).
    simpl in *. by rewrite <- IH.
Qed.

Lemma sort_three_blocks (l : list Advisory) :
  sort compareSeverity l = bySeverity high l ++ bySeverity medium l ++ bySeverity low l.
Proof.
  rewrite (sorted_three_blocks _ (sort_sorted l)) at 1.
  by rewrite !sort_bySeverity.
Qed.

(** the stable sort of a list is unique: whatever stable algorithm the
    engine runs, its result is the one of [sort] *)
Lemma stable_sort_unique (l out : list Advisory) :
  StronglySorted atLeast out ->
  (forall s, bySeverity s out = bySeverity s l) ->
  out = sort compareSeverity l.
Proof.
  intros Hsorted Hstable.
  rewrite (sorted_three_blocks out Hsorted), sort_three_blocks.
  by rewrite !Hstable.
Qed.

(** ** The loop over the cards *)

Lemma allCards_elem (board : PBoard.t) (card : Doc Card.t) :
  card ∈ allCards board <-> exists l, l ∈ PBoard.lists board /\ card ∈ PList.cards l.
Proof.
  unfold allCards. rewrite list_elem_of_In, in_concat. split.
  - intros (cs & Hcs & Hc). apply list_elem_of_In, list_elem_of_fmap in Hcs as (l & -> & Hl).
    exists l. split; [done|by apply list_elem_of_In].
  - intros (l & Hl & Hc). exists (PList.cards l).
    rewrite <- !list_elem_of_In. split; [|done]. apply list_elem_of_fmap. eauto.
Qed.

Lemma hasCard_elem (card : Doc Card.t) (l : PList.t) :
  card ∈ PList.cards l -> hasCard card l = true.
Proof.
  intros Hin. unfold hasCard. apply some_true. exists card. split; [done|].
  apply String.eqb_refl.
Qed.

Lemma hasCard_true (card : Doc Card.t) (l : PList.t) :
  hasCard card l = true <-> exists c, c ∈ PList.cards l /\ _id c = _id card.
Proof.
  unfold hasCard. rewrite some_true.
  split; intros (c & Hc & He); exists c; by rewrite ?String.eqb_eq in *.
Qed.

Lemma currentList_found (board : PBoard.t) (card : Doc Card.t) :
  card ∈ allCards board ->
  exists l, currentList board card = Some l /\ l ∈ PBoard.lists board
            /\ hasCard card l = true.
Proof.
  intros Hin. apply allCards_elem in Hin as (l & Hl & Hc).
  apply (at_index_found (hasCard card) _ l Hl). by apply hasCard_elem.
Qed.

Lemma alertRules_Return (board : PBoard.t) (card : Doc Card.t) :
  is_Some (currentList board card) \/ Card.status (fields card) <> Done ->
  alertRules board card = Return (alertsFor board card).
Proof.
  intros Hc. unfold alertsFor, alertRules.
  case_decide as Hdone; [|done].
  destruct Hc as [[l Hl]|Hnd]; [|done]. rewrite Hl.
  destruct (negb _); [|done]. by destruct (find _ _).
Qed.

Lemma evalCard_Return (board : PBoard.t) (now : Z) (card : Doc Card.t) (recs : Recs.t) :
  is_Some (currentList board card) \/ Card.status (fields card) <> Done ->
  evalCard board now card recs =
  Return (Recs.mk (Recs.alerts recs ++ alertsFor board card)
                  (Recs.priority recs ++ priorityRules board card)
                  (Recs.dueDate recs ++ dueDateRules now card)
                  (Recs.status recs ++ statusRules now card)).
Proof.
  intros Hc. unfold evalCard. by rewrite (alertRules_Return _ _ Hc).
Qed.

Lemma forEach_evalCard (board : PBoard.t) (now : Z) (cards : list (Doc Card.t))
    (recs : Recs.t) :
  Forall (fun c => is_Some (currentList board c) \/ Card.status (fields c) <> Done)
         cards ->
  forEach (evalCard board now) cards recs =
  Return (Recs.mk (Recs.alerts recs ++ flat_map (alertsFor board) cards)
                  (Recs.priority recs ++ flat_map (priorityRules board) cards)
                  (Recs.dueDate recs ++ flat_map (dueDateRules now) cards)
                  (Recs.status recs ++ flat_map (statusRules now) cards)).
Proof.
  intros Hall. revert recs. induction Hall as [|c cards Hc _ IH]; intros recs.
  - simpl. rewrite !app_nil_r. by destruct recs.
  - cbn [forEach]. rewrite (evalCard_Return _ _ _ _ Hc).
    cbn [mbind Outcome_bind]. rewrite IH. simpl. by rewrite !app_assoc.
Qed.

Lemma currentList_unlisted (board : PBoard.t) (card : Doc Card.t) :
  (forall l, l ∈ PBoard.lists board -> hasCard card l = false) ->
  currentList board card = None.
Proof. intros Hno. unfold currentList. by apply at_index_none. Qed.

Lemma unlisted_done_card_throws (board : PBoard.t) (now : Z) (card : Doc Card.t)
    (recs : Recs.t) :
  (forall l, l ∈ PBoard.lists board -> hasCard card l = false) ->
  Card.status (fields card) = Done ->
  evalCard board now card recs =
  Throw "TypeError: Cannot read properties of undefined (reading 'name')".
Proof.
  intros Hno Hdone. unfold evalCard, alertRules.
  rewrite (currentList_unlisted _ _ Hno), Hdone. by rewrite decide_True.
Qed.

Lemma recommend_Return (board : PBoard.t) (now : Z) :
  recommend board now = Return (sort compareSeverity (concatenated board now)).
Proof.
  unfold recommend. rewrite forEach_evalCard.
  - simpl. unfold concatenated. done.
  - apply Forall_forall. intros c Hc.
    destruct (currentList_found board c Hc) as (l & -> & _). left. by eexists.
Qed.

Lemma getRecommendations_ok (db : Db) (userId : string) (id : ObjectId) (now : Z)
    (b : Board.t) :
  Boards db !! id = Some b -> canAccess b userId = true ->
  getRecommendations db userId id now =
  mkResponse 200 (RecommendationsJson
    (sort compareSeverity (concatenated (populateBoard db (mkDoc id b)) now))).
Proof.
  intros Hb Hacc. unfold getRecommendations, findById. rewrite Hb. simpl.
  unfold canAccess in Hacc. apply negb_true_iff in Hacc. rewrite Hacc.
  by rewrite recommend_Return.
Qed.

(** ** The order of the advisories *)

Lemma insertSorted_Permutation (x : Advisory) (l : list Advisory) :
  insertSorted compareSeverity x l ≡ₚ x :: l.
Proof.
  induction l as [|y l IH]; simpl; [done|].
  destruct (compareSeverity x y <=? 0); [done|].
  rewrite IH. apply Permutation_swap.
Qed.

Lemma sort_Permutation (l : list Advisory) : sort compareSeverity l ≡ₚ l.
Proof.
  induction l as [|x l IH]; simpl; [done|].
  by rewrite insertSorted_Permutation, IH.
Qed.

Lemma sort_elem (a : Advisory) (l : list Advisory) :
  a ∈ sort compareSeverity l <-> a ∈ l.
Proof. by rewrite sort_Permutation. Qed.

Lemma sort_higher_first (l : list Advisory) (i j : nat) (x y : Advisory) :
  sort compareSeverity l !! i = Some x -> sort compareSeverity l !! j = Some y ->
  severityOrder (severity y) < severityOrder (severity x) -> (i < j)%nat.
Proof.
  intros Hi Hj Hlt. destruct (decide (i < j)%nat) as [|Hge]; [done|exfalso].
  destruct (decide (i = j)) as [->|Hne].
  - rewrite Hi in Hj. injection Hj as ->. lia.
  - assert (atLeast y x) as Hyx.
    { apply (sorted_lookup _ j i y x (sort_sorted l) Hj Hi). lia. }
    unfold atLeast in Hyx. lia.
Qed.

(** C1: for every board that the user can access and every evaluation time,
    [getRecommendations] answers 200 with the stable sort by descending
    severity of the concatenation alerts, priority, dueDate, status (each
    group in card iteration order): the answer is a permutation of the
    concatenation, an advisory of higher severity stands before every
    advisory of lower severity, and the advisories of one severity keep the
    order they have in the concatenation. *)
Theorem getRecommendations_stable_severity_order
    (db : Db) (userId : string) (id : ObjectId) (now : Z) (b : Board.t) :
  Boards db !! id = Some b ->
  canAccess b userId = true ->
  exists out,
    getRecommendations db userId id now = mkResponse 200 (RecommendationsJson out)
    /\ out = sort compareSeverity (concatenated (populateBoard db (mkDoc id b)) now)
    /\ out ≡ₚ concatenated (populateBoard db (mkDoc id b)) now
    /\ (forall (i j : nat) (x y : Advisory),
          out !! i = Some x -> out !! j = Some y ->
          severityOrder (severity y) < severityOrder (severity x) -> (i < j)%nat)
    /\ (forall s : Severity,
          bySeverity s out
          = bySeverity s (concatenated (populateBoard db (mkDoc id b)) now))
    /\ out = bySeverity high (concatenated (populateBoard db (mkDoc id b)) now)
             ++ bySeverity medium (concatenated (populateBoard db (mkDoc id b)) now)
             ++ bySeverity low (concatenated (populateBoard db (mkDoc id b)) now).
Proof.
  intros Hb Hacc. eexists. split; [by apply getRecommendations_ok|].
  split; [done|]. split; [apply sort_Permutation|].
  split; [apply sort_higher_first|].
  split; [intros s; apply sort_bySeverity|apply sort_three_blocks].
Qed.

Lemma getRecommendations_stable_severity_order_witness :
  Boards sampleDb !! "b1" = Some sampleBoard
  /\ canAccess sampleBoard "u2" = true
  /\ exists out,
       getRecommendations sampleDb "u2" "b1" sampleNow
       = mkResponse 200 (RecommendationsJson out)
       /\ cardId <$> out = ["c1"; "c1"; "c2"; "c1"; "c3"; "c5"; "c5"; "c4"; "c2"]
       /\ severity <$> out
          = [high; high; medium; medium; medium; medium; medium; low; low]
       /\ forall s : Severity,
            bySeverity s out
            = bySeverity s (concatenated (populateBoard sampleDb (mkDoc "b1" sampleBoard))
                                         sampleNow).
Proof.
  assert (Hb : Boards sampleDb !! "b1" = Some sampleBoard) by (vm_compute; reflexivity).
  assert (Hacc : canAccess sampleBoard "u2" = true) by (vm_compute; reflexivity).
  split; [exact Hb|]. split; [exact Hacc|].
  destruct (getRecommendations_stable_severity_order sampleDb "u2" "b1" sampleNow
              sampleBoard Hb Hacc) as (out & Hout & Hsort & _ & _ & Hstable & _).
  exists out. split; [exact Hout|].
  split; [rewrite Hsort; vm_compute; reflexivity|].
  split; [rewrite Hsort; vm_compute; reflexivity|exact Hstable].
Defined.

(** ** What each rule group emits *)

Ltac rule_cases :=
  repeat first [case_decide | case_match]; simpl; repeat constructor.

Lemma priorityRules_emits (board : PBoard.t) (card : Doc Card.t) :
  emits PriorityGroup card (priorityRules board card).
Proof. unfold emits, priorityRules. rule_cases. Qed.

Lemma dueDateRules_emits (now : Z) (card : Doc Card.t) :
  emits DueDateGroup card (dueDateRules now card).
Proof. unfold emits, dueDateRules. rule_cases. Qed.

Lemma statusRules_emits (now : Z) (card : Doc Card.t) :
  emits StatusGroup card (statusRules now card).
Proof. unfold emits, statusRules. rule_cases. Qed.

Lemma alertsFor_emits (board : PBoard.t) (card : Doc Card.t) :
  emits AlertsGroup card (alertsFor board card).
Proof.
  unfold emits, alertsFor, alertRules.
  case_decide; [|constructor].
  destruct (currentList board card); [|constructor].
  destruct (negb _); [|constructor].
  destruct (find _ _); repeat constructor.
Qed.

Lemma dueDateRules_at_most_one (now : Z) (card : Doc Card.t) :
  (length (dueDateRules now card) <= 1)%nat.
Proof. unfold dueDateRules. rule_cases. Qed.

Lemma aboutCard_flat_map (g g' : Group) (cid : ObjectId)
    (f : Doc Card.t -> list Advisory) (cards : list (Doc Card.t)) :
  (forall c, emits g' c (f c)) ->
  aboutCard g cid (flat_map f cards) =
  if decide (g = g') then flat_map f (filter (fun c => _id c = cid) cards) else [].
Proof.
  intros Hf.
  assert (Hone : forall c, aboutCard g cid (f c)
                           = if decide (g = g' /\ _id c = cid) then f c else []).
  { intros c. specialize (Hf c). unfold aboutCard. induction Hf as [|a l [Ha Hg] _ IH].
    - by case_decide.
    - rewrite filter_cons, IH. rewrite Ha, Hg.
      destruct (decide (g = g' /\ _id c = cid)) as [[Hgg Hcc]|Hn].
      + by rewrite decide_True.
      + rewrite decide_False; [done|]. intros [Hgg Hcc]. by apply Hn. }
  induction cards as [|c cards IH]; simpl.
  - by case_decide.
  - unfold aboutCard in *. rewrite filter_app, IH, Hone, filter_cons.
    repeat case_decide; simpl; try done; try (by rewrite app_nil_r); exfalso; tauto.
Qed.

Lemma aboutCard_concatenated (g : Group) (cid : ObjectId) (board : PBoard.t) (now : Z) :
  aboutCard g cid (concatenated board now) =
  flat_map (fun c => match g with
                     | AlertsGroup => alertsFor board c
                     | PriorityGroup => priorityRules board c
                     | DueDateGroup => dueDateRules now c
                     | StatusGroup => statusRules now c
                     end)
           (filter (fun c => _id c = cid) (allCards board)).
Proof.
  unfold concatenated, aboutCard. rewrite !filter_app.
  fold (aboutCard g cid (flat_map (alertsFor board) (allCards board))).
  fold (aboutCard g cid (flat_map (priorityRules board) (allCards board))).
  fold (aboutCard g cid (flat_map (dueDateRules now) (allCards board))).
  fold (aboutCard g cid (flat_map (statusRules now) (allCards board))).
  rewrite (aboutCard_flat_map g AlertsGroup) by apply alertsFor_emits.
  rewrite (aboutCard_flat_map g PriorityGroup) by apply priorityRules_emits.
  rewrite (aboutCard_flat_map g DueDateGroup) by apply dueDateRules_emits.
  rewrite (aboutCard_flat_map g StatusGroup) by apply statusRules_emits.
  destruct g; simpl; by rewrite ?app_nil_r.
Qed.

Lemma concatenated_elem (board : PBoard.t) (now : Z) (a : Advisory) :
  a ∈ concatenated board now ->
  exists card, card ∈ allCards board /\ cardId a = _id card.
Proof.
  unfold concatenated. rewrite !elem_of_app, !list_elem_of_In, !in_flat_map.
  intros [H|[H|[H|H]]]; destruct H as (c & Hc & Ha); exists c;
    (split; [by apply list_elem_of_In|]); apply list_elem_of_In in Ha.
  - pose proof (alertsFor_emits board c) as He. unfold emits in He.
    rewrite Forall_forall in He. by apply He.
  - pose proof (priorityRules_emits board c) as He. unfold emits in He.
    rewrite Forall_forall in He. by apply He.
  - pose proof (dueDateRules_emits now c) as He. unfold emits in He.
    rewrite Forall_forall in He. by apply He.
  - pose proof (statusRules_emits now c) as He. unfold emits in He.
    rewrite Forall_forall in He. by apply He.
Qed.

(** ** The cards of a populated board *)

Lemma allCards_stored (db : Db) (id : ObjectId) (b : Board.t) (card : Doc Card.t) :
  card ∈ allCards (populateBoard db (mkDoc id b)) ->
  exists listId l,
    listId ∈ Board.lists b /\ Lists db !! listId = Some l
    /\ _id card ∈ List.cards l /\ Cards db !! _id card = Some (fields card).
Proof.
  intros Hc. apply allCards_elem in Hc as (pl & Hpl & Hc). simpl in Hpl.
  unfold populateLists in Hpl.
  apply list_elem_of_fmap in Hpl as (ld & -> & Hld).
  apply list_elem_of_omap in Hld as (listId & HlistId & Hfind).
  unfold findById in Hfind. destruct (Lists db !! listId) as [l|] eqn:Hl; [|done].
  injection Hfind as <-. simpl in Hc. unfold populateCards in Hc.
  apply list_elem_of_omap in Hc as (cid & Hcid & Hfind).
  unfold findById in Hfind. destruct (Cards db !! cid) as [c|] eqn:Hcard; [|done].
  injection Hfind as <-. simpl. by exists listId, l.
Qed.

(** ** Due dates *)

Lemma daysUntilDue_yesterday (dueDate now : Z) :
  msPerDay <= now - dueDate < 2 * msPerDay -> daysUntilDue dueDate now = -1.
Proof.
  intros H. unfold daysUntilDue, ceilDiv.
  replace (- (dueDate - now)) with (now - dueDate) by lia.
  assert ((now - dueDate) / msPerDay = 1); [|lia].
  symmetry. apply (Z.div_unique_pos _ _ 1 (now - dueDate - msPerDay)); lia.
Qed.

Lemma daysUntilDue_negative (dueDate now : Z) :
  daysUntilDue dueDate now < 0 <-> msPerDay <= now - dueDate.
Proof.
  unfold daysUntilDue, ceilDiv.
  replace (- (dueDate - now)) with (now - dueDate) by lia.
  assert (0 < msPerDay) as Hpos by (unfold msPerDay; lia).
  split; intros H.
  - assert (1 <= (now - dueDate) / msPerDay) as Hq by lia.
    pose proof (Z.mul_div_le (now - dueDate) msPerDay Hpos). nia.
  - assert (1 <= (now - dueDate) / msPerDay); [|lia].
    apply Z.div_le_lower_bound; lia.
Qed.

Lemma overdue_yesterday (now dueDate : Z) (card : Doc Card.t) :
  Card.dueDate (fields card) = Some dueDate ->
  msPerDay <= now - dueDate < 2 * msPerDay ->
  Card.status (fields card) = Todo ->
  Card.priority (fields card) <> Critical ->
  dueDateRules now card =
  [mkAdvisory (_id card) (Card.title (fields card)) overdue
     "Task was due 1 day(s) ago but is not completed" medium
     "Complete task immediately"].
Proof.
  intros Hdue Hy Hst Hpr. unfold dueDateRules.
  rewrite Hdue, Hst, (daysUntilDue_yesterday _ _ Hy). simpl.
  by rewrite decide_False.
Qed.

Lemma length_flat_map_at_most_one {A B} (f : A -> list B) (l : list A) :
  (forall x, (length (f x) <= 1)%nat) -> (length (flat_map f l) <= length l)%nat.
Proof.
  intros Hf. induction l as [|x l IH]; simpl; [done|].
  rewrite length_app. specialize (Hf x). lia.
Qed.

(** C2: the due-date rules are one [if]/[else if] chain, so that a visit of
    a card pushes at most one due-date advisory; the answer of
    [getRecommendations] has no more due-date advisories about a card than
    the board has occurrences of that card, at most one for a card that is
    on the board once. In particular a card on the board once, due one day
    before the evaluation time, with status Todo and a priority other than
    Critical, has exactly one due-date advisory in the answer: [overdue],
    of severity medium. *)
Theorem dueDate_rules_mutually_exclusive
    (db : Db) (userId : string) (id : ObjectId) (now : Z) (b : Board.t) :
  Boards db !! id = Some b ->
  canAccess b userId = true ->
  exists out,
    getRecommendations db userId id now = mkResponse 200 (RecommendationsJson out)
    /\ (forall card, (length (dueDateRules now card) <= 1)%nat)
    /\ (forall cid,
          (length (aboutCard DueDateGroup cid out)
           <= length (filter (fun c => _id c = cid)
                             (allCards (populateBoard db (mkDoc id b)))))%nat)
    /\ (forall card,
          filter (fun c => _id c = _id card) (allCards (populateBoard db (mkDoc id b)))
          = [card] ->
          (length (aboutCard DueDateGroup (_id card) out) <= 1)%nat)
    /\ (forall card dueDate,
          filter (fun c => _id c = _id card) (allCards (populateBoard db (mkDoc id b)))
          = [card] ->
          Card.dueDate (fields card) = Some dueDate ->
          msPerDay <= now - dueDate < 2 * msPerDay ->
          Card.status (fields card) = Todo ->
          Card.priority (fields card) <> Critical ->
          aboutCard DueDateGroup (_id card) out =
          [mkAdvisory (_id card) (Card.title (fields card)) overdue
             "Task was due 1 day(s) ago but is not completed" medium
             "Complete task immediately"]).
Proof.
  intros Hb Hacc. eexists. split; [by apply getRecommendations_ok|].
  set (board := populateBoard db (mkDoc id b)).
  assert (Hperm : forall cid,
            aboutCard DueDateGroup cid (sort compareSeverity (concatenated board now))
            ≡ₚ flat_map (dueDateRules now) (filter (fun c => _id c = cid) (allCards board))).
  { intros cid. rewrite <- (aboutCard_concatenated DueDateGroup).
    unfold aboutCard. by rewrite sort_Permutation. }
  assert (Hle : forall cid,
            (length (aboutCard DueDateGroup cid (sort compareSeverity (concatenated board now)))
             <= length (filter (fun c => _id c = cid) (allCards board)))%nat).
  { intros cid. rewrite (Permutation_length (Hperm cid)).
    apply length_flat_map_at_most_one, dueDateRules_at_most_one. }
  split; [apply dueDateRules_at_most_one|].
  split; [exact Hle|].
  split.
  - intros card Honce. specialize (Hle (_id card)). by rewrite Honce in Hle.
  - intros card dueDate Honce Hdue Hy Hst Hpr.
    apply Permutation_singleton_r. rewrite Hperm, Honce. simpl.
    by rewrite app_nil_r, (overdue_yesterday _ _ _ Hdue Hy Hst Hpr).
Qed.

Lemma dueDate_rules_mutually_exclusive_witness :
  Boards sampleDb !! "b1" = Some sampleBoard
  /\ canAccess sampleBoard "u1" = true
  /\ exists out,
       getRecommendations sampleDb "u1" "b1" sampleNow
       = mkResponse 200 (RecommendationsJson out)
       /\ aboutCard DueDateGroup "c3" out =
          [mkAdvisory "c3" "Ship build" overdue
             "Task was due 1 day(s) ago but is not completed" medium
             "Complete task immediately"].
Proof.
  assert (Hb : Boards sampleDb !! "b1" = Some sampleBoard) by (vm_compute; reflexivity).
  assert (Hacc : canAccess sampleBoard "u1" = true) by (vm_compute; reflexivity).
  split; [exact Hb|]. split; [exact Hacc|].
  destruct (dueDate_rules_mutually_exclusive sampleDb "u1" "b1" sampleNow
              sampleBoard Hb Hacc) as (out & Hout & _ & _ & _ & Hy).
  exists out. split; [exact Hout|].
  apply (Hy (mkDoc "c3" (Card.mk "Ship build" EmptyString "l2" 0 (Some (day 19999))
                           Medium Todo "u2" [])) (day 19999)).
  - vm_compute. reflexivity.
  - reflexivity.
  - unfold sampleNow, day, msPerDay. lia.
  - reflexivity.
  - discriminate.
Defined.

(** C10: every advisory in the answer of [getRecommendations] names a card
    that is stored and that a list of the board refers to, and its severity
    is high, medium or low. *)
Theorem advisories_well_formed
    (db : Db) (userId : string) (id : ObjectId) (now : Z) (b : Board.t) :
  Boards db !! id = Some b ->
  canAccess b userId = true ->
  exists out,
    getRecommendations db userId id now = mkResponse 200 (RecommendationsJson out)
    /\ forall a, a ∈ out ->
         (exists listId l card,
            listId ∈ Board.lists b /\ Lists db !! listId = Some l
            /\ cardId a ∈ List.cards l /\ Cards db !! cardId a = Some card)
         /\ (severity a = high \/ severity a = medium \/ severity a = low).
Proof.
  intros Hb Hacc. eexists. split; [by apply getRecommendations_ok|].
  intros a Ha. rewrite sort_elem in Ha. split.
  - apply concatenated_elem in Ha as (card & Hcard & ->).
    apply allCards_stored in Hcard as (listId & l & H1 & H2 & H3 & H4).
    by exists listId, l, (fields card).
  - destruct (severity a); auto.
Qed.

Lemma advisories_well_formed_witness :
  Boards sampleDb !! "b1" = Some sampleBoard
  /\ canAccess sampleBoard "u1" = true
  /\ exists out,
       getRecommendations sampleDb "u1" "b1" sampleNow
       = mkResponse 200 (RecommendationsJson out)
       /\ forall a, a ∈ out ->
            exists listId l card,
              listId ∈ Board.lists sampleBoard /\ Lists sampleDb !! listId = Some l
              /\ cardId a ∈ List.cards l /\ Cards sampleDb !! cardId a = Some card.
Proof.
  assert (Hb : Boards sampleDb !! "b1" = Some sampleBoard) by (vm_compute; reflexivity).
  assert (Hacc : canAccess sampleBoard "u1" = true) by (vm_compute; reflexivity).
  split; [exact Hb|]. split; [exact Hacc|].
  destruct (advisories_well_formed sampleDb "u1" "b1" sampleNow sampleBoard Hb Hacc)
    as (out & Hout & Hwf).
  exists out. split; [exact Hout|]. intros a Ha. exact (proj1 (Hwf a Ha)).
Defined.

(** ** Cards that no list refers to *)

(** C4: the evaluation of a board does not fail on account of a card that
    no list refers to. The cards that the engine evaluates are those of the
    populated lists of the board; for each of them the lookup of the
    current list finds a list that holds the card, and the alert rule,
    which reads the name of that list without a test, returns. A stored
    card that no list of the board refers to, finished or not, is not
    evaluated: the answer is 200 and has no advisory about it, none of
    type [move_to_done] in particular. *)
Theorem unlisted_card_is_skipped_safely
    (db : Db) (userId : string) (id : ObjectId) (now : Z) (b : Board.t) :
  Boards db !! id = Some b ->
  canAccess b userId = true ->
  exists out,
    getRecommendations db userId id now = mkResponse 200 (RecommendationsJson out)
    /\ (forall card, card ∈ allCards (populateBoard db (mkDoc id b)) ->
          exists l, currentList (populateBoard db (mkDoc id b)) card = Some l
                    /\ hasCard card l = true
                    /\ alertRules (populateBoard db (mkDoc id b)) card
                       = Return (alertsFor (populateBoard db (mkDoc id b)) card))
    /\ (forall cid,
          (forall lid l, lid ∈ Board.lists b -> Lists db !! lid = Some l ->
                         cid ∉ List.cards l) ->
          forall a, a ∈ out -> cardId a <> cid).
Proof.
  intros Hb Hacc. eexists. split; [by apply getRecommendations_ok|]. split.
  - intros card Hcard.
    destruct (currentList_found _ card Hcard) as (l & Hl & _ & Hhas).
    exists l. split; [done|]. split; [done|].
    apply alertRules_Return. left. by eexists.
  - intros cid Hno a Ha Hid. rewrite sort_elem in Ha.
    apply concatenated_elem in Ha as (card & Hcard & Hcid).
    apply allCards_stored in Hcard as (lid & l & Hlid & Hl & Hin & _).
    apply (Hno lid l Hlid Hl). by rewrite <- Hid, Hcid.
Qed.

Lemma unlisted_card_is_skipped_safely_witness :
  Cards strayDb !! "c9" = Some (fields strayCard)
  /\ Card.status (fields strayCard) = Done
  /\ exists out,
       getRecommendations strayDb "u1" "b1" sampleNow
       = mkResponse 200 (RecommendationsJson out)
       /\ forall a, a ∈ out -> cardId a <> "c9".
Proof.
  split; [vm_compute; reflexivity|]. split; [reflexivity|].
  destruct (unlisted_card_is_skipped_safely strayDb "u1" "b1" sampleNow sampleBoard)
    as (out & Hout & _ & Hskip).
  - vm_compute. reflexivity.
  - vm_compute. reflexivity.
  - exists out. split; [exact Hout|]. apply Hskip.
    intros lid l Hlid Hl Hin.
    repeat (apply elem_of_cons in Hlid as [->|Hlid];
            [vm_compute in Hl; injection Hl as <-;
             repeat (apply elem_of_cons in Hin as [Hin|Hin]; [discriminate Hin|]);
             by apply elem_of_nil in Hin|]).
    by apply elem_of_nil in Hlid.
Defined.

(** ** Critical cards *)

(** C3, as stated, fails: on a board that has no list named like
    "in progress" a critical card is in no such list, and the rule, which
    asks for such a list to exist, emits nothing for it. *)
Lemma critical_card_without_in_progress_list :
  exists out,
    backlogCard ∈ allCards (populateBoard backlogDb (mkDoc "b1" backlogBoard))
    /\ Card.priority (fields backlogCard) = Critical
    /\ (forall l, l ∈ PBoard.lists (populateBoard backlogDb (mkDoc "b1" backlogBoard)) ->
                  nameIncludes l "in progress" = true -> hasCard backlogCard l = false)
    /\ getRecommendations backlogDb "u1" "b1" sampleNow
       = mkResponse 200 (RecommendationsJson out)
    /\ ~ exists a, a ∈ out /\ cardId a = _id backlogCard /\ type a = critical_priority.
Proof.
  eexists. split; [|split; [|split; [|split]]].
  - vm_compute. left.
  - reflexivity.
  - intros l Hl Hname. exfalso. apply list_elem_of_In in Hl.
    assert (Hall : forallb (fun l => negb (nameIncludes l "in progress"))
              (PBoard.lists (populateBoard backlogDb (mkDoc "b1" backlogBoard))) = true)
      by (vm_compute; reflexivity).
    rewrite forallb_forall in Hall. apply Hall in Hl. by rewrite Hname in Hl.
  - vm_compute. reflexivity.
  - intros (a & Ha & _ & Ht).
    repeat (apply elem_of_cons in Ha as [->|Ha]; [discriminate Ht|]).
    by apply elem_of_nil in Ha.
Qed.

(** when the critical rule fires: the first list named like "in progress"
    exists and does not hold the card *)
Lemma critical_priority_iff (board : PBoard.t) (card : Doc Card.t) :
  (exists a, a ∈ priorityRules board card /\ type a = critical_priority)
  <-> Card.priority (fields card) = Critical
      /\ exists criticalList,
           find (fun l => nameIncludes l "in progress") (PBoard.lists board)
           = Some criticalList
           /\ hasCard card criticalList = false.
Proof.
  unfold priorityRules. split.
  - intros (a & Ha & Ht).
    destruct (decide (Card.priority (fields card) = Critical)) as [Hc|Hc].
    + split; [done|]. rewrite decide_False in Ha by (rewrite Hc; discriminate).
      destruct (find _ _) as [cl|]; [|by apply elem_of_nil in Ha].
      exists cl. split; [done|].
      destruct (hasCard card cl); [by apply elem_of_nil in Ha|done].
    + exfalso. simpl in Ha. case_decide; [|by apply elem_of_nil in Ha].
      destruct (find _ _) as [tl|]; [|by apply elem_of_nil in Ha].
      destruct (hasCard card tl); [|by apply elem_of_nil in Ha].
      apply list_elem_of_singleton in Ha as ->. discriminate.
  - intros (Hc & cl & Hfind & Hhas). rewrite decide_True by done.
    rewrite Hfind, Hhas. simpl. eexists. split; [left|done].
Qed.

(** C3, amended: on a board that has a list whose lower-cased name contains
    "in progress", every card of the board with priority Critical that is
    in no such list gets a [critical_priority] advisory of severity high in
    the answer of [getRecommendations]. *)
Theorem critical_priority_emitted
    (db : Db) (userId : string) (id : ObjectId) (now : Z) (b : Board.t)
    (card : Doc Card.t) :
  Boards db !! id = Some b ->
  canAccess b userId = true ->
  card ∈ allCards (populateBoard db (mkDoc id b)) ->
  Card.priority (fields card) = Critical ->
  (exists l, l ∈ PBoard.lists (populateBoard db (mkDoc id b))
             /\ nameIncludes l "in progress" = true) ->
  (forall l, l ∈ PBoard.lists (populateBoard db (mkDoc id b)) ->
             nameIncludes l "in progress" = true -> hasCard card l = false) ->
  exists out a,
    getRecommendations db userId id now = mkResponse 200 (RecommendationsJson out)
    /\ a ∈ out
    /\ cardId a = _id card
    /\ cardTitle a = Card.title (fields card)
    /\ type a = critical_priority
    /\ severity a = high.
Proof.
  intros Hb Hacc Hcard Hprio (l & Hl & Hname) Hnot.
  eexists. eexists (mkAdvisory (_id card) (Card.title (fields card)) critical_priority
                      _ high _).
  split; [by apply getRecommendations_ok|]. split; [|done].
  rewrite sort_elem. unfold concatenated. rewrite !elem_of_app. right. left.
  rewrite list_elem_of_In, in_flat_map. exists card.
  split; [by apply list_elem_of_In|]. apply list_elem_of_In.
  unfold priorityRules. rewrite decide_True by done.
  destruct (find_is_Some (fun l => nameIncludes l "in progress") _ l Hl Hname)
    as (cl & Hfind & Hcl).
  rewrite Hfind. rewrite decide_False by (rewrite Hprio; discriminate).
  assert (hasCard card cl = false) as ->.
  { apply Hnot; [|done]. by eapply find_some_elem. }
  simpl. left.
Qed.

Lemma critical_priority_emitted_witness :
  exists out a,
    getRecommendations sampleDb "u2" "b1" sampleNow
    = mkResponse 200 (RecommendationsJson out)
    /\ a ∈ out
    /\ cardId a = "c1"
    /\ cardTitle a = "Fix login"
    /\ type a = critical_priority
    /\ severity a = high.
Proof.
  apply (critical_priority_emitted sampleDb "u2" "b1" sampleNow sampleBoard
           (mkDoc "c1" (Card.mk "Fix login" EmptyString "l1" 0 None Critical Todo
                                "u1" []))).
  - vm_compute. reflexivity.
  - vm_compute. reflexivity.
  - vm_compute. left.
  - reflexivity.
  - exists (PList.mk "l2" "In Progress" "b1" 1
              (populateCards sampleDb ["c3"; "c4"])).
    split; [vm_compute; right; left|vm_compute; reflexivity].
  - intros l Hl Hname. apply list_elem_of_In in Hl.
    assert (Hall : forallb
              (fun l => implb (nameIncludes l "in progress")
                          (negb (hasCard (mkDoc "c1" (Card.mk "Fix login" EmptyString "l1"
                                                        0 None Critical Todo "u1" [])) l)))
              (PBoard.lists (populateBoard sampleDb (mkDoc "b1" sampleBoard))) = true)
      by (vm_compute; reflexivity).
    rewrite forallb_forall in Hall. apply Hall in Hl.
    rewrite Hname in Hl. simpl in Hl. by apply negb_true_iff.
Defined.

(** ** Moving a card *)

Lemma moveCard_succeeds (db : Db) (userId : string) (id newListId : ObjectId)
    (position : option Z) (card : Card.t) (oldList newList : List.t) (board : Board.t) :
  Cards db !! id = Some card ->
  Lists db !! Card.list card = Some oldList ->
  Lists db !! newListId = Some newList ->
  Boards db !! List.board newList = Some board ->
  canAccess board userId = true ->
  Card.title card <> EmptyString ->
  let card' :=
    Card.mk (Card.title card) (Card.description card) newListId (orZero position)
            (Card.dueDate card) (Card.priority card) (Card.status card)
            (Card.createdBy card) (Card.assignedTo card) in
  moveCard db userId id newListId position =
  (mkDb (Users db) (Boards db)
        (alter (pushCard id) newListId (alter (pull id) (Card.list card) (Lists db)))
        (<[id := card']> (Cards db)),
   mkResponse 200 (CardJson (mkDoc id card'))).
Proof.
  intros Hcard Hold Hnew Hboard Hacc Htitle. unfold moveCard, findById.
  rewrite Hcard. simpl. rewrite Hnew, Hold. simpl. rewrite Hboard. simpl.
  unfold canAccess in Hacc. apply negb_true_iff in Hacc. rewrite Hacc.
  unfold validateCard. simpl. by destruct (Card.title card).
Qed.

(** the [save] of a card without title fails after the lists are written *)
Lemma moveCard_fails_validation (db : Db) (userId : string) (id newListId : ObjectId)
    (position : option Z) (card : Card.t) (oldList newList : List.t) (board : Board.t) :
  Cards db !! id = Some card ->
  Lists db !! Card.list card = Some oldList ->
  Lists db !! newListId = Some newList ->
  Boards db !! List.board newList = Some board ->
  canAccess board userId = true ->
  Card.title card = EmptyString ->
  moveCard db userId id newListId position =
  (mkDb (Users db) (Boards db)
        (alter (pushCard id) newListId (alter (pull id) (Card.list card) (Lists db)))
        (Cards db),
   serverError).
Proof.
  intros Hcard Hold Hnew Hboard Hacc Htitle. unfold moveCard, findById.
  rewrite Hcard. simpl. rewrite Hnew, Hold. simpl. rewrite Hboard. simpl.
  unfold canAccess in Hacc. apply negb_true_iff in Hacc. rewrite Hacc.
  unfold validateCard. simpl. by rewrite Htitle.
Qed.

Lemma moveCard_200 (db db' : Db) (userId : string) (id newListId : ObjectId)
    (position : option Z) (res : Response) :
  moveCard db userId id newListId position = (db', res) ->
  code res = 200 ->
  exists card oldList newList board,
    Cards db !! id = Some card
    /\ Lists db !! Card.list card = Some oldList
    /\ Lists db !! newListId = Some newList
    /\ Boards db !! List.board newList = Some board
    /\ canAccess board userId = true
    /\ Card.title card <> EmptyString.
Proof.
  unfold moveCard, findById, canAccess, validateCard. intros Hm Hcode.
  destruct (Cards db !! id) as [card|] eqn:Hcard; simpl in Hm;
    [|injection Hm as <- <-; done].
  destruct (Lists db !! newListId) as [newList|] eqn:Hnew; simpl in Hm;
    [|injection Hm as <- <-; done].
  destruct (Lists db !! Card.list card) as [oldList|] eqn:Hold; simpl in Hm;
    [|injection Hm as <- <-; done].
  destruct (Boards db !! List.board newList) as [board|] eqn:Hboard; simpl in Hm;
    [|injection Hm as <- <-; done].
  destruct (accessDenied _ _ _) eqn:Hden; simpl in Hm; [injection Hm as <- <-; done|].
  destruct (Card.title card) eqn:Htitle; simpl in Hm; [injection Hm as <- <-; done|].
  exists card, oldList, newList, board. by rewrite Hden, Htitle.
Qed.

(** a move inside one list takes the card out and appends it again *)
Lemma moveCard_same_list (db db' : Db) (userId : string) (id : ObjectId)
    (position : option Z) (card : Card.t) (res : Response) :
  Cards db !! id = Some card ->
  moveCard db userId id (Card.list card) position = (db', res) ->
  code res = 200 ->
  exists l, Lists db !! Card.list card = Some l
            /\ Lists db' !! Card.list card = Some (pushCard id (pull id l)).
Proof.
  intros Hcard Hm Hcode.
  destruct (moveCard_200 _ _ _ _ _ _ _ Hm Hcode)
    as (card0 & oldList & newList & board & Hcard0 & Hold & Hnew & Hboard & Hacc & Htitle).
  assert (card0 = card) as -> by congruence.
  rewrite (moveCard_succeeds _ _ _ _ position _ _ _ _ Hcard Hold Hnew Hboard Hacc Htitle)
    in Hm.
  injection Hm as <- <-. simpl. exists oldList. split; [done|].
  by rewrite !lookup_alter_eq, Hold.
Qed.

(** C5: when [moveCard] answers 200 for a card whose list A is not the
    destination B, then in the new database the card's identifier is not in
    A's cards and is in B's cards, the stored card is the one of the answer,
    its [list] is B and its [position] is [position || 0], which is 0 when
    the request has no position. *)
Theorem moveCard_transfers_card
    (db db' : Db) (userId : string) (id newListId : ObjectId) (position : option Z)
    (card : Card.t) (res : Response) :
  Cards db !! id = Some card ->
  Card.list card <> newListId ->
  moveCard db userId id newListId position = (db', res) ->
  code res = 200 ->
  (exists a, Lists db' !! Card.list card = Some a /\ id ∉ List.cards a)
  /\ (exists b, Lists db' !! newListId = Some b /\ id ∈ List.cards b)
  /\ (exists card',
        Cards db' !! id = Some card'
        /\ res = mkResponse 200 (CardJson (mkDoc id card'))
        /\ Card.list card' = newListId
        /\ Card.position card' = orZero position
        /\ (position = None -> Card.position card' = 0)).
Proof.
  intros Hcard Hne Hm Hcode.
  destruct (moveCard_200 _ _ _ _ _ _ _ Hm Hcode)
    as (card0 & oldList & newList & board & Hcard0 & Hold & Hnew & Hboard & Hacc & Htitle).
  assert (card0 = card) as -> by congruence.
  rewrite (moveCard_succeeds _ _ _ _ position _ _ _ _ Hcard Hold Hnew Hboard Hacc Htitle)
    in Hm.
  injection Hm as <- <-. simpl. split; [|split].
  - exists (pull id oldList). split.
    + by rewrite lookup_alter_ne, lookup_alter_eq, Hold.
    + simpl. rewrite list_elem_of_filter. tauto.
  - exists (pushCard id newList). split.
    + by rewrite lookup_alter_eq, lookup_alter_ne, Hnew.
    + simpl. unfold push. apply elem_of_app. right. left.
  - eexists. split; [apply lookup_insert_eq|]. repeat split.
    by intros ->.
Qed.

Lemma moveCard_transfers_card_witness :
  exists db' card',
    moveCard sampleDb "u2" "c1" "l2" None
    = (db', mkResponse 200 (CardJson (mkDoc "c1" card')))
    /\ (exists a, Lists db' !! "l1" = Some a /\ "c1" ∉ List.cards a)
    /\ (exists b, Lists db' !! "l2" = Some b /\ "c1" ∈ List.cards b)
    /\ Cards db' !! "c1" = Some card'
    /\ Card.list card' = "l2"
    /\ Card.position card' = 0.
Proof.
  destruct (moveCard sampleDb "u2" "c1" "l2" None) as [db' res] eqn:Hm.
  assert (Hres : res = mkResponse 200 (CardJson (mkDoc "c1"
            (Card.mk "Fix login" EmptyString "l2" 0 None Critical Todo "u1" []))))
    by (apply (f_equal snd) in Hm; vm_compute in Hm; congruence).
  destruct (moveCard_transfers_card sampleDb db' "u2" "c1" "l2" None
              (Card.mk "Fix login" EmptyString "l1" 0 None Critical Todo "u1" []) res)
    as (Ha & Hb & card' & Hc & Hr & Hl & _ & Hp).
  - vm_compute. reflexivity.
  - discriminate.
  - exact Hm.
  - rewrite Hres. reflexivity.
  - exists db', card'. rewrite Hr. repeat split; auto.
Defined.

(** ** Appending lists and cards *)

Lemma createList_succeeds (db : Db) (userId : string) (boardId : ObjectId)
    (c : ascii) (name : string) (newId : ObjectId) (board : Board.t) :
  Boards db !! boardId = Some board ->
  canAccess board userId = true ->
  Lists db !! newId = None ->
  let list :=
    List.mk (String c name) boardId
      (countDocuments (fun l => String.eqb (List.board l) boardId) (Lists db)) [] in
  createList db userId boardId (Some (String c name)) newId =
  (mkDb (Users db)
        (<[boardId := Board.mk (Board.name board) (Board.description board)
                        (Board.owner board) (Board.members board)
                        (push (Board.lists board) newId) (Board.isPublic board)]>
           (Boards db))
        (<[newId := list]> (Lists db))
        (Cards db),
   mkResponse 201 (ListJson (mkDoc newId list))).
Proof.
  intros Hb Hacc Hnew. unfold createList, findById, saveNew. rewrite Hb. simpl.
  unfold canAccess in Hacc. apply negb_true_iff in Hacc. rewrite Hacc. simpl.
  by rewrite Hnew.
Qed.

Lemma createCard_succeeds (db : Db) (userId : string) (boardId listId : ObjectId)
    (c : ascii) (title : string) (description : option string) (newId : ObjectId)
    (board : Board.t) (list : List.t) :
  Boards db !! boardId = Some board ->
  Lists db !! listId = Some list ->
  List.board list = boardId ->
  canAccess board userId = true ->
  Cards db !! newId = None ->
  let card :=
    Card.mk (String c title) (default EmptyString description) listId
      (countDocuments (fun c => String.eqb (Card.list c) listId) (Cards db))
      None Low Todo userId [] in
  createCard db userId boardId listId (Some (String c title)) description NoDate newId =
  (mkDb (Users db) (Boards db)
        (<[listId := List.mk (List.name list) (List.board list) (List.position list)
                       (push (List.cards list) newId)]> (Lists db))
        (<[newId := card]> (Cards db)),
   mkResponse 201 (PopulatedCardJson (mkDoc newId card) (findById (Users db) userId))).
Proof.
  intros Hb Hl Hlb Hacc Hnew. unfold createCard, findById, saveNew.
  rewrite Hb, Hl. simpl. rewrite Hlb, String.eqb_refl. simpl.
  unfold canAccess in Hacc. apply negb_true_iff in Hacc. rewrite Hacc. simpl.
  by rewrite Hnew.
Qed.

Lemma createList_201 (db db' : Db) (userId : string) (boardId : ObjectId)
    (name : option string) (newId : ObjectId) (l : Doc List.t) :
  createList db userId boardId name newId = (db', mkResponse 201 (ListJson l)) ->
  l = mkDoc newId
        (List.mk (default EmptyString name) boardId
           (countDocuments (fun l => String.eqb (List.board l) boardId) (Lists db)) [])
  /\ Lists db' = <[newId := fields l]> (Lists db).
Proof.
  unfold createList, findById, saveNew. intros H.
  destruct (Boards db !! boardId) as [board|]; simpl in H; [|by injection H].
  destruct (accessDenied _ _ _); simpl in H; [by injection H|].
  destruct name as [[|c name]|]; simpl in H; try by injection H.
  destruct (Lists db !! newId); simpl in H; [by injection H|].
  injection H as <- <-. done.
Qed.

Lemma createCard_201 (db db' : Db) (userId : string) (boardId listId : ObjectId)
    (title description : option string) (dueDate : DateInput) (newId : ObjectId)
    (card : Doc Card.t) (createdBy : option (Doc User.t)) :
  createCard db userId boardId listId title description dueDate newId
  = (db', mkResponse 201 (PopulatedCardJson card createdBy)) ->
  _id card = newId
  /\ Card.list (fields card) = listId
  /\ Card.position (fields card)
     = countDocuments (fun c => String.eqb (Card.list c) listId) (Cards db)
  /\ Cards db' = <[newId := fields card]> (Cards db).
Proof.
  unfold createCard, findById, saveNew. intros H.
  destruct (Boards db !! boardId) as [board|]; simpl in H; [|by injection H].
  destruct (Lists db !! listId) as [list|]; simpl in H; [|by injection H].
  destruct (negb _); simpl in H; [by injection H|].
  destruct (accessDenied _ _ _); simpl in H; [by injection H|].
  destruct title as [[|c title]|]; simpl in H; try by injection H.
  destruct dueDate; simpl in H; try (by injection H);
    (destruct (Cards db !! newId); simpl in H; [by injection H|]);
    injection H as <- <- <-; done.
Qed.

(** the documents that [countDocuments] counts are the stored ones that
    satisfy the filter *)
Lemma countDocuments_size {A} (p : A -> bool) (coll : gmap string A) :
  countDocuments p coll = Z.of_nat (size (filter (fun kv => p kv.2 = true) coll)).
Proof.
  unfold countDocuments. f_equal.
  rewrite map_filter_alt, <- length_map_to_list.
  symmetry. apply Permutation_length, map_to_list_to_map.
  eapply sublist_NoDup; [apply (NoDup_fst_map_to_list coll)|].
  apply fmap_sublist, sublist_filter.
Qed.

(** C6: the list that [createList] answers with has for position the number
    of lists stored with the same board just before, which is 0 for the
    first list of a board, and is stored under its new identifier; the card
    that [createCard] answers with has for position the number of cards
    stored with the same list just before, and is stored under its new
    identifier. Each holds of every successful call of its route. *)
Theorem append_position_is_sibling_count :
  (forall (db dbL : Db) (userId : string) (boardId : ObjectId) (name : option string)
          (newListId : ObjectId) (list : Doc List.t),
     createList db userId boardId name newListId
     = (dbL, mkResponse 201 (ListJson list)) ->
     List.board (fields list) = boardId
     /\ List.position (fields list)
        = Z.of_nat (size (filter (fun kv => List.board kv.2 = boardId) (Lists db)))
     /\ Lists dbL !! _id list = Some (fields list))
  /\ (forall (db dbC : Db) (userId : string) (boardId listId : ObjectId)
             (title description : option string) (dueDate : DateInput)
             (newCardId : ObjectId) (card : Doc Card.t)
             (createdBy : option (Doc User.t)),
        createCard db userId boardId listId title description dueDate newCardId
        = (dbC, mkResponse 201 (PopulatedCardJson card createdBy)) ->
        Card.list (fields card) = listId
        /\ Card.position (fields card)
           = Z.of_nat (size (filter (fun kv => Card.list kv.2 = listId) (Cards db)))
        /\ Cards dbC !! _id card = Some (fields card)).
Proof.
  split.
  - intros db dbL userId boardId name newListId list HL.
    apply createList_201 in HL as [-> ->]. simpl.
    split; [done|]. split; [|apply lookup_insert_eq].
    rewrite countDocuments_size. do 2 f_equal.
    apply map_filter_ext. intros i x _. simpl. apply String.eqb_eq.
  - intros db dbC userId boardId listId title description dueDate newCardId card
      createdBy HC.
    apply createCard_201 in HC as (Hid & Hl & Hp & ->).
    split; [done|]. split; [|rewrite Hid; apply lookup_insert_eq].
    rewrite Hp, countDocuments_size. do 2 f_equal.
    apply map_filter_ext. intros i x _. simpl. apply String.eqb_eq.
Qed.

Lemma append_position_is_sibling_count_witness :
  (exists dbL,
     createList ownedDb "u1" "b1" (Some "Backlog") "l1"
     = (dbL, mkResponse 201 (ListJson (mkDoc "l1" (List.mk "Backlog" "b1" 0 []))))
     /\ 0 = Z.of_nat (size (filter (fun kv => List.board kv.2 = "b1") (Lists ownedDb)))
     /\ Lists dbL !! "l1" = Some (List.mk "Backlog" "b1" 0 []))
  /\ (exists dbL,
        createList sampleDb "u2" "b1" (Some "Review") "l4"
        = (dbL, mkResponse 201 (ListJson (mkDoc "l4" (List.mk "Review" "b1" 3 []))))
        /\ 3 = Z.of_nat (size (filter (fun kv => List.board kv.2 = "b1")
                                 (Lists sampleDb))))
  /\ (exists dbC,
        createCard sampleDb "u2" "b1" "l1" (Some "Plan demo") None NoDate "c6"
        = (dbC, mkResponse 201
                  (PopulatedCardJson
                     (mkDoc "c6" (Card.mk "Plan demo" EmptyString "l1" 2 None Low Todo
                                          "u2" []))
                     (Some (mkDoc "u2" (User.mk "Bob" "bob@example.org" "h2")))))
        /\ 2 = Z.of_nat (size (filter (fun kv => Card.list kv.2 = "l1")
                                 (Cards sampleDb)))).
Proof.
  destruct append_position_is_sibling_count as [Hlist Hcard].
  split; [|split].
  - destruct (createList ownedDb "u1" "b1" (Some "Backlog") "l1") as [dbL resL] eqn:HL.
    assert (HresL : resL = mkResponse 201
                      (ListJson (mkDoc "l1" (List.mk "Backlog" "b1" 0 []))))
      by (apply (f_equal snd) in HL; vm_compute in HL; congruence).
    subst resL. destruct (Hlist _ _ _ _ _ _ _ HL) as (_ & Hp & Hs).
    exists dbL. repeat split; assumption.
  - destruct (createList sampleDb "u2" "b1" (Some "Review") "l4") as [dbL resL] eqn:HL.
    assert (HresL : resL = mkResponse 201
                      (ListJson (mkDoc "l4" (List.mk "Review" "b1" 3 []))))
      by (apply (f_equal snd) in HL; vm_compute in HL; congruence).
    subst resL. destruct (Hlist _ _ _ _ _ _ _ HL) as (_ & Hp & _).
    exists dbL. split; [reflexivity|exact Hp].
  - destruct (createCard sampleDb "u2" "b1" "l1" (Some "Plan demo") None NoDate "c6")
      as [dbC resC] eqn:HC.
    assert (HresC : resC = mkResponse 201
                 (PopulatedCardJson
                    (mkDoc "c6" (Card.mk "Plan demo" EmptyString "l1" 2 None Low Todo
                                         "u2" []))
                    (Some (mkDoc "u2" (User.mk "Bob" "bob@example.org" "h2")))))
      by (apply (f_equal snd) in HC; vm_compute in HC; congruence).
    subst resC. destruct (Hcard _ _ _ _ _ _ _ _ _ _ _ HC) as (_ & Hp & _).
    exists dbC. split; [reflexivity|exact Hp].
Defined.

(** ** Invitations *)

Lemma invite_unchanged_unless_200 (db db' : Db) (userId : string) (id : ObjectId)
    (email : string) (res : Response) :
  invite db userId id email = (db', res) -> code res <> 200 -> db' = db.
Proof.
  unfold invite. intros H Hcode.
  destruct (findById (Boards db) id) as [board|]; [|by injection H].
  destruct (negb _); [by injection H|].
  destruct (findOne _ _) as [u|]; [|by injection H].
  destruct (some _ _); [by injection H|].
  injection H as <- <-. done.
Qed.

(** C7: when the owner of a board invites, by its address, a user whose
    identifier is already among the members of the board, the answer is the
    conflict of this route (status 400, "User already in board") and the
    database, so the members of the board and every user, is as before. *)
Theorem invite_existing_member_is_conflict
    (db : Db) (userId : string) (id : ObjectId) (email : string)
    (board : Board.t) (user : Doc User.t) :
  Boards db !! id = Some board ->
  Board.owner board = userId ->
  findOne (fun u => String.eqb (User.email u) email) (Users db) = Some user ->
  _id user ∈ Board.members board ->
  invite db userId id email = (db, mkResponse 400 (Message "User already in board")).
Proof.
  intros Hb Hown Huser Hmem. unfold invite, findById. rewrite Hb. simpl.
  rewrite Hown, String.eqb_refl. simpl. rewrite Huser.
  assert (some (String.eqb (_id user)) (Board.members board) = true) as ->; [|done].
  apply some_true. exists (_id user). split; [done|apply String.eqb_refl].
Qed.

Lemma invite_existing_member_is_conflict_witness :
  Boards sampleDb !! "b1" = Some sampleBoard
  /\ Board.owner sampleBoard = "u1"
  /\ "u2" ∈ Board.members sampleBoard
  /\ invite sampleDb "u1" "b1" "bob@example.org"
     = (sampleDb, mkResponse 400 (Message "User already in board")).
Proof.
  split; [vm_compute; reflexivity|]. split; [reflexivity|].
  split; [right; left|].
  apply (invite_existing_member_is_conflict sampleDb "u1" "b1" "bob@example.org"
           sampleBoard (mkDoc "u2" (User.mk "Bob" "bob@example.org" "h2"))).
  - vm_compute. reflexivity.
  - reflexivity.
  - vm_compute. reflexivity.
  - right. left.
Defined.

(** ** The owner and the access check *)

Lemma canAccess_owner (board : Board.t) : canAccess board (Board.owner board) = true.
Proof. unfold canAccess, accessDenied. by rewrite String.eqb_refl. Qed.

Lemma canAccess_iff (board : Board.t) (userId : string) :
  canAccess board userId = true <->
  Board.owner board = userId \/ userId ∈ Board.members board.
Proof.
  unfold canAccess, accessDenied.
  rewrite negb_true_iff, andb_false_iff, !negb_false_iff, String.eqb_eq, some_true.
  split; (intros [H|H]; [by left|right]).
  - destruct H as (m & Hm & He). apply String.eqb_eq in He. by subst.
  - exists userId. split; [done|apply String.eqb_refl].
Qed.

Lemma owner_createList (db : Db) (boardId : ObjectId) (name : option string)
    (newId : ObjectId) (board : Board.t) :
  Boards db !! boardId = Some board ->
  code (createList db (Board.owner board) boardId name newId).2 <> 403.
Proof.
  intros Hb. unfold createList, findById, saveNew. rewrite Hb. simpl.
  pose proof (canAccess_owner board) as Hacc. unfold canAccess in Hacc.
  apply negb_true_iff in Hacc. rewrite Hacc.
  destruct name as [[|c name]|]; simpl; try done.
  by destruct (Lists db !! newId).
Qed.

Lemma owner_createCard (db : Db) (boardId listId : ObjectId)
    (title description : option string) (dueDate : DateInput) (newId : ObjectId)
    (board : Board.t) :
  Boards db !! boardId = Some board ->
  code (createCard db (Board.owner board) boardId listId title description dueDate
          newId).2 <> 403.
Proof.
  intros Hb. unfold createCard, findById, saveNew. rewrite Hb. simpl.
  destruct (Lists db !! listId) as [list|]; simpl; [|done].
  destruct (negb _); simpl; [done|].
  pose proof (canAccess_owner board) as Hacc. unfold canAccess in Hacc.
  apply negb_true_iff in Hacc. rewrite Hacc.
  destruct title as [[|c title]|]; simpl; try done.
  destruct dueDate; simpl; try done; by destruct (Cards db !! newId).
Qed.

Lemma owner_moveCard (db : Db) (id newListId : ObjectId) (position : option Z)
    (newList : List.t) (board : Board.t) :
  Lists db !! newListId = Some newList ->
  Boards db !! List.board newList = Some board ->
  code (moveCard db (Board.owner board) id newListId position).2 <> 403.
Proof.
  intros Hnew Hb. unfold moveCard, findById.
  destruct (Cards db !! id) as [card|]; simpl; [|done].
  rewrite Hnew. simpl. rewrite Hb. simpl.
  destruct (Lists db !! Card.list card); simpl; [|done].
  pose proof (canAccess_owner board) as Hacc. unfold canAccess in Hacc.
  apply negb_true_iff in Hacc. rewrite Hacc.
  unfold validateCard. simpl. by destruct (Card.title card).
Qed.

Lemma owner_getRecommendations (db : Db) (id : ObjectId) (now : Z) (board : Board.t) :
  Boards db !! id = Some board ->
  code (getRecommendations db (Board.owner board) id now) = 200.
Proof.
  intros Hb. by rewrite (getRecommendations_ok _ _ _ _ _ Hb (canAccess_owner board)).
Qed.

(** what [GET /:id] decides on: with the owner populated, the comparison of
    [board.owner.toString()] with an identifier fails, and the access is
    the membership alone *)
Lemma getBoard_access_is_membership (db : Db) (userId : string) (id : ObjectId)
    (board : Board.t) (owner : User.t) :
  Boards db !! id = Some board ->
  Users db !! Board.owner board = Some owner ->
  String.prefix "{" userId = false ->
  code (getBoard db userId id)
  = if some (fun m => String.eqb (_id m) userId)
            (populateUsers db (Board.members board))
    then 200 else 403.
Proof.
  intros Hb Ho Hid. unfold getBoard, findById. rewrite Hb. simpl. rewrite Ho. simpl.
  assert ((String "{" (" _id: " +:+ Board.owner board +:+ ", name: '"
             +:+ User.name owner +:+ "', email: '" +:+ User.email owner +:+ "' }")
           =? userId)%string = false) as Hne.
  { apply String.eqb_neq. intros <-. simpl in Hid.
    destruct (ascii_dec "{" "{"); [discriminate|done]. }
  unfold inspectUser. simpl. simpl in Hne. rewrite Hne. simpl.
  by destruct (some _ _).
Qed.

(** C8 at [GET /:id]: the owner of a board is denied when the members do
    not repeat the owner. *)
Lemma getBoard_denies_owner :
  Boards ownedDb !! "b1" = Some ownedBoard
  /\ Board.owner ownedBoard = "u1"
  /\ canAccess ownedBoard "u1" = true
  /\ getBoard ownedDb "u1" "b1" = mkResponse 403 (Message "Access denied")
  /\ code (getBoard ownedDb "u2" "b1") = 200.
Proof. repeat split; vm_compute; reflexivity. Qed.

(** ** Requests that name a missing document *)

(** C9, as stated, fails: for a board that is not stored [createList] and
    [getRecommendations] answer 403, and for a destination list that is not
    stored [moveCard] answers 500. *)
Lemma missing_reference_is_not_always_not_found :
  Boards sampleDb !! "b9" = None
  /\ Lists sampleDb !! "l9" = None
  /\ createList sampleDb "u1" "b9" (Some "Later") "l4"
     = (sampleDb, mkResponse 403 (Message "Access denied"))
  /\ getRecommendations sampleDb "u1" "b9" sampleNow
     = mkResponse 403 (Message "Access denied")
  /\ moveCard sampleDb "u1" "c1" "l9" None
     = (sampleDb, mkResponse 500 (Message "Server error")).
Proof.
  repeat split; vm_compute; reflexivity.
Qed.

(** C9, amended: a request that names a document that is not stored leaves
    the database as it is and is answered 404 by [getBoard], [invite] (board,
    or user of the address), [createCard] (board, list, or list of another
    board) and [moveCard] (card, or for a stored destination list the card's
    own list or the destination's board), and 403 by [createList] and
    [getRecommendations] for a missing board. *)
Theorem dangling_request_response (db : Db) (userId : string) (req : Request) :
  Dangling db userId req ->
  (route db userId req).1 = db
  /\ code (route db userId req).2 = danglingCode req.
Proof.
  intros Hd. destruct Hd; simpl.
  - unfold getBoard, findById. by rewrite H.
  - unfold invite, findById. by rewrite H.
  - unfold invite, findById. rewrite H. simpl. rewrite H0, String.eqb_refl. simpl.
    by rewrite H1.
  - unfold createList, findById. by rewrite H.
  - unfold createCard, findById. by rewrite H.
  - unfold createCard, findById. rewrite H. by destruct (Boards db !! boardId).
  - unfold createCard, findById. rewrite H.
    destruct (Boards db !! boardId); simpl; [|done].
    apply String.eqb_neq in H0. by rewrite H0.
  - unfold moveCard, findById. by rewrite H.
  - unfold moveCard, findById. rewrite H. simpl. rewrite H0, H1. simpl.
    by destruct (Boards db !! List.board newList).
  - unfold moveCard, findById. rewrite H. simpl. rewrite H0. simpl. rewrite H1.
    by destruct (Lists db !! Card.list card).
  - unfold getRecommendations, findById. by rewrite H.
Qed.

Lemma dangling_request_response_witness :
  Dangling sampleDb "u1" (CreateCard "b1" "l9" (Some "Plan demo") None NoDate "c6")
  /\ (route sampleDb "u1" (CreateCard "b1" "l9" (Some "Plan demo") None NoDate "c6")).1
     = sampleDb
  /\ code (route sampleDb "u1"
             (CreateCard "b1" "l9" (Some "Plan demo") None NoDate "c6")).2 = 404.
Proof.
  assert (Hd : Dangling sampleDb "u1"
                 (CreateCard "b1" "l9" (Some "Plan demo") None NoDate "c6")).
  { apply dangling_createCard_list. vm_compute. reflexivity. }
  split; [exact Hd|].
  exact (dangling_request_response sampleDb "u1" _ Hd).
Defined.

(** * Further properties of the routes *)

(** ** Days until the due date *)

Lemma daysUntilDue_le (dueDate now k : Z) :
  daysUntilDue dueDate now <= k <-> dueDate - now <= k * msPerDay.
Proof.
  unfold daysUntilDue.
  assert (0 < msPerDay) as Hpos by (unfold msPerDay; lia).
  pose proof (ceilDiv_spec (dueDate - now) msPerDay Hpos). nia.
Qed.

Lemma daysUntilDue_lt_0 (dueDate now : Z) :
  (daysUntilDue dueDate now <? 0) = true <-> msPerDay <= now - dueDate.
Proof. rewrite Z.ltb_lt. apply daysUntilDue_negative. Qed.

Lemma daysUntilDue_ge_0 (dueDate now : Z) :
  (daysUntilDue dueDate now <? 0) = false <-> now - dueDate < msPerDay.
Proof. rewrite Z.ltb_ge. pose proof (daysUntilDue_negative dueDate now). lia. Qed.

Lemma daysUntilDue_leb (dueDate now k : Z) :
  (daysUntilDue dueDate now <=? k) = true <-> dueDate - now <= k * msPerDay.
Proof. rewrite Z.leb_le. apply daysUntilDue_le. Qed.

Lemma daysUntilDue_gtb (dueDate now k : Z) :
  (daysUntilDue dueDate now <=? k) = false <-> k * msPerDay < dueDate - now.
Proof. rewrite Z.leb_gt. pose proof (daysUntilDue_le dueDate now k). lia. Qed.

(** ** The advisories of an answer, card by card *)

Lemma concatenated_elem_iff (board : PBoard.t) (now : Z) (a : Advisory) :
  a ∈ concatenated board now <->
  exists card, card ∈ allCards board
    /\ (a ∈ alertsFor board card \/ a ∈ priorityRules board card
        \/ a ∈ dueDateRules now card \/ a ∈ statusRules now card).
Proof.
  unfold concatenated. rewrite !elem_of_app, !list_elem_of_In, !in_flat_map.
  setoid_rewrite list_elem_of_In. split.
  - intros [H|[H|[H|H]]]; destruct H as (c & Hc & Ha); exists c; tauto.
  - intros (c & Hc & [H|[H|[H|H]]]); [left|right; left|do 2 right; left|do 3 right];
      by exists c.
Qed.

Lemma answer_elem (db : Db) (userId : string) (id : ObjectId) (now : Z) (b : Board.t) :
  Boards db !! id = Some b ->
  canAccess b userId = true ->
  exists out,
    getRecommendations db userId id now = mkResponse 200 (RecommendationsJson out)
    /\ out ≡ₚ concatenated (populateBoard db (mkDoc id b)) now
    /\ forall a, a ∈ out <->
         exists card, card ∈ allCards (populateBoard db (mkDoc id b))
           /\ (a ∈ alertsFor (populateBoard db (mkDoc id b)) card
               \/ a ∈ priorityRules (populateBoard db (mkDoc id b)) card
               \/ a ∈ dueDateRules now card \/ a ∈ statusRules now card).
Proof.
  intros Hb Hacc. eexists. split; [by apply getRecommendations_ok|].
  split; [apply sort_Permutation|].
  intros a. by rewrite sort_elem, concatenated_elem_iff.
Qed.

(** ** What the advisories say *)

Ltac bool_hyps :=
  repeat match goal with
  | H : negb _ = true |- _ => apply negb_true_iff in H
  | H : negb _ = false |- _ => apply negb_false_iff in H
  | H : _ && _ = true |- _ => apply andb_true_iff in H as [? ?]
  | H : _ || _ = true |- _ => apply orb_true_iff in H as [?|?]
  | H : bool_decide _ = true |- _ => apply bool_decide_eq_true in H
  | H : bool_decide _ = false |- _ => apply bool_decide_eq_false in H
  | H : (daysUntilDue _ _ <? 0) = true |- _ => apply daysUntilDue_lt_0 in H
  | H : (daysUntilDue _ _ <? 0) = false |- _ => apply daysUntilDue_ge_0 in H
  | H : (daysUntilDue _ _ <=? _) = true |- _ => apply daysUntilDue_leb in H
  | H : (daysUntilDue _ _ <=? _) = false |- _ => apply daysUntilDue_gtb in H
  end.

Ltac by_priority_and_status card :=
  let pr := fresh "pr" in
  let st := fresh "st" in
  destruct card as [? [? ? ? ? ? pr st ? ?]]; destruct pr, st; simpl;
  repeat case_match; simpl;
  repeat (apply Forall_cons; split_and?); try apply Forall_nil; try reflexivity;
  simpl; intros; bool_hyps; try congruence; auto.

Ltac reports_cases card :=
  by_priority_and_status card;
  try (eexists; repeat split; eauto; first [lia | congruence]).

Lemma dueDateRules_reports (now : Z) (card : Doc Card.t) :
  reports now card (dueDateRules now card).
Proof. unfold reports, dueDateRules. reports_cases card. Qed.

Lemma statusRules_reports (now : Z) (card : Doc Card.t) :
  reports now card (statusRules now card).
Proof. unfold reports, statusRules. reports_cases card. Qed.

Lemma priorityRules_reports (board : PBoard.t) (now : Z) (card : Doc Card.t) :
  reports now card (priorityRules board card).
Proof. unfold reports, priorityRules. reports_cases card. Qed.

Lemma alertsFor_reports (board : PBoard.t) (now : Z) (card : Doc Card.t) :
  reports now card (alertsFor board card).
Proof.
  unfold reports, alertsFor, alertRules.
  case_decide; [|constructor].
  destruct (currentList board card); [|constructor].
  destruct (negb _); [|constructor].
  destruct (find _ _); repeat constructor. done.
Qed.

Lemma concatenated_reports (board : PBoard.t) (now : Z) (a : Advisory) :
  a ∈ concatenated board now ->
  exists card,
    card ∈ allCards board
    /\ cardId a = _id card
    /\ cardTitle a = Card.title (fields card)
    /\ justified now (fields card) (type a).
Proof.
  intros Ha. apply concatenated_elem_iff in Ha as (card & Hcard & Ha).
  exists card. split; [done|].
  pose proof (alertsFor_reports board now card) as H1.
  pose proof (priorityRules_reports board now card) as H2.
  pose proof (dueDateRules_reports now card) as H3.
  pose proof (statusRules_reports now card) as H4.
  unfold reports in *. rewrite Forall_forall in H1, H2, H3, H4.
  destruct Ha as [Ha|[Ha|[Ha|Ha]]]; eauto.
Qed.

(** X1: every advisory of an answer carries the identifier and the title of
    a card of the board, and its type is justified by the state of that
    card at the evaluation time (priority, status, and the window in which
    the due date lies). *)
Theorem advisories_report_card_state
    (db : Db) (userId : string) (id : ObjectId) (now : Z) (b : Board.t) :
  Boards db !! id = Some b ->
  canAccess b userId = true ->
  exists out,
    getRecommendations db userId id now = mkResponse 200 (RecommendationsJson out)
    /\ forall a, a ∈ out ->
         exists card,
           card ∈ allCards (populateBoard db (mkDoc id b))
           /\ cardId a = _id card
           /\ cardTitle a = Card.title (fields card)
           /\ justified now (fields card) (type a).
Proof.
  intros Hb Hacc. eexists. split; [by apply getRecommendations_ok|].
  intros a Ha. rewrite sort_elem in Ha. by apply concatenated_reports.
Qed.

Lemma advisories_report_card_state_witness :
  exists out,
    getRecommendations sampleDb "u1" "b1" sampleNow
    = mkResponse 200 (RecommendationsJson out)
    /\ forall a, a ∈ out ->
         exists card,
           card ∈ allCards samplePBoard
           /\ cardId a = _id card
           /\ cardTitle a = Card.title (fields card)
           /\ justified sampleNow (fields card) (type a).
Proof.
  apply (advisories_report_card_state sampleDb "u1" "b1" sampleNow sampleBoard);
    vm_compute; reflexivity.
Defined.

Lemma overdue_emitted (now : Z) (card : Doc Card.t) (due : Z) :
  Card.dueDate (fields card) = Some due ->
  msPerDay <= now - due ->
  Card.status (fields card) <> Done ->
  exists a, a ∈ dueDateRules now card /\ cardId a = _id card /\ type a = overdue
            /\ severity a = (if decide (Card.priority (fields card) = Critical)
                             then high else medium).
Proof.
  intros Hdue Hlate Hst. unfold dueDateRules. rewrite Hdue.
  apply daysUntilDue_lt_0 in Hlate. rewrite Hlate.
  rewrite bool_decide_eq_false_2 by done. simpl.
  eexists. split; [left|]. done.
Qed.

(** X2: the answer has an [overdue] advisory about a card exactly when the
    board has that card with a due date that lies a full day or more before
    the evaluation time and a status other than Done; a card whose due date
    passed less than a day ago is not overdue. *)
Theorem overdue_iff_a_day_late
    (db : Db) (userId : string) (id : ObjectId) (now : Z) (b : Board.t) :
  Boards db !! id = Some b ->
  canAccess b userId = true ->
  exists out,
    getRecommendations db userId id now = mkResponse 200 (RecommendationsJson out)
    /\ forall cid,
         (exists a, a ∈ out /\ cardId a = cid /\ type a = overdue)
         <-> (exists card due,
                card ∈ allCards (populateBoard db (mkDoc id b))
                /\ _id card = cid
                /\ Card.dueDate (fields card) = Some due
                /\ msPerDay <= now - due
                /\ Card.status (fields card) <> Done).
Proof.
  intros Hb Hacc.
  destruct (answer_elem db userId id now b Hb Hacc) as (out & Hout & Hperm & Hel).
  exists out. split; [done|]. intros cid. split.
  - intros (a & Ha & Hcid & Ht). rewrite Hperm in Ha.
    destruct (concatenated_reports _ _ _ Ha) as (card & Hcard & Hid & _ & Hj).
    rewrite Ht in Hj. destruct Hj as (due & Hdue & Hlate & Hst).
    exists card, due. repeat split; try done. congruence.
  - intros (card & due & Hcard & Hid & Hdue & Hlate & Hst).
    destruct (overdue_emitted now card due Hdue Hlate Hst) as (a & Ha & Hcid & Ht & _).
    exists a. split; [|split; [congruence|done]].
    apply Hel. exists card. split; [done|]. auto.
Qed.

Lemma overdue_iff_a_day_late_witness :
  exists out,
    getRecommendations sampleDb "u1" "b1" sampleNow
    = mkResponse 200 (RecommendationsJson out)
    /\ ((exists a, a ∈ out /\ cardId a = "c3" /\ type a = overdue)
        <-> (exists card due,
               card ∈ allCards samplePBoard
               /\ _id card = "c3"
               /\ Card.dueDate (fields card) = Some due
               /\ msPerDay <= sampleNow - due
               /\ Card.status (fields card) <> Done)).
Proof.
  destruct (overdue_iff_a_day_late sampleDb "u1" "b1" sampleNow sampleBoard)
    as (out & Hout & Hiff); [vm_compute; reflexivity..|].
  exists out. split; [exact Hout|]. exact (Hiff "c3").
Defined.

Lemma dueDateRules_urgent (now : Z) (card : Doc Card.t) :
  Forall (fun a => severity a = high -> urgent now (fields card)) (dueDateRules now card).
Proof. unfold dueDateRules, urgent. by_priority_and_status card. Qed.

Lemma statusRules_urgent (now : Z) (card : Doc Card.t) :
  Forall (fun a => severity a = high -> urgent now (fields card)) (statusRules now card).
Proof.
  unfold statusRules, urgent. by_priority_and_status card.
  all: right; split; [done|]; eexists; split; [done|lia].
Qed.

Lemma priorityRules_urgent (board : PBoard.t) (now : Z) (card : Doc Card.t) :
  Forall (fun a => severity a = high -> urgent now (fields card))
         (priorityRules board card).
Proof. unfold priorityRules, urgent. by_priority_and_status card. Qed.

Lemma alertsFor_urgent (board : PBoard.t) (now : Z) (card : Doc Card.t) :
  Forall (fun a => severity a = high -> urgent now (fields card)) (alertsFor board card).
Proof.
  unfold alertsFor, alertRules.
  case_decide; [|constructor].
  destruct (currentList board card); [|constructor].
  destruct (negb _); [|constructor].
  destruct (find _ _); repeat constructor. simpl. discriminate.
Qed.

(** X3: an advisory of severity high is always about a card with priority
    Critical, or about a card that is in progress and a full day or more
    past its due date; no other card is rated high. *)
Theorem high_severity_is_urgent
    (db : Db) (userId : string) (id : ObjectId) (now : Z) (b : Board.t) :
  Boards db !! id = Some b ->
  canAccess b userId = true ->
  exists out,
    getRecommendations db userId id now = mkResponse 200 (RecommendationsJson out)
    /\ forall a, a ∈ out -> severity a = high ->
         exists card,
           card ∈ allCards (populateBoard db (mkDoc id b))
           /\ cardId a = _id card
           /\ urgent now (fields card).
Proof.
  intros Hb Hacc. destruct (answer_elem db userId id now b Hb Hacc) as (out & Hout & _ & Hel).
  exists out. split; [done|]. intros a Ha Hhigh.
  apply Hel in Ha as (card & Hcard & Ha). exists card. split; [done|].
  pose proof (alertsFor_emits (populateBoard db (mkDoc id b)) card) as E1.
  pose proof (priorityRules_emits (populateBoard db (mkDoc id b)) card) as E2.
  pose proof (dueDateRules_emits now card) as E3.
  pose proof (statusRules_emits now card) as E4.
  pose proof (alertsFor_urgent (populateBoard db (mkDoc id b)) now card) as H1.
  pose proof (priorityRules_urgent (populateBoard db (mkDoc id b)) now card) as H2.
  pose proof (dueDateRules_urgent now card) as H3.
  pose proof (statusRules_urgent now card) as H4.
  unfold emits in *. rewrite Forall_forall in E1, E2, E3, E4, H1, H2, H3, H4.
  destruct Ha as [Ha|[Ha|[Ha|Ha]]]; split; first [by eapply E1 | by eapply E2
    | by eapply E3 | by eapply E4 | by eapply H1 | by eapply H2 | by eapply H3
    | by eapply H4].
Qed.

Lemma high_severity_is_urgent_witness :
  exists out,
    getRecommendations sampleDb "u2" "b1" sampleNow
    = mkResponse 200 (RecommendationsJson out)
    /\ forall a, a ∈ out -> severity a = high ->
         exists card,
           card ∈ allCards samplePBoard /\ cardId a = _id card
           /\ urgent sampleNow (fields card).
Proof.
  apply (high_severity_is_urgent sampleDb "u2" "b1" sampleNow sampleBoard);
    vm_compute; reflexivity.
Defined.

(** ** How many advisories *)

Lemma alertsFor_length (board : PBoard.t) (card : Doc Card.t) :
  (length (alertsFor board card)
   <= if decide (Card.status (fields card) = Done) then 1 else 0)%nat.
Proof.
  unfold alertsFor, alertRules. case_decide; [|done].
  destruct (currentList board card); [|simpl; lia].
  destruct (negb _); [|simpl; lia].
  destruct (find _ _); simpl; lia.
Qed.

Lemma statusRules_length (now : Z) (card : Doc Card.t) :
  (length (statusRules now card)
   <= if decide (Card.status (fields card) = Done) then 0 else 1)%nat.
Proof.
  unfold statusRules.
  destruct (Card.status (fields card)); simpl; repeat case_match; simpl; lia.
Qed.

Lemma priorityRules_length (board : PBoard.t) (card : Doc Card.t) :
  (length (priorityRules board card) <= 1)%nat.
Proof.
  unfold priorityRules.
  destruct (Card.priority (fields card)); simpl; repeat case_match; simpl; lia.
Qed.

Lemma per_card_at_most_three (board : PBoard.t) (now : Z) (card : Doc Card.t) :
  (length (alertsFor board card) + length (priorityRules board card)
   + length (dueDateRules now card) + length (statusRules now card) <= 3)%nat.
Proof.
  pose proof (alertsFor_length board card).
  pose proof (statusRules_length now card).
  pose proof (priorityRules_length board card).
  pose proof (dueDateRules_at_most_one now card).
  case_decide; lia.
Qed.

Lemma concatenated_length (board : PBoard.t) (now : Z) :
  (length (concatenated board now) <= 3 * length (allCards board))%nat.
Proof.
  unfold concatenated. rewrite !length_app.
  induction (allCards board) as [|c cards IH]; simpl; [lia|].
  rewrite !length_app. pose proof (per_card_at_most_three board now c). lia.
Qed.

(** X4: the answer has at most three advisories for each card that the
    board's lists hold: the priority rules, the due-date rules and the
    status rules give at most one each, and the alert rule fires only for a
    Done card, for which no status rule does. *)
Theorem at_most_three_advisories_per_card
    (db : Db) (userId : string) (id : ObjectId) (now : Z) (b : Board.t) :
  Boards db !! id = Some b ->
  canAccess b userId = true ->
  exists out,
    getRecommendations db userId id now = mkResponse 200 (RecommendationsJson out)
    /\ (length out <= 3 * length (allCards (populateBoard db (mkDoc id b))))%nat.
Proof.
  intros Hb Hacc. eexists. split; [by apply getRecommendations_ok|].
  rewrite (Permutation_length (sort_Permutation _)). apply concatenated_length.
Qed.

Lemma at_most_three_advisories_per_card_witness :
  exists out,
    getRecommendations sampleDb "u1" "b1" sampleNow
    = mkResponse 200 (RecommendationsJson out)
    /\ (length out <= 3 * length (allCards samplePBoard))%nat.
Proof.
  apply (at_most_three_advisories_per_card sampleDb "u1" "b1" sampleNow sampleBoard);
    vm_compute; reflexivity.
Defined.

Lemma populateLists_no_cards (db : Db) (ids : list ObjectId) :
  (forall lid l, lid ∈ ids -> Lists db !! lid = Some l -> List.cards l = []) ->
  concat (PList.cards <$> populateLists db ids) = [].
Proof.
  induction ids as [|lid ids IH]; intros Hempty; [done|].
  unfold populateLists in *. simpl. unfold findById at 1.
  destruct (Lists db !! lid) as [l|] eqn:Hl; simpl.
  - rewrite (Hempty lid l) by (done || left). simpl.
    apply IH. intros lid' l' Hin. apply Hempty. by right.
  - apply IH. intros lid' l' Hin. apply Hempty. by right.
Qed.

(** X5: for a board whose lists hold no card, in particular for a board
    with no list, the answer is the empty sequence with status 200. *)
Theorem no_cards_no_advisories
    (db : Db) (userId : string) (id : ObjectId) (now : Z) (b : Board.t) :
  Boards db !! id = Some b ->
  canAccess b userId = true ->
  (forall lid l, lid ∈ Board.lists b -> Lists db !! lid = Some l -> List.cards l = []) ->
  getRecommendations db userId id now = mkResponse 200 (RecommendationsJson []).
Proof.
  intros Hb Hacc Hempty. rewrite (getRecommendations_ok _ _ _ _ _ Hb Hacc).
  unfold concatenated, allCards. simpl.
  by rewrite (populateLists_no_cards _ _ Hempty).
Qed.

Lemma no_cards_no_advisories_witness :
  Board.lists ownedBoard = []
  /\ getRecommendations ownedDb "u2" "b1" sampleNow
     = mkResponse 200 (RecommendationsJson []).
Proof.
  split; [reflexivity|].
  apply (no_cards_no_advisories ownedDb "u2" "b1" sampleNow ownedBoard).
  - vm_compute. reflexivity.
  - vm_compute. reflexivity.
  - intros lid l Hin. by apply elem_of_nil in Hin.
Defined.

(** X6: the groups are not merged: a card that is in progress and a full
    day or more past its due date is reported twice, by the due-date rules
    as [overdue] and by the status rules as [in_progress_overdue] with
    severity high. *)
Theorem in_progress_overdue_reported_twice
    (db : Db) (userId : string) (id : ObjectId) (now : Z) (b : Board.t)
    (card : Doc Card.t) (due : Z) :
  Boards db !! id = Some b ->
  canAccess b userId = true ->
  card ∈ allCards (populateBoard db (mkDoc id b)) ->
  Card.status (fields card) = InProgress ->
  Card.dueDate (fields card) = Some due ->
  msPerDay <= now - due ->
  exists out a1 a2,
    getRecommendations db userId id now = mkResponse 200 (RecommendationsJson out)
    /\ a1 ∈ out /\ cardId a1 = _id card /\ type a1 = overdue
    /\ a2 ∈ out /\ cardId a2 = _id card /\ type a2 = in_progress_overdue
    /\ severity a2 = high.
Proof.
  intros Hb Hacc Hcard Hst Hdue Hlate.
  destruct (answer_elem db userId id now b Hb Hacc) as (out & Hout & _ & Hel).
  destruct (overdue_emitted now card due Hdue Hlate) as (a1 & Ha1 & Hid1 & Ht1 & _);
    [rewrite Hst; discriminate|].
  exists out, a1,
    (mkAdvisory (_id card) (Card.title (fields card)) in_progress_overdue
       "Task is in progress but past due date" high "Complete immediately or escalate").
  split; [done|]. split; [apply Hel; exists card; auto|].
  split; [done|]. split; [done|]. split; [|done].
  apply Hel. exists card. split; [done|]. do 3 right.
  unfold statusRules. rewrite Hst, Hdue. apply daysUntilDue_lt_0 in Hlate.
  rewrite Hlate. simpl. left.
Qed.

Lemma in_progress_overdue_reported_twice_witness :
  exists out a1 a2,
    getRecommendations
      (mkDb (Users sampleDb) (Boards sampleDb) (Lists sampleDb)
            (<["c3" := Card.mk "Ship build" EmptyString "l2" 0 (Some (day 19999))
                         Medium InProgress "u2" []]> (Cards sampleDb)))
      "u1" "b1" sampleNow
    = mkResponse 200 (RecommendationsJson out)
    /\ a1 ∈ out /\ cardId a1 = "c3" /\ type a1 = overdue
    /\ a2 ∈ out /\ cardId a2 = "c3" /\ type a2 = in_progress_overdue
    /\ severity a2 = high.
Proof.
  apply (in_progress_overdue_reported_twice _ "u1" "b1" sampleNow sampleBoard
           (mkDoc "c3" (Card.mk "Ship build" EmptyString "l2" 0 (Some (day 19999))
                          Medium InProgress "u2" []))
           (day 19999)).
  - vm_compute. reflexivity.
  - vm_compute. reflexivity.
  - vm_compute. do 2 right. left.
  - reflexivity.
  - reflexivity.
  - unfold sampleNow, day, msPerDay. lia.
Defined.

(** ** Answers that are not a success *)










(** ** Who may write *)

(** X8: when the documents that lead a call to its access check are stored
    and the user is neither the owner nor a member of the board that the
    check reads, the answer is 403 and nothing is written. This holds for
    [createList], [createCard], [moveCard], [patchCard] and
    [getRecommendations]; the board read by [moveCard] is the one of the
    destination list. *)
Theorem denied_user_gets_403 (db : Db) (userId : string) (call : Call)
    (boardId : ObjectId) (board : Board.t) :
  guardedBoard db call = Some boardId ->
  Boards db !! boardId = Some board ->
  canAccess board userId = false ->
  serve db userId call = (db, 403).
Proof.
  intros Hg Hb Hacc. unfold canAccess in Hacc. apply negb_false_iff in Hacc.
  destruct call as [[]| |]; simpl in Hg; try done.
  - injection Hg as ->. simpl. unfold createList, findById. rewrite Hb. simpl.
    rewrite Hacc. reflexivity.
  - destruct (Lists db !! listId) as [l|] eqn:Hl; simpl in Hg; [|done].
    destruct (String.eqb (List.board l) boardId0) eqn:He; [|done].
    injection Hg as ->. simpl. unfold createCard, findById. rewrite Hb, Hl. simpl.
    rewrite He, Hacc. reflexivity.
  - destruct (Cards db !! id) as [c|] eqn:Hc; simpl in Hg; [|done].
    destruct (Lists db !! Card.list c) as [ol|] eqn:Hol; simpl in Hg; [|done].
    destruct (Lists db !! newListId) as [nl|] eqn:Hnl; simpl in Hg; [|done].
    injection Hg as <-. simpl. unfold moveCard, findById. rewrite Hc. simpl.
    rewrite Hnl, Hol. simpl. rewrite Hb. simpl. rewrite Hacc. reflexivity.
  - injection Hg as ->. simpl. unfold getRecommendations, findById. rewrite Hb. simpl.
    rewrite Hacc. reflexivity.
  - destruct (Cards db !! id) as [c|] eqn:Hc; simpl in Hg; [|done].
    destruct (Lists db !! Card.list c) as [l|] eqn:Hl; simpl in Hg; [|done].
    injection Hg as <-. simpl. unfold patchCard, findById. rewrite Hc. simpl.
    rewrite Hl. simpl. rewrite Hb. simpl. rewrite Hacc. reflexivity.
Qed.

Lemma handler_write_needs_access_createList (db : Db) (userId : string) (boardId : ObjectId)
    (name : option string) (newId : ObjectId) :
  (createList db userId boardId name newId).1 = db
  \/ exists b, Boards db !! boardId = Some b /\ canAccess b userId = true.
Proof.
  unfold createList, findById, canAccess.
  destruct (Boards db !! boardId) as [b|]; simpl; [|by left].
  destruct (accessDenied _ _ _) eqn:Hd; simpl; [by left|]. right. exists b. by rewrite Hd.
Qed.

Lemma handler_write_needs_access_createCard (db : Db) (userId : string)
    (boardId listId : ObjectId) (title description : option string) (dueDate : DateInput)
    (newId : ObjectId) :
  (createCard db userId boardId listId title description dueDate newId).1 = db
  \/ exists b, Boards db !! boardId = Some b /\ canAccess b userId = true.
Proof.
  unfold createCard, findById, canAccess.
  destruct (Boards db !! boardId) as [b|]; simpl; [|by left].
  destruct (Lists db !! listId) as [l|]; simpl; [|by left].
  destruct (negb _); simpl; [by left|].
  destruct (accessDenied _ _ _) eqn:Hd; simpl; [by left|]. right. exists b. by rewrite Hd.
Qed.

Lemma handler_write_needs_access_moveCard (db : Db) (userId : string)
    (id newListId : ObjectId) (position : option Z) :
  (moveCard db userId id newListId position).1 = db
  \/ exists l b, Lists db !! newListId = Some l /\ Boards db !! List.board l = Some b
                 /\ canAccess b userId = true.
Proof.
  unfold moveCard, findById, canAccess.
  destruct (Cards db !! id) as [c|]; simpl; [|by left].
  destruct (Lists db !! newListId) as [l|] eqn:Hl; simpl; [|by left].
  destruct (Lists db !! Card.list c); simpl; [|by left].
  destruct (Boards db !! List.board l) as [b|] eqn:Hb; simpl; [|by left].
  destruct (accessDenied _ _ _) eqn:Hd; simpl; [by left|]. right. exists l, b.
  by rewrite Hd.
Qed.

Lemma handler_write_needs_access_patchCard (db : Db) (userId : string) (id : ObjectId)
    (updates : CardUpdates.t) :
  (patchCard db userId id updates).1 = db
  \/ exists c l b, Cards db !! id = Some c /\ Lists db !! Card.list c = Some l
                   /\ Boards db !! List.board l = Some b /\ canAccess b userId = true.
Proof.
  unfold patchCard, findById, canAccess.
  destruct (Cards db !! id) as [c|] eqn:Hc; simpl; [|by left].
  destruct (Lists db !! Card.list c) as [l|] eqn:Hl; simpl; [|by left].
  destruct (Boards db !! List.board l) as [b|] eqn:Hb; simpl; [|by left].
  destruct (accessDenied _ _ _) eqn:Hd; simpl; [by left|]. right. exists c, l, b.
  by rewrite Hd.
Qed.

Lemma handler_write_needs_access_invite (db : Db) (userId : string) (id : ObjectId)
    (email : string) :
  (invite db userId id email).1 = db
  \/ exists b, Boards db !! id = Some b /\ Board.owner b = userId.
Proof.
  unfold invite, findById.
  destruct (Boards db !! id) as [b|]; simpl; [|by left].
  destruct (String.eqb (Board.owner b) userId) eqn:He; simpl; [|by left].
  right. exists b. by apply String.eqb_eq in He.
Qed.

Lemma denied_user_gets_403_witness :
  guardedBoard sampleDb (PatchCard "c1" CardUpdates.none) = Some "b1"
  /\ canAccess sampleBoard "u3" = false
  /\ serve sampleDb "u3" (PatchCard "c1" CardUpdates.none) = (sampleDb, 403).
Proof.
  split; [vm_compute; reflexivity|]. split; [vm_compute; reflexivity|].
  apply (denied_user_gets_403 sampleDb "u3" _ "b1" sampleBoard); vm_compute; reflexivity.
Defined.

(** X9: a call that changes the database is either the creation of a board
    or comes from a user who can access a stored board (for an invitation,
    its owner): a user who can access no board can write nothing but a new
    board. *)
Theorem writes_need_access (db : Db) (userId : string) (call : Call) :
  (serve db userId call).1 <> db ->
  (exists name description newId, call = CreateBoard name description newId)
  \/ (exists boardId board,
        Boards db !! boardId = Some board /\ canAccess board userId = true).
Proof.
  intros Hchanged. destruct call as [req|name description newId|id updates]; simpl in *.
  - right. destruct req; simpl in *; try done.
    + destruct (handler_write_needs_access_invite db userId id email) as [|(b & Hb & Ho)];
        [done|]. exists id, b. split; [done|]. rewrite <- Ho. apply canAccess_owner.
    + destruct (handler_write_needs_access_createList db userId boardId name newId)
        as [|(b & Hb & Ha)]; [done|]. by exists boardId, b.
    + destruct (handler_write_needs_access_createCard db userId boardId listId title
                  description dueDate newId) as [|(b & Hb & Ha)]; [done|].
      by exists boardId, b.
    + destruct (handler_write_needs_access_moveCard db userId id newListId position)
        as [|(l & b & Hl & Hb & Ha)]; [done|]. by exists (List.board l), b.
  - left. eauto.
  - right. destruct (handler_write_needs_access_patchCard db userId id updates)
      as [|(c & l & b & Hc & Hl & Hb & Ha)]; [done|]. by exists (List.board l), b.
Qed.

Lemma writes_need_access_witness :
  (serve sampleDb "u2" (Routed (MoveCard "c1" "l2" None))).1 <> sampleDb
  /\ exists boardId board,
       Boards sampleDb !! boardId = Some board /\ canAccess board "u2" = true.
Proof.
  assert (Hne : (serve sampleDb "u2" (Routed (MoveCard "c1" "l2" None))).1 <> sampleDb).
  { intros Heq.
    apply (f_equal (fun d => Card.list <$> Cards d !! "c1")) in Heq.
    vm_compute in Heq. discriminate. }
  split; [exact Hne|].
  destruct (writes_need_access sampleDb "u2" _ Hne) as [(n & d & i & Hc)|Hacc];
    [discriminate|exact Hacc].
Defined.

(** ** What a call writes *)

Lemma invite_effect (db : Db) (userId : string) (id : ObjectId) (email : string) :
  (invite db userId id email).1 = db
  \/ exists b u,
       Boards db !! id = Some b /\ Board.owner b = userId
       /\ findOne (fun u => String.eqb (User.email u) email) (Users db) = Some u
       /\ (_id u ∉ Board.members b)
       /\ invite db userId id email =
          (mkDb (Users db)
                (<[id := Board.mk (Board.name b) (Board.description b) (Board.owner b)
                           (Board.members b ++ [_id u]) (Board.lists b)
                           (Board.isPublic b)]> (Boards db))
                (Lists db) (Cards db),
           mkResponse 200 (Message "User invited successfully")).
Proof.
  unfold invite, findById.
  destruct (Boards db !! id) as [b|] eqn:Hb; simpl; [|by left].
  destruct (String.eqb (Board.owner b) userId) eqn:Ho; simpl; [|by left].
  destruct (findOne _ _) as [u|] eqn:Hu; [|by left].
  destruct (some _ _) eqn:Hs; [by left|].
  right. exists b, u. apply String.eqb_eq in Ho. repeat split; try done.
  intros Hin. rewrite some_false in Hs. specialize (Hs _ Hin).
  by rewrite String.eqb_refl in Hs.
Qed.

Lemma createList_effect (db : Db) (userId : string) (boardId : ObjectId)
    (name : option string) (newId : ObjectId) :
  (createList db userId boardId name newId).1 = db
  \/ exists b n,
       Boards db !! boardId = Some b /\ canAccess b userId = true
       /\ Lists db !! newId = None
       /\ (createList db userId boardId name newId).1 =
          mkDb (Users db)
               (<[boardId := Board.mk (Board.name b) (Board.description b)
                               (Board.owner b) (Board.members b)
                               (Board.lists b ++ [newId]) (Board.isPublic b)]> (Boards db))
               (<[newId := List.mk n boardId
                             (countDocuments
                                (fun l => String.eqb (List.board l) boardId) (Lists db))
                             []]> (Lists db))
               (Cards db).
Proof.
  unfold createList, findById, saveNew, required, canAccess.
  destruct (Boards db !! boardId) as [b|] eqn:Hb; simpl; [|by left].
  destruct (accessDenied _ _ _) eqn:Hd; simpl; [by left|].
  destruct name as [[|c n]|]; simpl; try by left.
  destruct (Lists db !! newId) eqn:Hn; simpl; [by left|].
  right. exists b, (String c n). by rewrite Hd.
Qed.

Lemma createCard_effect (db : Db) (userId : string) (boardId listId : ObjectId)
    (title description : option string) (dueDate : DateInput) (newId : ObjectId) :
  (createCard db userId boardId listId title description dueDate newId).1 = db
  \/ exists b l c,
       Boards db !! boardId = Some b /\ canAccess b userId = true
       /\ Lists db !! listId = Some l /\ List.board l = boardId
       /\ Cards db !! newId = None
       /\ Card.list c = listId
       /\ Card.position c
          = countDocuments (fun c => String.eqb (Card.list c) listId) (Cards db)
       /\ Card.priority c = Low /\ Card.status c = Todo /\ Card.createdBy c = userId
       /\ (createCard db userId boardId listId title description dueDate newId).1 =
          mkDb (Users db) (Boards db)
               (<[listId := List.mk (List.name l) (List.board l) (List.position l)
                              (List.cards l ++ [newId])]> (Lists db))
               (<[newId := c]> (Cards db)).
Proof.
  unfold createCard, findById, saveNew, required, canAccess.
  destruct (Boards db !! boardId) as [b|] eqn:Hb; simpl; [|by left].
  destruct (Lists db !! listId) as [l|] eqn:Hl; simpl; [|by left].
  destruct (String.eqb (List.board l) boardId) eqn:He; simpl; [|by left].
  destruct (accessDenied _ _ _) eqn:Hd; simpl; [by left|].
  destruct title as [[|ch t]|]; simpl; try by left.
  apply String.eqb_eq in He.
  destruct dueDate; simpl; try (by left);
    (destruct (Cards db !! newId) eqn:Hn; simpl; [by left|]);
    right; exists b, l; eexists; rewrite Hd; repeat split; done.
Qed.

Lemma moveCard_effect (db : Db) (userId : string) (id newListId : ObjectId)
    (position : option Z) :
  (moveCard db userId id newListId position).1 = db
  \/ exists c oldList newList b,
       Cards db !! id = Some c /\ Lists db !! Card.list c = Some oldList
       /\ Lists db !! newListId = Some newList
       /\ Boards db !! List.board newList = Some b /\ canAccess b userId = true
       /\ ((Card.title c <> EmptyString
            /\ (moveCard db userId id newListId position).1 =
               mkDb (Users db) (Boards db)
                    (alter (pushCard id) newListId
                       (alter (pull id) (Card.list c) (Lists db)))
                    (<[id := Card.mk (Card.title c) (Card.description c) newListId
                               (orZero position) (Card.dueDate c) (Card.priority c)
                               (Card.status c) (Card.createdBy c) (Card.assignedTo c)]>
                       (Cards db)))
           \/ (Card.title c = EmptyString
               /\ (moveCard db userId id newListId position).1 =
                  mkDb (Users db) (Boards db)
                       (alter (pushCard id) newListId
                          (alter (pull id) (Card.list c) (Lists db)))
                       (Cards db))).
Proof.
  destruct (Cards db !! id) as [c|] eqn:Hc;
    [|left; unfold moveCard, findById; by rewrite Hc].
  destruct (Lists db !! newListId) as [nl|] eqn:Hnl;
    [|left; unfold moveCard, findById; by rewrite Hc; simpl; rewrite Hnl].
  destruct (Lists db !! Card.list c) as [ol|] eqn:Hol;
    [|left; unfold moveCard, findById; rewrite Hc; simpl; rewrite Hnl, Hol; simpl;
      by destruct (Boards db !! List.board nl)].
  destruct (Boards db !! List.board nl) as [b|] eqn:Hb;
    [|left; unfold moveCard, findById; rewrite Hc; simpl; rewrite Hnl, Hol; simpl;
      by rewrite Hb].
  destruct (canAccess b userId) eqn:Hacc.
  - right. exists c, ol, nl, b. repeat split; try done.
    destruct (decide (Card.title c = EmptyString)) as [Htitle|Htitle].
    + right. split; [done|].
      by rewrite (moveCard_fails_validation _ _ _ _ position _ _ _ _ Hc Hol Hnl Hb Hacc
                    Htitle).
    + left. split; [done|].
      by rewrite (moveCard_succeeds _ _ _ _ position _ _ _ _ Hc Hol Hnl Hb Hacc Htitle).
  - left. unfold moveCard, findById. rewrite Hc. simpl. rewrite Hnl, Hol. simpl.
    rewrite Hb. simpl. unfold canAccess in Hacc. apply negb_false_iff in Hacc.
    by rewrite Hacc.
Qed.

Lemma patchCard_effect (db : Db) (userId : string) (id : ObjectId)
    (updates : CardUpdates.t) :
  (patchCard db userId id updates).1 = db
  \/ exists c l b dueDate,
       Cards db !! id = Some c /\ Lists db !! Card.list c = Some l
       /\ Boards db !! List.board l = Some b /\ canAccess b userId = true
       /\ dueDate = match CardUpdates.dueDate updates with
                    | SetDate t => Some t
                    | ClearDate => None
                    | _ => Card.dueDate c
                    end
       /\ CardUpdates.dueDate updates <> BadDate
       /\ patchCard db userId id updates =
          (mkDb (Users db) (Boards db) (Lists db)
                (<[id := applyUpdates updates dueDate c]> (Cards db)),
           mkResponse 200
             (PopulatedCardJson (mkDoc id (applyUpdates updates dueDate c))
                (findById (Users db) (Card.createdBy (applyUpdates updates dueDate c))))).
Proof.
  unfold patchCard, findById, canAccess.
  destruct (Cards db !! id) as [c|] eqn:Hc; simpl; [|by left].
  destruct (Lists db !! Card.list c) as [l|] eqn:Hl; simpl; [|by left].
  destruct (Boards db !! List.board l) as [b|] eqn:Hb; simpl; [|by left].
  destruct (accessDenied _ _ _) eqn:Hd; simpl; [by left|].
  destruct (CardUpdates.dueDate updates) eqn:Hdate; simpl; try (by left);
    right; exists c, l, b; eexists; rewrite Hd; repeat split; done.
Qed.

Lemma createBoard_effect (db : Db) (userId : string) (name description : option string)
    (newId : ObjectId) :
  (createBoard db userId name description newId).1 = db
  \/ exists n,
       Boards db !! newId = None
       /\ createBoard db userId name description newId =
          (mkDb (Users db)
                (<[newId := Board.mk n (default EmptyString description) userId [userId]
                              [] false]> (Boards db))
                (Lists db) (Cards db),
           Created (mkDoc newId (Board.mk n (default EmptyString description) userId
                                   [userId] [] false))).
Proof.
  unfold createBoard, saveNew, required.
  destruct name as [[|c n]|]; simpl; try by left.
  destruct (Boards db !! newId) eqn:Hn; simpl; [by left|].
  right. by exists (String c n).
Qed.

(** ** Boards only grow *)

Lemma serve_board_after (db : Db) (userId : string) (call : Call) (id : ObjectId)
    (b' : Board.t) :
  Boards (serve db userId call).1 !! id = Some b' ->
  (exists b, Boards db !! id = Some b
             /\ Board.owner b' = Board.owner b
             /\ Board.members b `prefix_of` Board.members b'
             /\ Board.lists b `prefix_of` Board.lists b')
  \/ (Boards db !! id = None /\ Board.owner b' = userId
      /\ Board.members b' = [userId] /\ Board.lists b' = []).
Proof.
  assert (Hsame : Boards db !! id = Some b' ->
    exists b, Boards db !! id = Some b /\ Board.owner b' = Board.owner b
              /\ Board.members b `prefix_of` Board.members b'
              /\ Board.lists b `prefix_of` Board.lists b') by (intros; by exists b').
  destruct call as [req|name description newId|cid updates]; simpl.
  - destruct req; simpl; try (intros; left; by apply Hsame).
    + destruct (invite_effect db userId id0 email) as [->|(b & u & Hb & _ & _ & _ & ->)];
        [intros; left; by apply Hsame|]. simpl.
      destruct (decide (id0 = id)) as [->|Hne].
      * rewrite lookup_insert_eq. intros [= <-]. left. exists b. simpl.
        repeat split; try done. by apply prefix_app_r.
      * rewrite lookup_insert_ne by done. intros; left; by apply Hsame.
    + destruct (createList_effect db userId boardId name newId)
        as [->|(b & n & Hb & _ & _ & ->)]; [intros; left; by apply Hsame|]. simpl.
      destruct (decide (boardId = id)) as [->|Hne].
      * rewrite lookup_insert_eq. intros [= <-]. left. exists b. simpl.
        repeat split; try done. by apply prefix_app_r.
      * rewrite lookup_insert_ne by done. intros; left; by apply Hsame.
    + destruct (createCard_effect db userId boardId listId title description dueDate newId)
        as [->|(b & l & c & _ & _ & _ & _ & _ & _ & _ & _ & _ & _ & ->)];
        intros; left; by apply Hsame.
    + destruct (moveCard_effect db userId id0 newListId position)
        as [->|(c & ol & nl & b & _ & _ & _ & _ & _ & [[_ ->]|[_ ->]])];
        intros; left; by apply Hsame.
  - destruct (createBoard_effect db userId name description newId) as [->|(n & Hn & ->)];
      [intros; left; by apply Hsame|]. simpl.
    destruct (decide (newId = id)) as [->|Hne].
    + rewrite lookup_insert_eq. intros [= <-]. by right.
    + rewrite lookup_insert_ne by done. intros; left; by apply Hsame.
  - destruct (patchCard_effect db userId cid updates)
      as [->|(c & l & b & d & _ & _ & _ & _ & _ & _ & ->)]; intros; left; by apply Hsame.
Qed.

(** X10: no call deletes a board or changes its owner or its name, and no
    call takes a member or a list off a board: after any call the board is
    stored with the same owner, and its members and lists are the former
    ones, possibly with new ones at the end. *)
Theorem boards_only_grow (db : Db) (userId : string) (call : Call) (id : ObjectId)
    (b : Board.t) :
  Boards db !! id = Some b ->
  exists b', Boards (serve db userId call).1 !! id = Some b'
             /\ Board.owner b' = Board.owner b
             /\ Board.name b' = Board.name b
             /\ Board.members b `prefix_of` Board.members b'
             /\ Board.lists b `prefix_of` Board.lists b'.
Proof.
  intros Hb.
  assert (Hsame : exists b', Boards db !! id = Some b' /\ Board.owner b' = Board.owner b
              /\ Board.name b' = Board.name b
              /\ Board.members b `prefix_of` Board.members b'
              /\ Board.lists b `prefix_of` Board.lists b') by (by exists b).
  destruct call as [req|name description newId|cid updates]; simpl.
  - destruct req; simpl; try done.
    + destruct (invite_effect db userId id0 email) as [->|(b0 & u & Hb0 & _ & _ & _ & ->)];
        [done|]. simpl.
      destruct (decide (id0 = id)) as [->|Hne].
      * rewrite lookup_insert_eq. eexists. split; [done|]. simpl.
        assert (b0 = b) as -> by congruence. repeat split; try done.
        by apply prefix_app_r.
      * by rewrite lookup_insert_ne.
    + destruct (createList_effect db userId boardId name newId)
        as [->|(b0 & n & Hb0 & _ & _ & ->)]; [done|]. simpl.
      destruct (decide (boardId = id)) as [->|Hne].
      * rewrite lookup_insert_eq. eexists. split; [done|]. simpl.
        assert (b0 = b) as -> by congruence. repeat split; try done.
        by apply prefix_app_r.
      * by rewrite lookup_insert_ne.
    + by destruct (createCard_effect db userId boardId listId title description dueDate
                     newId)
        as [->|(b0 & l & c & _ & _ & _ & _ & _ & _ & _ & _ & _ & _ & ->)].
    + by destruct (moveCard_effect db userId id0 newListId position)
        as [->|(c & ol & nl & b0 & _ & _ & _ & _ & _ & [[_ ->]|[_ ->]])].
  - destruct (createBoard_effect db userId name description newId) as [->|(n & Hn & ->)];
      [done|]. simpl.
    destruct (decide (newId = id)) as [->|Hne]; [congruence|].
    by rewrite lookup_insert_ne.
  - by destruct (patchCard_effect db userId cid updates)
      as [->|(c & l & b0 & d & _ & _ & _ & _ & _ & _ & ->)].
Qed.


Lemma boards_only_grow_witness :
  exists b', Boards (serve sampleDb "u1" (Routed (Invite "b1" "cy@example.org"))).1 !! "b1"
             = Some b'
             /\ Board.owner b' = "u1"
             /\ Board.members b' = ["u1"; "u2"; "u3"].
Proof.
  destruct (boards_only_grow sampleDb "u1" (Routed (Invite "b1" "cy@example.org")) "b1"
              sampleBoard) as (b' & Hb' & Ho & _ & _ & _); [vm_compute; reflexivity|].
  exists b'. split; [exact Hb'|]. split; [exact Ho|].
  vm_compute in Hb'. by injection Hb' as <-.
Defined.

(** X11: the routes keep the owner of every board among its members: if
    that holds of the database before a call, it holds after it. A new
    board starts with its creator as owner and only member. *)
Theorem owners_stay_members (db : Db) (userId : string) (call : Call) :
  OwnersAreMembers db -> OwnersAreMembers (serve db userId call).1.
Proof.
  intros Hinv id b' Hb'.
  destruct (serve_board_after db userId call id b' Hb')
    as [(b & Hb & Ho & Hm & _)|(_ & Ho & Hm & _)].
  - rewrite Ho. destruct Hm as [k ->]. apply elem_of_app. left. by eapply Hinv.
  - rewrite Ho, Hm. left.
Qed.

Lemma sampleDb_owners : OwnersAreMembers sampleDb.
Proof.
  intros id b Hb. simpl in Hb. apply lookup_singleton_Some in Hb as [_ <-]. left.
Qed.

Lemma owners_stay_members_witness :
  OwnersAreMembers sampleDb
  /\ OwnersAreMembers (serve sampleDb "u1" (Routed (Invite "b1" "cy@example.org"))).1.
Proof.
  split; [apply sampleDb_owners|].
  apply owners_stay_members, sampleDb_owners.
Defined.

Lemma getBoard_member (db : Db) (userId : string) (id : ObjectId) (b : Board.t) :
  Boards db !! id = Some b ->
  is_Some (Users db !! Board.owner b) ->
  userId ∈ Board.members b ->
  is_Some (Users db !! userId) ->
  code (getBoard db userId id) = 200.
Proof.
  intros Hb [o Ho] Hm [u Hu]. unfold getBoard, findById. rewrite Hb. simpl.
  rewrite Ho. simpl.
  assert (some (fun m => String.eqb (_id m) userId)
               (populateUsers db (Board.members b)) = true) as ->.
  { apply some_true. exists (mkDoc userId u). split; [|apply String.eqb_refl].
    unfold populateUsers. apply list_elem_of_omap. exists userId. split; [done|].
    unfold findById, ObjectId in *. by rewrite Hu. }
  by rewrite andb_false_r.
Qed.

(** X12: on a database where the owner of each board is among its members,
    [GET /:id] answers 200 to the owner of a stored board whose own user
    document is stored: what grants the access is the membership. *)
Theorem getBoard_owner_as_member (db : Db) (id : ObjectId) (b : Board.t) :
  OwnersAreMembers db ->
  Boards db !! id = Some b ->
  is_Some (Users db !! Board.owner b) ->
  code (getBoard db (Board.owner b) id) = 200.
Proof.
  intros Hinv Hb Ho. apply (getBoard_member db _ id b); try done. by eapply Hinv.
Qed.

Lemma getBoard_owner_as_member_witness :
  OwnersAreMembers sampleDb /\ code (getBoard sampleDb "u1" "b1") = 200.
Proof.
  split; [apply sampleDb_owners|].
  apply (getBoard_owner_as_member sampleDb "b1" sampleBoard).
  - apply sampleDb_owners.
  - vm_compute. reflexivity.
  - eexists. vm_compute. reflexivity.
Defined.

(** X13: when no user document has the identifier of the owner of a stored
    board, [GET /:id] answers 500 to every user, members included:
    [toString] is called on the [null] that the population leaves. *)
Theorem getBoard_owner_missing (db : Db) (userId : string) (id : ObjectId) (b : Board.t) :
  Boards db !! id = Some b ->
  Users db !! Board.owner b = None ->
  getBoard db userId id = mkResponse 500 (Message "Server error").
Proof.
  intros Hb Ho. unfold getBoard, findById. rewrite Hb. simpl. by rewrite Ho.
Qed.

Lemma getBoard_owner_missing_witness :
  getBoard (mkDb (delete "u1" (Users sampleDb)) (Boards sampleDb) (Lists sampleDb)
                 (Cards sampleDb)) "u2" "b1"
  = mkResponse 500 (Message "Server error").
Proof.
  apply (getBoard_owner_missing _ "u2" "b1" sampleBoard); vm_compute; reflexivity.
Defined.

(** ** The references between boards, lists and cards *)

Lemma consistent_invite (db : Db) (id : ObjectId) (b : Board.t) (u : ObjectId) :
  Consistent db ->
  Boards db !! id = Some b ->
  Consistent (mkDb (Users db)
                (<[id := Board.mk (Board.name b) (Board.description b) (Board.owner b)
                           (Board.members b ++ [u]) (Board.lists b)
                           (Board.isPublic b)]> (Boards db))
                (Lists db) (Cards db)).
Proof.
  intros [H1 H2 H3 H4 H5 H6] Hb. unfold ObjectId in *. split; simpl; try done.
  - intros lid l Hl. destruct (H1 lid l Hl) as (b0 & Hb0 & Hin).
    destruct (decide (id = List.board l)) as [->|Hne].
    + rewrite lookup_insert_eq. eexists. split; [done|]. simpl. (simplify_eq; done).
    + rewrite lookup_insert_ne by done. eauto.
  - intros bid b' lid Hb' Hin. destruct (decide (id = bid)) as [->|Hne].
    + rewrite lookup_insert_eq in Hb'. injection Hb' as <-. simpl in Hin. eauto.
    + rewrite lookup_insert_ne in Hb' by done. eauto.
  - intros bid b' Hb'. destruct (decide (id = bid)) as [->|Hne].
    + rewrite lookup_insert_eq in Hb'. injection Hb' as <-. simpl. eauto.
    + rewrite lookup_insert_ne in Hb' by done. eauto.
Qed.

Lemma consistent_createList (db : Db) (boardId newId : ObjectId) (b : Board.t)
    (n : string) (position : Z) :
  Consistent db ->
  Boards db !! boardId = Some b ->
  Lists db !! newId = None ->
  Consistent (mkDb (Users db)
               (<[boardId := Board.mk (Board.name b) (Board.description b)
                               (Board.owner b) (Board.members b)
                               (Board.lists b ++ [newId]) (Board.isPublic b)]> (Boards db))
               (<[newId := List.mk n boardId position []]> (Lists db))
               (Cards db)).
Proof.
  intros [H1 H2 H3 H4 H5 H6] Hb Hnew. unfold ObjectId in *. split; simpl.
  - intros lid l Hl. destruct (decide (newId = lid)) as [->|Hne].
    + rewrite lookup_insert_eq in Hl. injection Hl as <-. simpl.
      rewrite lookup_insert_eq. eexists. split; [done|]. simpl.
      apply elem_of_app. right. left.
    + rewrite lookup_insert_ne in Hl by done.
      destruct (H1 lid l Hl) as (b0 & Hb0 & Hin).
      destruct (decide (boardId = List.board l)) as [->|Hnb].
      * rewrite lookup_insert_eq. eexists. split; [done|]. simpl.
        apply elem_of_app. left. (simplify_eq; done).
      * rewrite lookup_insert_ne by done. eauto.
  - intros bid b' lid Hb' Hin. destruct (decide (boardId = bid)) as [->|Hnb].
    + rewrite lookup_insert_eq in Hb'. injection Hb' as <-. simpl in Hin.
      apply elem_of_app in Hin as [Hin|Hin].
      * destruct (H2 bid b lid Hb Hin) as (l & Hl & Hlb).
        assert (newId <> lid) by (intros ->; simplify_eq).
        rewrite lookup_insert_ne by done. eauto.
      * apply list_elem_of_singleton in Hin as ->. rewrite lookup_insert_eq. eauto.
    + rewrite lookup_insert_ne in Hb' by done.
      destruct (H2 bid b' lid Hb' Hin) as (l & Hl & Hlb).
      assert (newId <> lid) by (intros ->; simplify_eq).
      rewrite lookup_insert_ne by done. eauto.
  - intros bid b' Hb'. destruct (decide (boardId = bid)) as [->|Hnb].
    + rewrite lookup_insert_eq in Hb'. injection Hb' as <-. simpl.
      apply NoDup_app. split; [eauto|]. split; [|apply NoDup_singleton].
      intros lid Hin Hin'. apply list_elem_of_singleton in Hin' as ->.
      destruct (H2 bid b newId Hb Hin) as (l & Hl & _). (simplify_eq; done).
    + rewrite lookup_insert_ne in Hb' by done. eauto.
  - intros cid c Hc. destruct (H4 cid c Hc) as (l & Hl & Hin).
    assert (newId <> Card.list c) by (intros ->; simplify_eq).
    rewrite lookup_insert_ne by done. eauto.
  - intros lid l cid Hl Hin. destruct (decide (newId = lid)) as [->|Hne].
    + rewrite lookup_insert_eq in Hl. injection Hl as <-. by apply elem_of_nil in Hin.
    + rewrite lookup_insert_ne in Hl by done. eauto.
  - intros lid l Hl. destruct (decide (newId = lid)) as [->|Hne].
    + rewrite lookup_insert_eq in Hl. injection Hl as <-. apply NoDup_nil_2.
    + rewrite lookup_insert_ne in Hl by done. eauto.
Qed.

Lemma consistent_createCard (db : Db) (listId newId : ObjectId) (l : List.t) (c : Card.t) :
  Consistent db ->
  Lists db !! listId = Some l ->
  Cards db !! newId = None ->
  Card.list c = listId ->
  Consistent (mkDb (Users db) (Boards db)
               (<[listId := List.mk (List.name l) (List.board l) (List.position l)
                              (List.cards l ++ [newId])]> (Lists db))
               (<[newId := c]> (Cards db))).
Proof.
  intros [H1 H2 H3 H4 H5 H6] Hl Hnew Hcl. unfold ObjectId in *. split; simpl; try done.
  - intros lid l' Hl'. destruct (decide (listId = lid)) as [->|Hne].
    + rewrite lookup_insert_eq in Hl'. injection Hl' as <-. simpl. eauto.
    + rewrite lookup_insert_ne in Hl' by done. eauto.
  - intros bid b lid Hb Hin. destruct (H2 bid b lid Hb Hin) as (l0 & Hl0 & Hlb).
    destruct (decide (listId = lid)) as [->|Hne].
    + rewrite lookup_insert_eq. eexists. split; [done|]. simpl. (simplify_eq; done).
    + rewrite lookup_insert_ne by done. eauto.
  - intros cid c' Hc'. destruct (decide (newId = cid)) as [->|Hne].
    + rewrite lookup_insert_eq in Hc'. injection Hc' as <-. rewrite Hcl.
      rewrite lookup_insert_eq. eexists. split; [done|]. simpl.
      apply elem_of_app. right. left.
    + rewrite lookup_insert_ne in Hc' by done.
      destruct (H4 cid c' Hc') as (l0 & Hl0 & Hin).
      destruct (decide (listId = Card.list c')) as [->|Hnl].
      * rewrite lookup_insert_eq. eexists. split; [done|]. simpl.
        apply elem_of_app. left. (simplify_eq; done).
      * rewrite lookup_insert_ne by done. eauto.
  - intros lid l' cid Hl' Hin. destruct (decide (listId = lid)) as [->|Hnl].
    + rewrite lookup_insert_eq in Hl'. injection Hl' as <-. simpl in Hin.
      apply elem_of_app in Hin as [Hin|Hin].
      * destruct (H5 lid l cid Hl Hin) as (c0 & Hc0 & Hc0l).
        assert (newId <> cid) by (intros ->; simplify_eq).
        rewrite lookup_insert_ne by done. eauto.
      * apply list_elem_of_singleton in Hin as ->. rewrite lookup_insert_eq. eauto.
    + rewrite lookup_insert_ne in Hl' by done.
      destruct (H5 lid l' cid Hl' Hin) as (c0 & Hc0 & Hc0l).
      assert (newId <> cid) by (intros ->; simplify_eq).
      rewrite lookup_insert_ne by done. eauto.
  - intros lid l' Hl'. destruct (decide (listId = lid)) as [->|Hnl].
    + rewrite lookup_insert_eq in Hl'. injection Hl' as <-. simpl.
      apply NoDup_app. split; [eauto|]. split; [|apply NoDup_singleton].
      intros cid Hin Hin'. apply list_elem_of_singleton in Hin' as ->.
      destruct (H5 lid l newId Hl Hin) as (c0 & Hc0 & _). (simplify_eq; done).
    + rewrite lookup_insert_ne in Hl' by done. eauto.
Qed.

Lemma consistent_createBoard (db : Db) (newId : ObjectId) (n d : string)
    (owner : ObjectId) (members : list ObjectId) :
  Consistent db ->
  Boards db !! newId = None ->
  Consistent (mkDb (Users db)
                (<[newId := Board.mk n d owner members [] false]> (Boards db))
                (Lists db) (Cards db)).
Proof.
  intros [H1 H2 H3 H4 H5 H6] Hnew. unfold ObjectId in *. split; simpl; try done.
  - intros lid l Hl. destruct (H1 lid l Hl) as (b0 & Hb0 & Hin).
    assert (newId <> List.board l) by (intros ->; simplify_eq).
    rewrite lookup_insert_ne by done. eauto.
  - intros bid b lid Hb Hin. destruct (decide (newId = bid)) as [->|Hne].
    + rewrite lookup_insert_eq in Hb. injection Hb as <-. by apply elem_of_nil in Hin.
    + rewrite lookup_insert_ne in Hb by done. eauto.
  - intros bid b Hb. destruct (decide (newId = bid)) as [->|Hne].
    + rewrite lookup_insert_eq in Hb. injection Hb as <-. apply NoDup_nil_2.
    + rewrite lookup_insert_ne in Hb by done. eauto.
Qed.

Lemma consistent_patchCard (db : Db) (id : ObjectId) (c c' : Card.t) :
  Consistent db ->
  Cards db !! id = Some c ->
  Card.list c' = Card.list c ->
  Consistent (mkDb (Users db) (Boards db) (Lists db) (<[id := c']> (Cards db))).
Proof.
  intros [H1 H2 H3 H4 H5 H6] Hc Hl. unfold ObjectId in *. split; simpl; try done.
  - intros cid c0 Hc0. destruct (decide (id = cid)) as [->|Hne].
    + rewrite lookup_insert_eq in Hc0. injection Hc0 as <-. rewrite Hl. eauto.
    + rewrite lookup_insert_ne in Hc0 by done. eauto.
  - intros lid l cid Hl0 Hin. destruct (H5 lid l cid Hl0 Hin) as (c0 & Hc0 & Hc0l).
    destruct (decide (id = cid)) as [->|Hne].
    + rewrite lookup_insert_eq. eexists. split; [done|]. (simplify_eq; done).
    + rewrite lookup_insert_ne by done. eauto.
Qed.

Lemma lookup_moved (lists : gmap string List.t) (id A B lid : string) :
  alter (pushCard id) B (alter (pull id) A lists) !! lid
  = movedList id A B lid <$> lists !! lid.
Proof.
  unfold movedList. rewrite !lookup_alter.
  destruct (decide (B = lid)) as [->|HB]; destruct (decide (A = lid)) as [->|HA];
    destruct (lists !! lid); simpl; repeat case_decide; try done; congruence.
Qed.

Lemma movedList_board (id A B lid : ObjectId) (l : List.t) :
  List.board (movedList id A B lid l) = List.board l.
Proof. unfold movedList. by repeat case_decide. Qed.

Lemma movedList_cards (id A B lid cid : ObjectId) (l : List.t) :
  cid ∈ List.cards (movedList id A B lid l) <->
  (cid ∈ List.cards l /\ ~ (lid = A /\ cid = id)) \/ (lid = B /\ cid = id).
Proof.
  unfold movedList, pushCard, pull, push.
  repeat case_decide; simpl; rewrite ?elem_of_app, ?list_elem_of_filter,
    ?list_elem_of_singleton; intuition congruence.
Qed.

Lemma movedList_NoDup (id A B lid : ObjectId) (l : List.t) :
  NoDup (List.cards l) ->
  (lid = B -> lid <> A -> id ∉ List.cards l) ->
  NoDup (List.cards (movedList id A B lid l)).
Proof.
  intros Hnd Hfresh. unfold movedList, pushCard, pull, push.
  destruct (decide (lid = A)) as [HA|HA]; destruct (decide (lid = B)) as [HB|HB];
    simpl; try done.
  - apply NoDup_app. split; [by apply NoDup_filter|]. split; [|apply NoDup_singleton].
    intros x Hx Hx'. apply list_elem_of_singleton in Hx' as ->.
    apply list_elem_of_filter in Hx as [Hx _]. done.
  - by apply NoDup_filter.
  - apply NoDup_app. split; [done|]. split; [|apply NoDup_singleton].
    intros x Hx Hx'. apply list_elem_of_singleton in Hx' as ->. by apply Hfresh.
Qed.

Lemma consistent_moveCard (db : Db) (id B : ObjectId) (c : Card.t) (ol nl : List.t)
    (position : Z) :
  Consistent db ->
  Cards db !! id = Some c ->
  Lists db !! Card.list c = Some ol ->
  Lists db !! B = Some nl ->
  Consistent (mkDb (Users db) (Boards db)
               (alter (pushCard id) B (alter (pull id) (Card.list c) (Lists db)))
               (<[id := Card.mk (Card.title c) (Card.description c) B position
                          (Card.dueDate c) (Card.priority c) (Card.status c)
                          (Card.createdBy c) (Card.assignedTo c)]> (Cards db))).
Proof.
  intros [H1 H2 H3 H4 H5 H6] Hc Hol Hnl. unfold ObjectId in *.
  split; simpl; unfold ObjectId in *; try done.
  - intros lid l'. rewrite lookup_moved.
    destruct (Lists db !! lid) as [l|] eqn:Hl; simpl; [|discriminate]. intros [= <-].
    rewrite movedList_board. eauto.
  - intros bid b lid Hb Hin. destruct (H2 bid b lid Hb Hin) as (l & Hl & Hlb).
    rewrite lookup_moved, Hl. simpl. eexists. split; [done|].
    by rewrite movedList_board.
  - intros cid c'. destruct (decide (id = cid)) as [->|Hne].
    + rewrite lookup_insert_eq. intros [= <-]. simpl.
      rewrite lookup_moved, Hnl. simpl. eexists. split; [done|].
      apply movedList_cards. by right.
    + rewrite lookup_insert_ne by done. intros Hc'.
      destruct (H4 cid c' Hc') as (l & Hl & Hin).
      rewrite lookup_moved, Hl. simpl. eexists. split; [done|].
      apply movedList_cards. left. split; [done|]. intros [_ ->]. done.
  - intros lid l' cid. rewrite lookup_moved.
    destruct (Lists db !! lid) as [l|] eqn:Hl; simpl; [|discriminate]. intros [= <-] Hin.
    apply movedList_cards in Hin as [[Hin Hnot]|[-> ->]].
    + destruct (H5 lid l cid Hl Hin) as (c0 & Hc0 & Hc0l).
      destruct (decide (id = cid)) as [->|Hne].
      * exfalso. apply Hnot. split; [|done]. by simplify_eq.
      * rewrite lookup_insert_ne by done. eauto.
    + rewrite lookup_insert_eq. eauto.
  - intros lid l'. rewrite lookup_moved.
    destruct (Lists db !! lid) as [l|] eqn:Hl; simpl; [|discriminate]. intros [= <-].
    apply movedList_NoDup; [eauto|]. intros -> HBA Hin.
    destruct (H5 B l id Hl Hin) as (c0 & Hc0 & Hc0l). by simplify_eq.
Qed.

Lemma serve_consistent (db : Db) (userId : string) (call : Call) :
  Consistent db -> CardsTitled db -> keepsList call ->
  Consistent (serve db userId call).1.
Proof.
  intros Hinv Htitled Hkeep.
  destruct call as [req|name description newId|id updates]; simpl.
  - destruct req; simpl; try done.
    + destruct (invite_effect db userId id email) as [->|(b & u & Hb & _ & _ & _ & ->)];
        [done|]. by apply consistent_invite.
    + destruct (createList_effect db userId boardId name newId)
        as [->|(b & n & Hb & _ & Hnew & ->)]; [done|]. by apply consistent_createList.
    + destruct (createCard_effect db userId boardId listId title description dueDate newId)
        as [->|(b & l & c & _ & _ & Hl & _ & Hnew & Hcl & _ & _ & _ & _ & ->)]; [done|].
      by apply consistent_createCard.
    + destruct (moveCard_effect db userId id newListId position)
        as [->|(c & ol & nl & b & Hc & Hol & Hnl & _ & _ & [[_ ->]|[Hempty _]])];
        [done| |by destruct (Htitled id c Hc)].
      by eapply consistent_moveCard.
  - destruct (createBoard_effect db userId name description newId) as [->|(n & Hn & ->)];
      [done|]. by apply consistent_createBoard.
  - destruct (patchCard_effect db userId id updates)
      as [->|(c & l & b & d & Hc & _ & _ & _ & _ & _ & ->)]; [done|]. simpl.
    apply (consistent_patchCard db id c); [done..|].
    simpl in Hkeep. unfold applyUpdates. simpl. by rewrite Hkeep.
Qed.

Lemma serve_titled (db : Db) (userId : string) (call : Call) :
  CardsTitled db -> keepsTitle call -> CardsTitled (serve db userId call).1.
Proof.
  intros Htitled Hkeep cid c'.
  destruct call as [req|name description newId|id updates]; simpl.
  - destruct req; simpl; try apply Htitled.
    + destruct (invite_effect db userId id email) as [->|(b & u & _ & _ & _ & _ & ->)];
        apply Htitled.
    + destruct (createList_effect db userId boardId name newId)
        as [->|(b & n & _ & _ & _ & ->)]; apply Htitled.
    + unfold createCard, findById, saveNew, required.
      destruct (Boards db !! boardId) as [b|]; simpl; [|apply Htitled].
      destruct (Lists db !! listId) as [l|]; simpl; [|apply Htitled].
      destruct (negb _); simpl; [apply Htitled|].
      destruct (accessDenied _ _ _); simpl; [apply Htitled|].
      destruct title as [[|ch t]|]; simpl; try apply Htitled.
      destruct dueDate; simpl; try apply Htitled;
        (destruct (Cards db !! newId) eqn:Hn; simpl; [apply Htitled|]);
        (destruct (decide (newId = cid)) as [->|Hne];
         [rewrite lookup_insert_eq; by intros [= <-]
         |rewrite lookup_insert_ne by done; apply Htitled]).
    + destruct (moveCard_effect db userId id newListId position)
        as [->|(c & ol & nl & b & Hc & _ & _ & _ & _ & [[Ht ->]|[_ ->]])];
        try apply Htitled. simpl.
      destruct (decide (id = cid)) as [->|Hne].
      * rewrite lookup_insert_eq. by intros [= <-].
      * rewrite lookup_insert_ne by done. apply Htitled.
  - destruct (createBoard_effect db userId name description newId) as [->|(n & _ & ->)];
      apply Htitled.
  - destruct (patchCard_effect db userId id updates)
      as [->|(c & l & b & d & Hc & _ & _ & _ & _ & _ & ->)]; [apply Htitled|]. simpl.
    destruct (decide (id = cid)) as [->|Hne].
    + rewrite lookup_insert_eq. intros [= <-]. unfold applyUpdates. simpl.
      simpl in Hkeep. destruct (CardUpdates.title updates) as [t|]; simpl.
      * intros ->. done.
      * by apply (Htitled cid c).
    + rewrite lookup_insert_ne by done. apply Htitled.
Qed.

Lemma emptyDb_consistent : Consistent emptyDb.
Proof. split; simpl; intros *; by rewrite ?lookup_empty. Qed.


Lemma emptyDb_titled : CardsTitled emptyDb.
Proof. intros id c. simpl. by rewrite lookup_empty. Qed.

Lemma reachable_consistent (db0 db : Db) :
  ReachableFrom db0 db -> Consistent db0 -> CardsTitled db0 ->
  Consistent db /\ CardsTitled db.
Proof.
  induction 1 as [|db userId call _ IH Hlist Htitle]; intros Hc Ht; [done|].
  destruct (IH Hc Ht) as [IHc IHt].
  split; [by apply serve_consistent|by apply serve_titled].
Qed.

Lemma builtDb_reachable : ReachableFrom emptyDb builtDb.
Proof.
  unfold builtDb. repeat (apply reachable_serve; [|exact I|exact I]).
  apply reachable_start.
Qed.

Lemma builtDb_consistent : Consistent builtDb.
Proof.
  apply (reachable_consistent emptyDb); [apply builtDb_reachable|..].
  - apply emptyDb_consistent.
  - apply emptyDb_titled.
Qed.



(** ** One visit for each card *)

Lemma populateCards_ids (db : Db) (cards : list ObjectId) :
  _id <$> populateCards db cards
  = filter (fun cid => is_Some (Cards db !! cid)) cards.
Proof.
  unfold populateCards, findById. induction cards as [|cid cards IH]; [done|].
  rewrite filter_cons. cbn [omap list_omap]. rewrite <- IH.
  destruct (decide (is_Some (Cards db !! cid))) as [[c Hc]|Hn].
  - unfold ObjectId in *. by rewrite Hc.
  - destruct (Cards db !! cid) as [c|] eqn:Hc; [|done]. exfalso. apply Hn. eauto.
Qed.

Lemma populated_ids_elem (db : Db) (lids : list ObjectId) (cid : ObjectId) :
  cid ∈ _id <$> concat (PList.cards <$> populateLists db lids) ->
  exists lid l, lid ∈ lids /\ Lists db !! lid = Some l /\ cid ∈ List.cards l
                /\ is_Some (Cards db !! cid).
Proof.
  intros Hin. apply list_elem_of_fmap in Hin as (card & -> & Hin).
  apply list_elem_of_In, in_concat in Hin as (cs & Hcs & Hcard).
  apply list_elem_of_In, list_elem_of_fmap in Hcs as (pl & -> & Hpl).
  unfold populateLists in Hpl. apply list_elem_of_fmap in Hpl as (ld & -> & Hld).
  apply list_elem_of_omap in Hld as (lid & Hlid & Hfind).
  unfold findById in Hfind. destruct (Lists db !! lid) as [l|] eqn:Hl; [|done].
  injection Hfind as <-. simpl in Hcard.
  assert (_id card ∈ _id <$> populateCards db (List.cards l)) as Hid.
  { apply list_elem_of_fmap. exists card. split; [done|]. by apply list_elem_of_In. }
  rewrite populateCards_ids in Hid. apply list_elem_of_filter in Hid as [Hs Hc].
  by exists lid, l.
Qed.

Lemma populated_ids_NoDup (db : Db) (lids : list ObjectId) :
  Consistent db -> NoDup lids ->
  NoDup (_id <$> concat (PList.cards <$> populateLists db lids)).
Proof.
  intros Hinv. induction 1 as [|lid lids Hnotin Hnd IH]; [constructor|].
  unfold populateLists in *. simpl. unfold findById at 1.
  destruct (Lists db !! lid) as [l|] eqn:Hl; simpl; [|done].
  rewrite fmap_app. apply NoDup_app. split; [|split; [|done]].
  - rewrite populateCards_ids. apply NoDup_filter. by eapply list_cards_once.
  - intros cid Hin Hin'. rewrite populateCards_ids in Hin.
    apply list_elem_of_filter in Hin as [_ Hin].
    apply (populated_ids_elem db lids cid) in Hin' as (lid' & l' & Hlid' & Hl' & Hc' & _).
    destruct (list_cards_stored db Hinv lid l cid Hl Hin) as (c & Hc & Hcl).
    destruct (list_cards_stored db Hinv lid' l' cid Hl' Hc') as (c0 & Hc0 & Hc0l).
    unfold ObjectId in *. simplify_eq. done.
Qed.

Lemma allCards_ids_NoDup (db : Db) (id : ObjectId) (b : Board.t) :
  Consistent db -> Boards db !! id = Some b ->
  NoDup (_id <$> allCards (populateBoard db (mkDoc id b))).
Proof.
  intros Hinv Hb. unfold allCards. simpl.
  apply populated_ids_NoDup; [done|]. by eapply board_lists_once.
Qed.

Lemma filter_id_at_most_one (cards : list (Doc Card.t)) (cid : ObjectId) :
  NoDup (_id <$> cards) ->
  (length (filter (fun c => _id c = cid) cards) <= 1)%nat.
Proof.
  induction cards as [|c cards IH]; simpl; [lia|].
  intros Hnd. apply NoDup_cons in Hnd as [Hnotin Hnd].
  rewrite filter_cons. case_decide as Hc; [|by apply IH].
  destruct (filter (fun c => _id c = cid) cards) as [|c' rest] eqn:Hf; [simpl; lia|].
  exfalso. apply Hnotin.
  assert (c' ∈ filter (fun c => _id c = cid) cards) as Hin by (rewrite Hf; left).
  apply list_elem_of_filter in Hin as [Hid Hin].
  apply list_elem_of_fmap. exists c'. split; [congruence|done].
Qed.

Lemma flat_map_length_le {A B} (f : A -> list B) (l : list A) (n : nat) :
  (forall x, (length (f x) <= 1)%nat) -> (length l <= n)%nat ->
  (length (flat_map f l) <= n)%nat.
Proof.
  intros Hf Hl. pose proof (length_flat_map_at_most_one f l Hf). lia.
Qed.

(** X15: on a consistent database the answer of [getRecommendations] has,
    for each card and each of the four rule groups, at most one advisory:
    every card of the board is visited once. *)
Theorem one_advisory_per_group_and_card
    (db : Db) (userId : string) (id : ObjectId) (now : Z) (b : Board.t) :
  Consistent db ->
  Boards db !! id = Some b ->
  canAccess b userId = true ->
  exists out,
    getRecommendations db userId id now = mkResponse 200 (RecommendationsJson out)
    /\ NoDup (_id <$> allCards (populateBoard db (mkDoc id b)))
    /\ forall g cid, (length (aboutCard g cid out) <= 1)%nat.
Proof.
  intros Hinv Hb Hacc. eexists. split; [by apply getRecommendations_ok|].
  pose proof (allCards_ids_NoDup db id b Hinv Hb) as Hnd. split; [done|].
  intros g cid.
  assert (aboutCard g cid (sort compareSeverity
            (concatenated (populateBoard db (mkDoc id b)) now))
          ≡ₚ aboutCard g cid (concatenated (populateBoard db (mkDoc id b)) now)) as ->.
  { unfold aboutCard. by rewrite sort_Permutation. }
  rewrite aboutCard_concatenated. apply flat_map_length_le.
  - intros c. destruct g.
    + pose proof (alertsFor_length (populateBoard db (mkDoc id b)) c).
      case_decide; lia.
    + apply priorityRules_length.
    + apply dueDateRules_at_most_one.
    + pose proof (statusRules_length now c). case_decide; lia.
  - by apply filter_id_at_most_one.
Qed.

Lemma urgentDb_consistent : Consistent urgentDb.
Proof.
  apply (reachable_consistent emptyDb); [|apply emptyDb_consistent|apply emptyDb_titled].
  unfold urgentDb.
  apply reachable_serve; [|reflexivity|discriminate].
  apply reachable_serve; [|exact I|exact I].
  apply reachable_serve; [|exact I|exact I].
  apply builtDb_reachable.
Qed.

Lemma one_advisory_per_group_and_card_witness :
  Consistent urgentDb
  /\ exists out,
       getRecommendations urgentDb "u1" "b1" sampleNow
       = mkResponse 200 (RecommendationsJson out)
       /\ type <$> out = [critical_priority; overdue; critical_in_todo]
       /\ cardId <$> out = ["c2"; "c2"; "c2"]
       /\ (forall g cid, (length (aboutCard g cid out) <= 1)%nat)
       /\ length (aboutCard PriorityGroup "c2" out) = 1%nat
       /\ length (aboutCard DueDateGroup "c2" out) = 1%nat
       /\ length (aboutCard StatusGroup "c2" out) = 1%nat.
Proof.
  split; [apply urgentDb_consistent|].
  destruct (one_advisory_per_group_and_card urgentDb "u1" "b1" sampleNow
              (Board.mk "Release" EmptyString "u1" ["u1"] ["l1"; "l2"] false))
    as (out & Hout & _ & Hone).
  - apply urgentDb_consistent.
  - vm_compute. reflexivity.
  - vm_compute. reflexivity.
  - exists out. split; [exact Hout|].
    vm_compute in Hout. injection Hout as <-.
    split; [reflexivity|]. split; [reflexivity|]. split; [exact Hone|].
    split; [|split]; vm_compute; reflexivity.
Defined.

(** ** Positions *)

Lemma createCard_201_inv (db db' : Db) (userId : string) (boardId listId : ObjectId)
    (title description : option string) (dueDate : DateInput) (newId : ObjectId)
    (card : Doc Card.t) (createdBy : option (Doc User.t)) :
  createCard db userId boardId listId title description dueDate newId
  = (db', mkResponse 201 (PopulatedCardJson card createdBy)) ->
  exists l,
    Lists db !! listId = Some l
    /\ Cards db !! newId = None
    /\ _id card = newId
    /\ Card.list (fields card) = listId
    /\ Card.position (fields card)
       = countDocuments (fun c => String.eqb (Card.list c) listId) (Cards db)
    /\ db' = mkDb (Users db) (Boards db)
               (<[listId := List.mk (List.name l) (List.board l) (List.position l)
                              (List.cards l ++ [newId])]> (Lists db))
               (<[newId := fields card]> (Cards db)).
Proof.
  unfold createCard, findById, saveNew. intros H.
  destruct (Boards db !! boardId) as [board|]; simpl in H; [|by injection H].
  destruct (Lists db !! listId) as [l|] eqn:Hl; simpl in H; [|by injection H].
  destruct (negb _); simpl in H; [by injection H|].
  destruct (accessDenied _ _ _); simpl in H; [by injection H|].
  destruct title as [[|c title]|]; simpl in H; try by injection H.
  destruct dueDate; simpl in H; try (by injection H);
    (destruct (Cards db !! newId) eqn:Hn; simpl in H; [by injection H|]);
    injection H as <- <- <-; by exists l.
Qed.

Lemma createList_201_inv (db db' : Db) (userId : string) (boardId : ObjectId)
    (name : option string) (newId : ObjectId) (list : Doc List.t) :
  createList db userId boardId name newId = (db', mkResponse 201 (ListJson list)) ->
  exists b,
    Boards db !! boardId = Some b
    /\ Lists db !! newId = None
    /\ _id list = newId
    /\ List.board (fields list) = boardId
    /\ List.position (fields list)
       = countDocuments (fun l => String.eqb (List.board l) boardId) (Lists db)
    /\ db' = mkDb (Users db)
               (<[boardId := Board.mk (Board.name b) (Board.description b)
                               (Board.owner b) (Board.members b)
                               (Board.lists b ++ [newId]) (Board.isPublic b)]> (Boards db))
               (<[newId := fields list]> (Lists db))
               (Cards db).
Proof.
  unfold createList, findById, saveNew. intros H.
  destruct (Boards db !! boardId) as [b|] eqn:Hb; simpl in H; [|by injection H].
  destruct (accessDenied _ _ _); simpl in H; [by injection H|].
  destruct name as [[|c name]|]; simpl in H; try by injection H.
  destruct (Lists db !! newId) eqn:Hn; simpl in H; [by injection H|].
  injection H as <- <-. by exists b.
Qed.

Lemma countDocuments_insert_fresh {A} (p : A -> bool) (coll : gmap string A)
    (i : string) (x : A) :
  coll !! i = None -> p x = true ->
  countDocuments p (<[i := x]> coll) = countDocuments p coll + 1.
Proof.
  intros Hi Hp. rewrite !countDocuments_size.
  rewrite map_filter_insert_True by done.
  rewrite map_size_insert_None; [lia|].
  by rewrite map_lookup_filter_None_2; [|left].
Qed.

Lemma count_matches_array {A} (p : A -> bool) (coll : gmap string A)
    (ids : list string) :
  NoDup ids ->
  (forall i, i ∈ ids <-> exists x, coll !! i = Some x /\ p x = true) ->
  countDocuments p coll = Z.of_nat (length ids).
Proof.
  intros Hnd Hiff. rewrite countDocuments_size. f_equal.
  rewrite <- size_dom, <- (size_list_to_set (C:=gset string) ids) by done.
  f_equal. apply set_eq. intros i.
  rewrite elem_of_dom, elem_of_list_to_set, Hiff. unfold is_Some.
  setoid_rewrite map_lookup_filter_Some. simpl.
  split; intros (x & ? & ?); by exists x.
Qed.

Lemma count_cards_of_list (db : Db) (listId : ObjectId) (l : List.t) :
  Consistent db -> Lists db !! listId = Some l ->
  countDocuments (fun c => String.eqb (Card.list c) listId) (Cards db)
  = Z.of_nat (length (List.cards l)).
Proof.
  intros Hinv Hl. apply count_matches_array; [by eapply list_cards_once|].
  intros cid. split.
  - intros Hin. destruct (list_cards_stored db Hinv listId l cid Hl Hin) as (c & Hc & Hcl).
    exists c. split; [done|]. by apply String.eqb_eq.
  - intros (c & Hc & Hcl). apply String.eqb_eq in Hcl.
    destruct (card_in_list db Hinv cid c Hc) as (l0 & Hl0 & Hin).
    unfold ObjectId in *. by simplify_eq.
Qed.

Lemma count_lists_of_board (db : Db) (boardId : ObjectId) (b : Board.t) :
  Consistent db -> Boards db !! boardId = Some b ->
  countDocuments (fun l => String.eqb (List.board l) boardId) (Lists db)
  = Z.of_nat (length (Board.lists b)).
Proof.
  intros Hinv Hb. apply count_matches_array; [by eapply board_lists_once|].
  intros lid. split.
  - intros Hin. destruct (board_lists_stored db Hinv boardId b lid Hb Hin) as (l & Hl & Hlb).
    exists l. split; [done|]. by apply String.eqb_eq.
  - intros (l & Hl & Hlb). apply String.eqb_eq in Hlb.
    destruct (list_on_board db Hinv lid l Hl) as (b0 & Hb0 & Hin).
    unfold ObjectId in *. by simplify_eq.
Qed.

(** X16: on a consistent database the position given to a new list is the
    number of lists in the array of its board, so that after the call the
    list stands in that array at the index that is its position, index 0
    for the first list of a board; and the position given to a new card is
    the number of cards in the array of its list, so that after the call
    the card stands in that array at the index that is its position. Each
    holds of every successful call of its route. *)
Theorem new_position_is_array_index :
  (forall (db dbL : Db) (userId : string) (boardId : ObjectId) (name : option string)
          (newListId : ObjectId) (list : Doc List.t),
     Consistent db ->
     createList db userId boardId name newListId
     = (dbL, mkResponse 201 (ListJson list)) ->
     exists b b',
       Boards db !! boardId = Some b
       /\ List.position (fields list) = Z.of_nat (length (Board.lists b))
       /\ Boards dbL !! boardId = Some b'
       /\ Board.lists b' !! Z.to_nat (List.position (fields list)) = Some (_id list))
  /\ (forall (db dbC : Db) (userId : string) (boardId listId : ObjectId)
             (title description : option string) (dueDate : DateInput)
             (newCardId : ObjectId) (card : Doc Card.t)
             (createdBy : option (Doc User.t)),
        Consistent db ->
        createCard db userId boardId listId title description dueDate newCardId
        = (dbC, mkResponse 201 (PopulatedCardJson card createdBy)) ->
        exists l l',
          Lists db !! listId = Some l
          /\ Card.position (fields card) = Z.of_nat (length (List.cards l))
          /\ Lists dbC !! listId = Some l'
          /\ List.cards l' !! Z.to_nat (Card.position (fields card))
             = Some (_id card)).
Proof.
  split.
  - intros db dbL userId boardId name newListId list Hinv HL.
    apply createList_201_inv in HL as (b & Hb & Hnew & Hid & Hlb & Hpos & ->).
    simpl. rewrite lookup_insert_eq. exists b. eexists.
    rewrite Hpos, (count_lists_of_board db boardId b Hinv Hb), Nat2Z.id, Hid.
    repeat split; [done|]. simpl. by rewrite list_lookup_middle.
  - intros db dbC userId boardId listId title description dueDate newCardId card
      createdBy Hinv HC.
    apply createCard_201_inv in HC as (l & Hl & Hnew & Hid & Hcl & Hpos & ->).
    simpl. rewrite lookup_insert_eq. exists l. eexists.
    rewrite Hpos, (count_cards_of_list db listId l Hinv Hl), Nat2Z.id, Hid.
    repeat split; [done|]. simpl. by rewrite list_lookup_middle.
Qed.

(** X17: two cards created one after the other in the same list get
    consecutive positions, and so do two lists created one after the other
    on the same board, the first two lists of a board included. Each holds
    of every two successive successful calls of its route. *)
Theorem appends_take_consecutive_positions :
  (forall (db db1 db2 : Db) (userId userId' : string) (boardId listId : ObjectId)
          (title description title' description' : option string)
          (dueDate dueDate' : DateInput) (newId newId' : ObjectId)
          (card card' : Doc Card.t) (createdBy createdBy' : option (Doc User.t)),
     createCard db userId boardId listId title description dueDate newId
     = (db1, mkResponse 201 (PopulatedCardJson card createdBy)) ->
     createCard db1 userId' boardId listId title' description' dueDate' newId'
     = (db2, mkResponse 201 (PopulatedCardJson card' createdBy')) ->
     Card.position (fields card') = Card.position (fields card) + 1)
  /\ (forall (db dbL1 dbL2 : Db) (userId userId' : string) (boardId : ObjectId)
             (name name' : option string) (newListId newListId' : ObjectId)
             (list list' : Doc List.t),
        createList db userId boardId name newListId
        = (dbL1, mkResponse 201 (ListJson list)) ->
        createList dbL1 userId' boardId name' newListId'
        = (dbL2, mkResponse 201 (ListJson list')) ->
        List.position (fields list') = List.position (fields list) + 1).
Proof.
  split.
  - intros db db1 db2 userId userId' boardId listId title description title'
      description' dueDate dueDate' newId newId' card card' createdBy createdBy' H1 H2.
    apply createCard_201_inv in H1 as (l & Hl & Hnew & Hid & Hcl & Hpos & ->).
    apply createCard_201_inv in H2 as (l' & _ & _ & _ & _ & Hpos' & _).
    simpl in Hpos'. rewrite Hpos', Hpos.
    apply countDocuments_insert_fresh; [done|]. by apply String.eqb_eq.
  - intros db dbL1 dbL2 userId userId' boardId name name' newListId newListId'
      list list' L1 L2.
    apply createList_201_inv in L1 as (b & Hb & Hnew & Hid & Hlb & Hpos & ->).
    apply createList_201_inv in L2 as (b' & _ & _ & _ & _ & Hpos' & _).
    simpl in Hpos'. rewrite Hpos', Hpos.
    apply countDocuments_insert_fresh; [done|]. by apply String.eqb_eq.
Qed.

Ltac answer_of H :=
  apply (f_equal snd) in H; vm_compute in H; congruence.

Lemma boardDb_consistent : Consistent boardDb.
Proof.
  apply serve_consistent; [apply emptyDb_consistent|apply emptyDb_titled|exact I].
Qed.

Lemma new_position_is_array_index_witness :
  Consistent boardDb /\ Consistent builtDb
  /\ (exists dbL b',
        createList boardDb "u1" "b1" (Some "Backlog") "l1"
        = (dbL, mkResponse 201 (ListJson (mkDoc "l1" (List.mk "Backlog" "b1" 0 []))))
        /\ Boards dbL !! "b1" = Some b' /\ Board.lists b' !! 0%nat = Some "l1")
  /\ (exists dbC l',
        createCard builtDb "u1" "b1" "l1" (Some "Write docs") None NoDate "c2"
        = (dbC, mkResponse 201
                  (PopulatedCardJson
                     (mkDoc "c2" (Card.mk "Write docs" EmptyString "l1" 1 None Low Todo
                                          "u1" []))
                     None))
        /\ Lists dbC !! "l1" = Some l' /\ List.cards l' !! 1%nat = Some "c2").
Proof.
  destruct new_position_is_array_index as [Hlist Hcard].
  split; [apply boardDb_consistent|]. split; [apply builtDb_consistent|]. split.
  - destruct (createList boardDb "u1" "b1" (Some "Backlog") "l1") as [dbL resL] eqn:HL.
    assert (HresL : resL = mkResponse 201
                      (ListJson (mkDoc "l1" (List.mk "Backlog" "b1" 0 []))))
      by answer_of HL.
    subst resL.
    destruct (Hlist _ _ _ _ _ _ _ boardDb_consistent HL) as (b & b' & _ & _ & Hb' & Hi).
    exists dbL, b'. repeat split; assumption.
  - destruct (createCard builtDb "u1" "b1" "l1" (Some "Write docs") None NoDate "c2")
      as [dbC resC] eqn:HC.
    assert (HresC : resC = mkResponse 201
                      (PopulatedCardJson
                         (mkDoc "c2" (Card.mk "Write docs" EmptyString "l1" 1 None Low
                                              Todo "u1" []))
                         None))
      by answer_of HC.
    subst resC.
    destruct (Hcard _ _ _ _ _ _ _ _ _ _ _ builtDb_consistent HC)
      as (l & l' & _ & _ & Hl' & Hj).
    exists dbC, l'. repeat split; assumption.
Defined.

Lemma appends_take_consecutive_positions_witness :
  (exists db1 db2 card card' createdBy createdBy',
     createCard sampleDb "u1" "b1" "l1" (Some "Plan demo") None NoDate "c6"
     = (db1, mkResponse 201 (PopulatedCardJson card createdBy))
     /\ createCard db1 "u2" "b1" "l1" (Some "Book room") None NoDate "c7"
        = (db2, mkResponse 201 (PopulatedCardJson card' createdBy'))
     /\ Card.position (fields card) = 2 /\ Card.position (fields card') = 3)
  /\ (exists dbL1 dbL2 list list',
        createList ownedDb "u1" "b1" (Some "Backlog") "l1"
        = (dbL1, mkResponse 201 (ListJson list))
        /\ createList dbL1 "u2" "b1" (Some "Doing") "l2"
           = (dbL2, mkResponse 201 (ListJson list'))
        /\ List.position (fields list) = 0 /\ List.position (fields list') = 1).
Proof.
  destruct appends_take_consecutive_positions as [Hcards Hlists].
  split.
  - destruct (createCard sampleDb "u1" "b1" "l1" (Some "Plan demo") None NoDate "c6")
      as [db1 res1] eqn:H1.
    destruct (createCard db1 "u2" "b1" "l1" (Some "Book room") None NoDate "c7")
      as [db2 res2] eqn:H2.
    assert (Hres1 : res1 = mkResponse 201 (PopulatedCardJson
               (mkDoc "c6" (Card.mk "Plan demo" EmptyString "l1" 2 None Low Todo "u1" []))
               (Some (mkDoc "u1" (User.mk "Ann" "ann@example.org" "h1")))))
      by (clear H2; answer_of H1).
    assert (Hres2 : res2 = mkResponse 201 (PopulatedCardJson
               (mkDoc "c7" (Card.mk "Book room" EmptyString "l1" 3 None Low Todo "u2" []))
               (Some (mkDoc "u2" (User.mk "Bob" "bob@example.org" "h2")))))
      by (apply (f_equal fst) in H1; simpl in H1; subst db1; answer_of H2).
    subst res1 res2.
    pose proof (Hcards _ _ _ _ _ _ _ _ _ _ _ _ _ _ _ _ _ _ _ H1 H2) as Hnext.
    do 6 eexists. split; [reflexivity|]. split; [exact H2|].
    split; [reflexivity|]. rewrite Hnext. reflexivity.
  - destruct (createList ownedDb "u1" "b1" (Some "Backlog") "l1") as [dbL1 resL1] eqn:L1.
    destruct (createList dbL1 "u2" "b1" (Some "Doing") "l2") as [dbL2 resL2] eqn:L2.
    assert (Hres1 : resL1 = mkResponse 201
                      (ListJson (mkDoc "l1" (List.mk "Backlog" "b1" 0 []))))
      by (clear L2; answer_of L1).
    assert (Hres2 : resL2 = mkResponse 201
                      (ListJson (mkDoc "l2" (List.mk "Doing" "b1" 1 []))))
      by (apply (f_equal fst) in L1; simpl in L1; subst dbL1; answer_of L2).
    subst resL1 resL2.
    pose proof (Hlists _ _ _ _ _ _ _ _ _ _ _ _ L1 L2) as Hnext.
    do 4 eexists. split; [reflexivity|]. split; [exact L2|].
    split; [reflexivity|]. rewrite Hnext. reflexivity.
Defined.

(** ** Invitations, moves, new boards *)

(** X18: when the owner invites, by its address, a stored user who is not a
    member, the answer is 200, the user is appended to the members of the
    board and passes the access check from then on, nothing else changes,
    and the same invitation sent again is answered 400 without a write. *)
Theorem invite_adds_member_once
    (db : Db) (userId : string) (id : ObjectId) (email : string)
    (b : Board.t) (u : Doc User.t) :
  Boards db !! id = Some b ->
  Board.owner b = userId ->
  findOne (fun u => String.eqb (User.email u) email) (Users db) = Some u ->
  _id u ∉ Board.members b ->
  exists db' b',
    invite db userId id email
    = (db', mkResponse 200 (Message "User invited successfully"))
    /\ Boards db' = <[id := b']> (Boards db)
    /\ Users db' = Users db /\ Lists db' = Lists db /\ Cards db' = Cards db
    /\ Board.members b' = Board.members b ++ [_id u]
    /\ Board.owner b' = Board.owner b /\ Board.lists b' = Board.lists b
    /\ canAccess b' (_id u) = true
    /\ invite db' userId id email
       = (db', mkResponse 400 (Message "User already in board")).
Proof.
  intros Hb Ho Hu Hnot. subst userId.
  assert (Hsome : some (String.eqb (_id u)) (Board.members b) = false).
  { apply some_false. intros m Hm. apply String.eqb_neq. by intros <-. }
  eexists _, (Board.mk _ _ _ _ _ _). split.
  { unfold invite, findById. rewrite Hb. simpl. rewrite String.eqb_refl. simpl.
    rewrite Hu, Hsome. unfold push. reflexivity. }
  simpl. repeat split.
  - apply canAccess_iff. right. simpl. apply elem_of_app. right. left.
  - unfold invite, findById. simpl. rewrite lookup_insert_eq. simpl.
    rewrite String.eqb_refl. simpl. rewrite Hu.
    assert (some (String.eqb (_id u)) (Board.members b ++ [_id u]) = true) as ->; [|done].
    apply some_true. exists (_id u). split; [|apply String.eqb_refl].
    apply elem_of_app. right. left.
Qed.

Lemma invite_adds_member_once_witness :
  exists db' b',
    invite sampleDb "u1" "b1" "cy@example.org"
    = (db', mkResponse 200 (Message "User invited successfully"))
    /\ Boards db' !! "b1" = Some b'
    /\ Board.members b' = ["u1"; "u2"; "u3"]
    /\ canAccess b' "u3" = true
    /\ invite db' "u1" "b1" "cy@example.org"
       = (db', mkResponse 400 (Message "User already in board")).
Proof.
  destruct (invite_adds_member_once sampleDb "u1" "b1" "cy@example.org" sampleBoard
              (mkDoc "u3" (User.mk "Cy" "cy@example.org" "h3")))
    as (db' & b' & Hi & Hb' & _ & _ & _ & Hm & _ & _ & Hacc & Hagain).
  - vm_compute. reflexivity.
  - reflexivity.
  - vm_compute. reflexivity.
  - simpl. intros Hin. apply list_elem_of_In in Hin. simpl in Hin.
    destruct Hin as [|[|[]]]; discriminate.
  - exists db', b'. split; [exact Hi|]. split; [by rewrite Hb', lookup_insert_eq|].
    split; [exact Hm|]. split; [exact Hacc|exact Hagain].
Defined.


(** X27: a move between two different lists of a stored card whose title
    is empty, by a user who can access the board of the destination,
    answers 500 and leaves the store inconsistent: the card has left the
    cards of the list that it still names and stands in the cards of the
    destination, the card itself being as it was, its [save] having
    failed after the two list updates. *)
Theorem failed_move_breaks_consistency
    (db : Db) (userId : string) (id newListId : ObjectId) (position : option Z)
    (card : Card.t) (a b : List.t) (board : Board.t) :
  Cards db !! id = Some card ->
  Card.title card = EmptyString ->
  Lists db !! Card.list card = Some a ->
  Lists db !! newListId = Some b ->
  Card.list card <> newListId ->
  Boards db !! List.board b = Some board ->
  canAccess board userId = true ->
  exists db',
    moveCard db userId id newListId position = (db', serverError)
    /\ Cards db' = Cards db
    /\ Lists db' !! Card.list card = Some (pull id a)
    /\ Lists db' !! newListId = Some (pushCard id b)
    /\ (id ∉ List.cards (pull id a))
    /\ id ∈ List.cards (pushCard id b)
    /\ (~ Consistent db').
Proof.
  intros Hcard Htitle Ha Hb Hne Hboard Hacc. eexists.
  split; [by apply (moveCard_fails_validation db userId id newListId position card a b board)|].
  simpl.
  assert (Hold : alter (pushCard id) newListId
                   (alter (pull id) (Card.list card) (Lists db)) !! Card.list card
                 = Some (pull id a))
    by (by rewrite lookup_alter_ne, lookup_alter_eq, Ha).
  assert (Hnot : id ∉ List.cards (pull id a))
    by (simpl; rewrite list_elem_of_filter; tauto).
  split; [done|]. split; [exact Hold|].
  split; [by rewrite lookup_alter_eq, lookup_alter_ne, Hb|].
  split; [exact Hnot|].
  split; [simpl; unfold push; apply elem_of_app; right; left|].
  intros Hinv. destruct (card_in_list _ Hinv id card Hcard) as (l & Hl & Hin).
  simpl in Hl. unfold ObjectId in *. rewrite Hold in Hl. injection Hl as <-. done.
Qed.

Lemma failed_move_breaks_consistency_witness :
  Cards untitledDb !! "c1"
  = Some (Card.mk EmptyString EmptyString "l1" 0 None Critical Todo "u1" [])
  /\ exists db',
       moveCard untitledDb "u2" "c1" "l2" None = (db', serverError)
       /\ Cards db' = Cards untitledDb
       /\ Lists db' !! "l1" = Some (List.mk "Backlog" "b1" 0 ["c2"])
       /\ Lists db' !! "l2" = Some (List.mk "In Progress" "b1" 1 ["c3"; "c4"; "c1"])
       /\ (~ Consistent db').
Proof.
  split; [vm_compute; reflexivity|].
  destruct (failed_move_breaks_consistency untitledDb "u2" "c1" "l2" None
              (Card.mk EmptyString EmptyString "l1" 0 None Critical Todo "u1" [])
              (List.mk "Backlog" "b1" 0 ["c1"; "c2"])
              (List.mk "In Progress" "b1" 1 ["c3"; "c4"])
              sampleBoard)
    as (db' & Hm & Hcards & Hl1 & Hl2 & _ & _ & Hbad).
  - vm_compute. reflexivity.
  - reflexivity.
  - vm_compute. reflexivity.
  - vm_compute. reflexivity.
  - discriminate.
  - vm_compute. reflexivity.
  - vm_compute. reflexivity.
  - exists db'. split; [exact Hm|]. split; [exact Hcards|].
    split; [exact Hl1|]. split; [exact Hl2|exact Hbad].
Defined.

(** X20: a successful move between two different lists takes the card out
    of the cards of the list it leaves, keeping the order of the others, and
    puts it at the end of the cards of the destination, whatever position
    the request asks for and the card stores; every other list, every other
    card, the boards and the users are untouched. *)
Theorem moveCard_appends_at_end
    (db db' : Db) (userId : string) (id newListId : ObjectId) (position : option Z)
    (card : Card.t) (res : Response) :
  Cards db !! id = Some card ->
  Card.list card <> newListId ->
  moveCard db userId id newListId position = (db', res) ->
  code res = 200 ->
  (exists a b,
     Lists db !! Card.list card = Some a /\ Lists db !! newListId = Some b
     /\ Lists db' !! Card.list card
        = Some (List.mk (List.name a) (List.board a) (List.position a)
                        (filter (fun c => c <> id) (List.cards a)))
     /\ Lists db' !! newListId
        = Some (List.mk (List.name b) (List.board b) (List.position b)
                        (List.cards b ++ [id])))
  /\ (forall lid, lid <> Card.list card -> lid <> newListId ->
                  Lists db' !! lid = Lists db !! lid)
  /\ (forall cid, cid <> id -> Cards db' !! cid = Cards db !! cid)
  /\ Boards db' = Boards db /\ Users db' = Users db.
Proof.
  intros Hcard Hne Hm Hcode.
  destruct (moveCard_200 _ _ _ _ _ _ _ Hm Hcode)
    as (card0 & oldList & newList & board & Hcard0 & Hold & Hnew & Hboard & Hacc & Htitle).
  assert (card0 = card) as -> by congruence.
  rewrite (moveCard_succeeds _ _ _ _ position _ _ _ _ Hcard Hold Hnew Hboard Hacc Htitle)
    in Hm.
  injection Hm as <- <-. simpl. split; [|split; [|split]].
  - exists oldList, newList. split; [done|]. split; [done|]. split.
    + by rewrite lookup_alter_ne, lookup_alter_eq, Hold.
    + by rewrite lookup_alter_eq, lookup_alter_ne, Hnew.
  - intros lid H1 H2. by rewrite !lookup_alter_ne.
  - intros cid Hcid. by rewrite lookup_insert_ne.
  - done.
Qed.

Lemma moveCard_appends_at_end_witness :
  exists db' res b,
    moveCard sampleDb "u2" "c1" "l2" (Some 0) = (db', res)
    /\ code res = 200
    /\ Lists db' !! "l2" = Some b
    /\ List.cards b = ["c3"; "c4"; "c1"]
    /\ Boards db' = Boards sampleDb.
Proof.
  destruct (moveCard sampleDb "u2" "c1" "l2" (Some 0)) as [db' res] eqn:Hm.
  assert (Hres : res = mkResponse 200 (CardJson (mkDoc "c1"
            (Card.mk "Fix login" EmptyString "l2" 0 None Critical Todo "u1" []))))
    by (apply (f_equal snd) in Hm; vm_compute in Hm; congruence).
  assert (Hcode : code res = 200) by (by rewrite Hres).
  destruct (moveCard_appends_at_end sampleDb db' "u2" "c1" "l2" (Some 0)
              (Card.mk "Fix login" EmptyString "l1" 0 None Critical Todo "u1" []) res)
    as ((a & b & Ha & Hb & _ & Hb') & _ & _ & Hboards & _).
  - vm_compute. reflexivity.
  - discriminate.
  - exact Hm.
  - exact Hcode.
  - exists db', res. eexists. split; [reflexivity|]. split; [exact Hcode|].
    split; [exact Hb'|]. split; [|exact Hboards].
    simpl in Hb. vm_compute in Hb. injection Hb as <-. reflexivity.
Defined.

(** X21: the boards that [GET /] selects for a user are exactly the stored
    boards for which the access check of the other routes succeeds: those
    that the user owns or is a member of. *)
Theorem boardsFor_iff_canAccess (db : Db) (userId : string) (id : ObjectId) (b : Board.t) :
  boardsFor db userId !! id = Some b
  <-> Boards db !! id = Some b /\ canAccess b userId = true.
Proof.
  unfold boardsFor. rewrite map_lookup_filter_Some. simpl.
  by rewrite canAccess_iff.
Qed.

(** X22: with a name that is not empty and an identifier that is free,
    [createBoard] answers 201 and stores a board that the user owns, with
    the user as only member and no list; the user passes the access check
    on it and finds it among the boards selected by [GET /]; the boards
    stored before, the lists, the cards and the users are as they were.
    Without a name the answer is 500 and nothing is stored. *)
Theorem createBoard_owner_is_member
    (db : Db) (userId : string) (c : ascii) (name : string)
    (description : option string) (newId : ObjectId) :
  Boards db !! newId = None ->
  exists db' board,
    createBoard db userId (Some (String c name)) description newId
    = (db', Created (mkDoc newId board))
    /\ Boards db' = <[newId := board]> (Boards db)
    /\ Users db' = Users db /\ Lists db' = Lists db /\ Cards db' = Cards db
    /\ Board.owner board = userId
    /\ Board.members board = [userId]
    /\ Board.lists board = []
    /\ canAccess board userId = true
    /\ boardsFor db' userId !! newId = Some board
    /\ createBoard db userId None description newId = (db, Failed serverError).
Proof.
  intros Hnew. eexists _, (Board.mk _ _ _ _ _ _). split.
  { unfold createBoard, saveNew. simpl. rewrite Hnew. reflexivity. }
  simpl. repeat split.
  - apply canAccess_owner.
  - unfold boardsFor. apply map_lookup_filter_Some. simpl.
    rewrite lookup_insert_eq. split; [done|]. by left.
Qed.

Lemma createBoard_owner_is_member_witness :
  exists db' board,
    createBoard sampleDb "u3" (Some "Ideas") None "b2" = (db', Created (mkDoc "b2" board))
    /\ Board.members board = ["u3"]
    /\ canAccess board "u3" = true
    /\ boardsFor db' "u3" !! "b2" = Some board.
Proof.
  destruct (createBoard_owner_is_member sampleDb "u3" "I" "deas" None "b2")
    as (db' & board & Hc & _ & _ & _ & _ & _ & Hm & _ & Hacc & Hfor & _).
  - vm_compute. reflexivity.
  - exists db', board. repeat split; assumption.
Defined.

(** ** Editing a card *)

Lemma patchCard_succeeds (db : Db) (userId : string) (id : ObjectId)
    (updates : CardUpdates.t) (c : Card.t) (l : List.t) (b : Board.t) :
  Cards db !! id = Some c ->
  Lists db !! Card.list c = Some l ->
  Boards db !! List.board l = Some b ->
  canAccess b userId = true ->
  CardUpdates.dueDate updates <> BadDate ->
  let dueDate := match CardUpdates.dueDate updates with
                 | SetDate t => Some t
                 | ClearDate => None
                 | _ => Card.dueDate c
                 end in
  patchCard db userId id updates =
  (mkDb (Users db) (Boards db) (Lists db)
        (<[id := applyUpdates updates dueDate c]> (Cards db)),
   mkResponse 200
     (PopulatedCardJson (mkDoc id (applyUpdates updates dueDate c))
        (findById (Users db) (Card.createdBy (applyUpdates updates dueDate c))))).
Proof.
  intros Hc Hl Hb Hacc Hdate. unfold patchCard, findById.
  rewrite Hc. simpl. rewrite Hl. simpl. rewrite Hb. simpl.
  unfold canAccess in Hacc. apply negb_true_iff in Hacc. rewrite Hacc.
  by destruct (CardUpdates.dueDate updates).
Qed.

(** X23: a patch that sets the due date of a card to an instant, by a user
    who can access the card's board, answers 200 and stores that instant;
    the paths that the patch does not name keep their values, and the
    lists, boards and users are untouched. Read back by an empty patch, the
    card shows the same instant, and that reading changes nothing. *)
Theorem patchCard_dueDate_round_trip
    (db : Db) (userId : string) (id : ObjectId) (updates : CardUpdates.t)
    (c : Card.t) (l : List.t) (b : Board.t) (t : Z) :
  Cards db !! id = Some c ->
  Lists db !! Card.list c = Some l ->
  Boards db !! List.board l = Some b ->
  canAccess b userId = true ->
  CardUpdates.dueDate updates = SetDate t ->
  CardUpdates.list updates = None ->
  exists db' c' createdBy,
    patchCard db userId id updates
    = (db', mkResponse 200 (PopulatedCardJson (mkDoc id c') createdBy))
    /\ Cards db' = <[id := c']> (Cards db)
    /\ Lists db' = Lists db /\ Boards db' = Boards db /\ Users db' = Users db
    /\ Card.dueDate c' = Some t
    /\ Card.list c' = Card.list c
    /\ (CardUpdates.title updates = None -> Card.title c' = Card.title c)
    /\ (CardUpdates.status updates = None -> Card.status c' = Card.status c)
    /\ (CardUpdates.priority updates = None -> Card.priority c' = Card.priority c)
    /\ (CardUpdates.position updates = None -> Card.position c' = Card.position c)
    /\ patchCard db' userId id CardUpdates.none
       = (db', mkResponse 200 (PopulatedCardJson (mkDoc id c') createdBy)).
Proof.
  intros Hc Hl Hb Hacc Hdate Hlist.
  assert (Hok : CardUpdates.dueDate updates <> BadDate) by (rewrite Hdate; discriminate).
  pose proof (patchCard_succeeds db userId id updates c l b Hc Hl Hb Hacc Hok) as Hp.
  simpl in Hp. rewrite Hdate in Hp.
  assert (Hsame : Card.list (applyUpdates updates (Some t) c) = Card.list c)
    by (unfold applyUpdates; simpl; by rewrite Hlist).
  eexists _, _, _. split; [exact Hp|]. simpl.
  repeat split; try done;
    try (intros Hnone; unfold applyUpdates; simpl; by rewrite Hnone).
  assert (Hl' : Lists db !! Card.list (applyUpdates updates (Some t) c) = Some l)
    by (by rewrite Hsame).
  rewrite (patchCard_succeeds
             (mkDb (Users db) (Boards db) (Lists db)
                   (<[id := applyUpdates updates (Some t) c]> (Cards db)))
             userId id CardUpdates.none (applyUpdates updates (Some t) c) l b
             (lookup_insert_eq _ _ _) Hl' Hb Hacc ltac:(discriminate)).
  simpl. by rewrite insert_insert_eq.
Qed.

Lemma patchCard_dueDate_round_trip_witness :
  exists db' c' createdBy,
    patchCard sampleDb "u2" "c1"
      (CardUpdates.mk None None None None (SetDate (day 20003)) None None None None)
    = (db', mkResponse 200 (PopulatedCardJson (mkDoc "c1" c') createdBy))
    /\ Card.dueDate c' = Some (day 20003)
    /\ Card.title c' = "Fix login"
    /\ patchCard db' "u2" "c1" CardUpdates.none
       = (db', mkResponse 200 (PopulatedCardJson (mkDoc "c1" c') createdBy)).
Proof.
  destruct (patchCard_dueDate_round_trip sampleDb "u2" "c1"
              (CardUpdates.mk None None None None (SetDate (day 20003)) None None None None)
              (Card.mk "Fix login" EmptyString "l1" 0 None Critical Todo "u1" [])
              (List.mk "Backlog" "b1" 0 ["c1"; "c2"]) sampleBoard (day 20003))
    as (db' & c' & cb & Hp & _ & _ & _ & _ & Hd & _ & Ht & _ & _ & _ & Hread);
    try (vm_compute; reflexivity).
  exists db', c', cb. split; [exact Hp|]. split; [exact Hd|].
  split; [exact (Ht eq_refl)|exact Hread].
Defined.

(** X24: [patchCard] reads the list of the card and the board of that list
    without a test: when the card is stored but its list is not, or the
    list is stored but its board is not, the answer is 500 and nothing is
    written (where [moveCard] answers 404). *)
Theorem patchCard_dangling_is_500
    (db : Db) (userId : string) (id : ObjectId) (updates : CardUpdates.t) (c : Card.t) :
  Cards db !! id = Some c ->
  (Lists db !! Card.list c = None
   \/ exists l, Lists db !! Card.list c = Some l /\ Boards db !! List.board l = None) ->
  patchCard db userId id updates = (db, mkResponse 500 (Message "Server error")).
Proof.
  intros Hc [Hl|(l & Hl & Hb)]; unfold patchCard, findById; rewrite Hc; simpl;
    rewrite Hl; simpl; [done|]. by rewrite Hb.
Qed.

Lemma patchCard_dangling_is_500_witness :
  patchCard (mkDb (Users sampleDb) (Boards sampleDb) (delete "l1" (Lists sampleDb))
               (Cards sampleDb)) "u1" "c1" CardUpdates.none
  = (mkDb (Users sampleDb) (Boards sampleDb) (delete "l1" (Lists sampleDb))
          (Cards sampleDb),
     mkResponse 500 (Message "Server error")).
Proof.
  apply (patchCard_dangling_is_500 _ "u1" "c1" CardUpdates.none
           (Card.mk "Fix login" EmptyString "l1" 0 None Critical Todo "u1" [])).
  - vm_compute. reflexivity.
  - left. vm_compute. reflexivity.
Defined.

Lemma patchCard_200 (db db' : Db) (userId : string) (id : ObjectId)
    (updates : CardUpdates.t) (res : Response) :
  patchCard db userId id updates = (db', res) ->
  code res = 200 ->
  exists c dueDate,
    Cards db !! id = Some c
    /\ db' = mkDb (Users db) (Boards db) (Lists db)
               (<[id := applyUpdates updates dueDate c]> (Cards db)).
Proof.
  unfold patchCard, findById. intros Hp Hcode.
  destruct (Cards db !! id) as [c|] eqn:Hc; simpl in Hp; [|injection Hp as <- <-; done].
  destruct (Lists db !! Card.list c) as [l|]; simpl in Hp; [|injection Hp as <- <-; done].
  destruct (Boards db !! List.board l) as [b|]; simpl in Hp;
    [|injection Hp as <- <-; done].
  destruct (accessDenied _ _ _); simpl in Hp; [injection Hp as <- <-; done|].
  destruct (CardUpdates.dueDate updates); simpl in Hp;
    injection Hp as <- <-; try done; by eexists _, _.
Qed.

(** X25: once a patch has set the status of a card to Done, the answers of
    [getRecommendations] report no status advisory about that card and none
    of [overdue], [due_soon] and [upcoming_deadline]: what is left for it are
    the priority advisories, the missing due date and [move_to_done]. *)
Theorem done_card_after_patch
    (db db' : Db) (userId userId' : string) (id boardId : ObjectId)
    (updates : CardUpdates.t) (res : Response) (now : Z) (b : Board.t) :
  patchCard db userId id updates = (db', res) ->
  code res = 200 ->
  CardUpdates.status updates = Some Done ->
  Boards db' !! boardId = Some b ->
  canAccess b userId' = true ->
  exists out,
    getRecommendations db' userId' boardId now
    = mkResponse 200 (RecommendationsJson out)
    /\ forall a, a ∈ out -> cardId a = id ->
         type a = critical_priority \/ type a = high_priority_waiting
         \/ type a = no_due_date_high_priority \/ type a = move_to_done.
Proof.
  intros Hp Hcode Hst Hb Hacc.
  destruct (patchCard_200 _ _ _ _ _ _ Hp Hcode) as (c & d & Hc & ->).
  eexists. split; [by apply getRecommendations_ok|].
  intros a Ha Hid. rewrite sort_elem in Ha.
  apply concatenated_reports in Ha as (card & Hcard & Hcid & _ & Hj).
  apply allCards_stored in Hcard as (_ & _ & _ & _ & _ & Hstored).
  simpl in Hstored. rewrite <- Hcid, Hid, lookup_insert_eq in Hstored.
  injection Hstored as Hfields.
  assert (Hdone : Card.status (fields card) = Done).
  { rewrite <- Hfields. unfold applyUpdates. simpl. by rewrite Hst. }
  revert Hj. destruct (type a); simpl; intros Hj; auto; exfalso;
    repeat match goal with
           | H : exists _, _ |- _ => destruct H
           | H : _ /\ _ |- _ => destruct H
           end; congruence.
Qed.

Lemma done_card_after_patch_witness :
  exists db' res out,
    patchCard sampleDb "u2" "c3"
      (CardUpdates.mk None None None None KeepDate None (Some Done) None None)
    = (db', res)
    /\ code res = 200
    /\ getRecommendations db' "u1" "b1" sampleNow
       = mkResponse 200 (RecommendationsJson out)
    /\ forall a, a ∈ out -> cardId a = "c3" ->
         type a = critical_priority \/ type a = high_priority_waiting
         \/ type a = no_due_date_high_priority \/ type a = move_to_done.
Proof.
  destruct (patchCard sampleDb "u2" "c3"
      (CardUpdates.mk None None None None KeepDate None (Some Done) None None))
    as [db' res] eqn:Hp.
  assert (Hres : res = mkResponse 200 (PopulatedCardJson
            (mkDoc "c3" (Card.mk "Ship build" EmptyString "l2" 0 (Some (day 19999))
                           Medium Done "u2" []))
            (Some (mkDoc "u2" (User.mk "Bob" "bob@example.org" "h2")))))
    by (apply (f_equal snd) in Hp; cbn [snd] in Hp; rewrite <- Hp; vm_compute;
        reflexivity).
  assert (Hcode : code res = 200) by (by rewrite Hres).
  assert (Hb : Boards db' !! "b1" = Some sampleBoard).
  { destruct (patchCard_200 _ _ _ _ _ _ Hp Hcode) as (c & d & _ & ->).
    vm_compute. reflexivity. }
  destruct (done_card_after_patch sampleDb db' "u2" "u1" "c3" "b1" _ res sampleNow
              sampleBoard Hp Hcode eq_refl Hb ltac:(vm_compute; reflexivity))
    as (out & Hout & Hquiet).
  exists db', res, out. repeat split; assumption.
Defined.

(** ** What the rules read of a board *)

Lemma find_Forall2 {A} (R : A -> A -> Prop) (p p' : A -> bool) (l l' : list A) :
  Forall2 R l l' -> (forall x y, R x y -> p x = p' y) ->
  option_Forall2 R (find p l) (find p' l').
Proof.
  intros HF Hp. induction HF as [|x y l l' Hxy _ IH]; simpl; [constructor|].
  rewrite <- (Hp x y Hxy). destruct (p x); [by constructor|done].
Qed.

Lemma findIndexFrom_Forall2 {A} (R : A -> A -> Prop) (p p' : A -> bool) (l l' : list A)
    (i : Z) :
  Forall2 R l l' -> (forall x y, R x y -> p x = p' y) ->
  findIndexFrom p l i = findIndexFrom p' l' i.
Proof.
  intros HF Hp. revert i. induction HF as [|x y l l' Hxy _ IH]; intros i; simpl; [done|].
  rewrite <- (Hp x y Hxy). destruct (p x); [done|apply IH].
Qed.

Lemma at_index_Forall2 {A} (R : A -> A -> Prop) (l l' : list A) (i : Z) :
  Forall2 R l l' -> option_Forall2 R (at_index l i) (at_index l' i).
Proof.
  intros HF. unfold at_index. destruct (i <? 0); [constructor|].
  generalize (Z.to_nat i). intros n. revert n.
  induction HF as [|x y l l' Hxy _ IH]; intros [|n]; simpl; try constructor; auto.
Qed.

Lemma rules_agree (board board' : PBoard.t) (card : Doc Card.t) :
  Forall2 (sameFor card) (PBoard.lists board) (PBoard.lists board') ->
  priorityRules board card = priorityRules board' card
  /\ alertsFor board card = alertsFor board' card.
Proof.
  intros HF.
  assert (Hname : forall s (x y : PList.t), sameFor card x y ->
                    nameIncludes x s = nameIncludes y s).
  { intros s x y [Hn _]. unfold nameIncludes. by rewrite Hn. }
  split.
  - unfold priorityRules.
    pose proof (find_Forall2 (sameFor card)
                  (fun l => nameIncludes l "in progress")
                  (fun l => nameIncludes l "in progress") _ _ HF
                  (Hname "in progress")) as H1.
    pose proof (find_Forall2 (sameFor card)
                  (fun l => nameIncludes l "todo" || nameIncludes l "backlog")
                  (fun l => nameIncludes l "todo" || nameIncludes l "backlog") _ _ HF
                  ltac:(intros x y Hxy; simpl; by rewrite (Hname "todo" x y Hxy),
                                                   (Hname "backlog" x y Hxy))) as H2.
    destruct H1 as [x y [_ Hxy]|]; destruct H2 as [x' y' [_ Hxy']|];
      rewrite ?Hxy, ?Hxy'; done.
  - unfold alertsFor, alertRules, currentList, findIndex.
    rewrite (findIndexFrom_Forall2 (sameFor card) (hasCard card) (hasCard card)
               _ _ 0 HF ltac:(by intros x y [_ ?])).
    pose proof (at_index_Forall2 (sameFor card) _ _
                  (findIndexFrom (hasCard card) (PBoard.lists board') 0) HF) as H1.
    pose proof (find_Forall2 (sameFor card)
                  (fun l => nameIncludes l "done" || nameIncludes l "complete")
                  (fun l => nameIncludes l "done" || nameIncludes l "complete") _ _ HF
                  ltac:(intros x y Hxy; simpl; by rewrite (Hname "done" x y Hxy),
                                                   (Hname "complete" x y Hxy))) as H2.
    case_decide; [|done].
    destruct H1 as [x y Hxy|]; [|done]. rewrite (Hname "done" x y Hxy).
    destruct (negb _); [|done]. by destruct H2.
Qed.


(** ** A new card and the recommendations *)

Lemma quiet_no_advisory (board : PBoard.t) (now : Z) (card : Doc Card.t) :
  quiet (fields card) ->
  alertsFor board card = [] /\ priorityRules board card = []
  /\ dueDateRules now card = [] /\ statusRules now card = [].
Proof.
  intros (Hp & Hs & Hd).
  unfold alertsFor, alertRules, priorityRules, dueDateRules, statusRules.
  rewrite Hp, Hs, Hd. simpl. done.
Qed.

Lemma createCard_201_defaults (db db' : Db) (userId : string) (boardId listId : ObjectId)
    (title description : option string) (newId : ObjectId)
    (card : Doc Card.t) (createdBy : option (Doc User.t)) :
  createCard db userId boardId listId title description NoDate newId
  = (db', mkResponse 201 (PopulatedCardJson card createdBy)) ->
  quiet (fields card).
Proof.
  unfold createCard, findById, saveNew. intros H.
  destruct (Boards db !! boardId) as [board|]; simpl in H; [|by injection H].
  destruct (Lists db !! listId) as [l|] eqn:Hl; simpl in H; [|by injection H].
  destruct (negb _); simpl in H; [by injection H|].
  destruct (accessDenied _ _ _); simpl in H; [by injection H|].
  destruct title as [[|c title]|]; simpl in H; try by injection H.
  destruct (Cards db !! newId) eqn:Hn; simpl in H; [by injection H|].
  injection H as <- <- <-. done.
Qed.

Section NewCard.
Variable db : Db.
Variable newId : string.
Variable c0 : Card.t.
Variable listId : string.
Variable l : List.t.
Hypothesis fresh : Cards db !! newId = None.
Hypothesis stored : Lists db !! listId = Some l.

Lemma findById_card_new (cid : string) :
  findById (Cards (withCard db listId l newId c0)) cid
  = if decide (cid = newId) then Some (mkDoc newId c0) else findById (Cards db) cid.
Proof.
  unfold findById, withCard. simpl. case_decide as Hc.
  - subst. by rewrite lookup_insert_eq.
  - by rewrite lookup_insert_ne.
Qed.

Lemma populateCards_new (ids : list string) :
  without newId (populateCards (withCard db listId l newId c0) ids) = populateCards db ids
  /\ forall x, x ∈ populateCards (withCard db listId l newId c0) ids ->
               _id x = newId -> x = mkDoc newId c0.
Proof.
  assert (Hf : findById (Cards db) newId = None) by (clear -fresh; unfold findById, ObjectId in *; by rewrite fresh).
  unfold without, populateCards.
  induction ids as [|cid ids [IH1 IH2]]; [split; [done|by intros x Hx%elem_of_nil]|].
  cbn [omap list_omap]. rewrite findById_card_new. case_decide as Hc.
  - subst cid. rewrite Hf.
    rewrite filter_cons_False by (simpl; auto). split; [done|].
    intros x Hx Hid. apply elem_of_cons in Hx as [->|Hx]; [done|by apply IH2].
  - destruct (findById (Cards db) cid) as [c|] eqn:Hcid.
    + assert (_id c = cid) as Hidc.
      { unfold findById in Hcid. apply fmap_Some in Hcid as (? & _ & ->). done. }
      rewrite filter_cons_True by (simpl; congruence). split; [by rewrite IH1|].
      intros x Hx Hid. apply elem_of_cons in Hx as [->|Hx]; [congruence|by apply IH2].
    + by split.
Qed.

Lemma populateLists_new (lids : list string) :
  Forall2 (fun pl pl' => PList.name pl = PList.name pl'
                         /\ without newId (PList.cards pl') = PList.cards pl
                         /\ forall x, x ∈ PList.cards pl' -> _id x = newId ->
                                      x = mkDoc newId c0)
          (populateLists db lids) (populateLists (withCard db listId l newId c0) lids).
Proof.
  unfold populateLists. induction lids as [|lid lids IH]; [constructor|].
  cbn [omap list_omap].
  assert (Hfind : findById (Lists (withCard db listId l newId c0)) lid
                  = if decide (lid = listId)
                    then Some (mkDoc listId (List.mk (List.name l) (List.board l)
                                               (List.position l) (List.cards l ++ [newId])))
                    else findById (Lists db) lid).
  { unfold findById, withCard. simpl. case_decide as Hc.
    - subst. by rewrite lookup_insert_eq.
    - by rewrite lookup_insert_ne. }
  rewrite Hfind. case_decide as Hc.
  - subst lid.
    assert (findById (Lists db) listId = Some (mkDoc listId l)) as ->
      by (clear -stored; unfold findById, ObjectId in *; by rewrite stored).
    constructor; [|exact IH]. unfold populateList. simpl. split; [done|].
    destruct (populateCards_new (List.cards l ++ [newId])) as [H1 H2].
    split; [|exact H2]. rewrite H1. unfold populateCards.
    rewrite omap_app. simpl.
    assert (findById (Cards db) newId = None) as ->
      by (clear -fresh; unfold findById, ObjectId in *; by rewrite fresh).
    by rewrite app_nil_r.
  - destruct (findById (Lists db) lid) as [l0|]; [|exact IH].
    constructor; [|exact IH]. unfold populateList. simpl. split; [done|].
    destruct (populateCards_new (List.cards (fields l0))) as [H1 H2]. by split.
Qed.
Lemma allCards_new (b : Doc Board.t) :
  without newId (allCards (populateBoard (withCard db listId l newId c0) b))
  = allCards (populateBoard db b)
  /\ forall x, x ∈ allCards (populateBoard (withCard db listId l newId c0) b) ->
               _id x = newId -> x = mkDoc newId c0.
Proof.
  unfold allCards, populateBoard. cbn [PBoard.lists].
  induction (populateLists_new (Board.lists (fields b))) as [|pl pl' ls ls' (_ & H1 & H2) _ [IH1 IH2]].
  - split; [done|]. by intros x Hx%elem_of_nil.
  - cbn [fmap list_fmap concat]. split.
    + unfold without in *. by rewrite filter_app, H1, IH1.
    + intros x Hx Hid. apply elem_of_app in Hx as [Hx|Hx]; [by apply H2|by apply IH2].
Qed.

Lemma old_cards_sameFor (b : Doc Board.t) (card : Doc Card.t) :
  _id card <> newId ->
  Forall2 (sameFor card) (PBoard.lists (populateBoard db b))
          (PBoard.lists (populateBoard (withCard db listId l newId c0) b)).
Proof.
  intros Hid. unfold populateBoard. cbn [PBoard.lists].
  eapply Forall2_impl; [apply populateLists_new|].
  intros pl pl' (Hn & Hc & _). split; [done|].
  unfold hasCard. rewrite <- Hc. clear Hc. unfold without, some.
  induction (PList.cards pl') as [|y ys IH]; [done|].
  destruct (decide (_id y = newId)) as [Hy|Hy].
  - rewrite filter_cons_False by auto. simpl. rewrite <- IH.
    destruct (String.eqb_spec (_id y) (_id card)); [congruence|done].
  - rewrite filter_cons_True by done. simpl. by rewrite IH.
Qed.

Lemma flat_map_without {B} (f f' : Doc Card.t -> list B) (cs : list (Doc Card.t)) :
  (forall x, x ∈ cs -> _id x = newId -> f' x = []) ->
  (forall x, x ∈ cs -> _id x <> newId -> f' x = f x) ->
  flat_map f' cs = flat_map f (without newId cs).
Proof.
  unfold without. induction cs as [|x cs IH]; intros Hnew Hold; [done|].
  simpl. rewrite IH.
  - destruct (decide (_id x = newId)) as [Hx|Hx].
    + rewrite filter_cons_False by auto. rewrite (Hnew x) by (done || left). done.
    + rewrite filter_cons_True by done. simpl. rewrite (Hold x) by (done || left). done.
  - intros y Hy. apply Hnew. by right.
  - intros y Hy. apply Hold. by right.
Qed.

Lemma concatenated_new (b : Doc Board.t) (now : Z) :
  quiet c0 ->
  concatenated (populateBoard (withCard db listId l newId c0) b) now
  = concatenated (populateBoard db b) now.
Proof.
  intros Hq. destruct (allCards_new b) as [Hold Hnew].
  unfold concatenated. rewrite <- Hold.
  assert (Hquiet : forall x board,
            x ∈ allCards (populateBoard (withCard db listId l newId c0) b) ->
            _id x = newId ->
            alertsFor board x = [] /\ priorityRules board x = []
            /\ dueDateRules now x = [] /\ statusRules now x = []).
  { intros x board Hx Hid. rewrite (Hnew x Hx Hid). by apply quiet_no_advisory. }
  f_equal; [|f_equal; [|f_equal]]; apply flat_map_without.
  - intros x Hx Hid. by apply (Hquiet x _ Hx Hid).
  - intros x Hx Hid. symmetry. by apply rules_agree, old_cards_sameFor.
  - intros x Hx Hid. by apply (Hquiet x _ Hx Hid).
  - intros x Hx Hid. symmetry. by apply rules_agree, old_cards_sameFor.
  - intros x Hx Hid. by apply (Hquiet x (populateBoard db b) Hx Hid).
  - done.
  - intros x Hx Hid. by apply (Hquiet x (populateBoard db b) Hx Hid).
  - done.
Qed.

Lemma getRecommendations_new (reader : string) (id : ObjectId) (now : Z) :
  quiet c0 ->
  getRecommendations (withCard db listId l newId c0) reader id now
  = getRecommendations db reader id now.
Proof.
  intros Hq. unfold getRecommendations.
  change (Boards (withCard db listId l newId c0)) with (Boards db).
  destruct (findById (Boards db) id) as [b|]; [|done].
  change (PBoard.owner (populateBoard (withCard db listId l newId c0) b))
    with (PBoard.owner (populateBoard db b)).
  change (PBoard.members (populateBoard (withCard db listId l newId c0) b))
    with (PBoard.members (populateBoard db b)).
  destruct (accessDenied _ _ _); [done|].
  by rewrite !recommend_Return, concatenated_new.
Qed.
End NewCard.

Lemma createCard_NoDate_effect (db : Db) (userId : string) (boardId listId : ObjectId)
    (title description : option string) (newId : ObjectId) :
  (createCard db userId boardId listId title description NoDate newId).1 = db
  \/ exists l c,
       Lists db !! listId = Some l /\ Cards db !! newId = None /\ quiet c
       /\ (createCard db userId boardId listId title description NoDate newId).1
          = withCard db listId l newId c.
Proof.
  unfold createCard, findById, saveNew, required, withCard, quiet.
  destruct (Boards db !! boardId) as [b|] eqn:Hb; simpl; [|by left].
  destruct (Lists db !! listId) as [l|] eqn:Hl; simpl; [|by left].
  destruct (String.eqb (List.board l) boardId) eqn:He; simpl; [|by left].
  destruct (accessDenied _ _ _) eqn:Hd; simpl; [by left|].
  destruct title as [[|ch t]|]; simpl; try by left.
  destruct (Cards db !! newId) eqn:Hn; simpl; [by left|].
  right. exists l. eexists. repeat split; done.
Qed.

(** X26: a card created without a due date takes the defaults of the
    schema (priority Low, status Todo) and no rule of the engine fires on
    it; so after any [createCard] request without due date, whatever it
    answers, every board's recommendations are the ones from before, for
    every reader and at every instant. *)
Theorem default_card_raises_no_advisory (db : Db) (userId : string)
    (boardId listId : ObjectId) (title description : option string) (newId : ObjectId)
    (reader : string) (id : ObjectId) (now : Z) :
  getRecommendations
    (createCard db userId boardId listId title description NoDate newId).1 reader id now
  = getRecommendations db reader id now.
Proof.
  destruct (createCard_NoDate_effect db userId boardId listId title description newId)
    as [->|(l & c & Hl & Hn & Hq & ->)]; [done|].
  by apply getRecommendations_new.
Qed.
